(** * Mergeable histograms of the coffea-hats notebooks

    The notebook [01-histograms.ipynb] builds, on top of numpy, the two
    pieces of a map-reduce histogram: the function [add_histos] (cell 4) and
    the class [myTH1] (cell 7).  This file embeds both, together with the
    numpy functions they call, and settles the properties the specification
    states about them.

    Numbers are kept as the code has them.  A numpy [float64] is a Rocq
    primitive [float] (IEEE 754 binary64, round to nearest even); an [int64]
    is a [Z] with its wrap-around written out.  Nothing is idealised to real
    numbers, so a law is proved exactly where the floating-point code obeys
    it exactly.

    The class is embedded twice.  On values, [fill] and [__add__] are
    functions from histograms to histograms, and the algebraic laws are
    stated there.  On a store of arrays and objects, [fill] writes into the
    array that [self._sumw] refers to and [__add__] allocates; the runs on
    the store are proved to compute the values of the functions
    ([HeapFacts.fill_run], [HeapFacts.init_run], [HeapFacts.add_run]).

    - Part I: the embedding of the notebooks, of the numpy functions and
      the awkward-array operations they call, and the models of the two
      coffea components that the repository calls and does not contain.
    - Part II: the vocabulary of the properties.
    - Part III: facts about the embedding.
    - Part IV: the properties of the specification, C1 to C10.
    - Part V: further properties of the code: the cells 5, 8 and 31 that
      use [add_histos] and [myTH1], the errors of [fill], the helper
      [nanoArray] of the sample game, and the selections of the two
      processors of the dimuon analysis. *)

From Stdlib Require Import String ZArith List Lia Bool Floats Permutation DecimalString.
Import ListNotations.

(** ** Part I.  The embedding *)

(** *** Scalars: float64 and int64 *)

Module Float64.

(** [e == e] in numpy: false exactly for NaN. *)
Definition is_num (x : float) : bool := PrimFloat.eqb x x.

(** Two cells hold the same value: the same float, or two floats that numpy's
    [==] identifies (the two zeros). NaN is the same value as NaN. *)
Definition same_value (x y : float) : Prop :=
  x = y \/ PrimFloat.eqb x y = true.

(** Conversion of an integer to float64, rounding to nearest even: what numpy
    does to an [int64] operand that meets a [float64] one. *)
Definition of_count (n : Z) : float :=
  SF2Prim (binary_normalize prec emax n 0 false).

(** [int64] arithmetic wraps silently in numpy arrays. *)
Definition wrap64 (z : Z) : Z := ((z + 2 ^ 63) mod 2 ^ 64 - 2 ^ 63)%Z.

Definition add64 (x y : Z) : Z := wrap64 (x + y).

End Float64.

(** *** Python exceptions *)

Module Py.

Inductive exn : Type :=
| ValueError (msg : string).

Inductive result (A : Type) : Type :=
| Ret (a : A)
| Raise (e : exn).

Arguments Ret {A} a.
Arguments Raise {A} e.

Definition bind {A B} (r : result A) (k : A -> result B) : result B :=
  match r with
  | Ret a => k a
  | Raise e => Raise e
  end.

Fixpoint mapM {A B} (f : A -> result B) (l : list A) : result (list B) :=
  match l with
  | [] => Ret []
  | x :: t => bind (f x) (fun y => bind (mapM f t) (fun ys => Ret (y :: ys)))
  end.

End Py.

Import Py.

Notation "x <- e ;; k" := (Py.bind e (fun x => k))
  (at level 61, e at next level, right associativity).

(** *** The numpy functions the notebook calls

    numpy is not part of the repository; each function is modelled on
    one-dimensional arrays from numpy's documented behaviour, errors
    included. *)

Module Numpy.

Import Float64.

(** An array with its dtype. [np.histogram] returns [int64] counts when it is
    given no weights and [float64] sums otherwise. *)
Inductive ndarray : Type :=
| Int64 (l : list Z)
| Float64 (l : list float).

Definition size (a : ndarray) : nat :=
  match a with
  | Int64 l => length l
  | Float64 l => length l
  end.

(** Promotion of an array to [float64]. *)
Definition as_float64 (a : ndarray) : list float :=
  match a with
  | Int64 l => map of_count l
  | Float64 l => l
  end.

Definition zip_with {A B C} (f : A -> B -> C) (a : list A) (b : list B) : list C :=
  map (fun p => f (fst p) (snd p)) (combine a b).

(** Binary operators broadcast: equal shapes go element by element, a
    one-element operand is stretched, anything else is an error. *)
Definition broadcast {A} (f : A -> A -> A) (a b : list A) : result (list A) :=
  if Nat.eqb (length a) (length b) then Ret (zip_with f a b)
  else match a, b with
       | [x], _ => Ret (map (f x) b)
       | _, [y] => Ret (map (fun x => f x y) a)
       | _, _ => Raise (ValueError "operands could not be broadcast together")
       end.

(** [a + b] on two [float64] arrays. *)
Definition add_f64 (a b : list float) : result (list float) :=
  broadcast PrimFloat.add a b.

(** [a + b] on arrays of any dtype: [int64] stays [int64] (and wraps), a
    [float64] operand promotes the other one. *)
Definition np_add (a b : ndarray) : result ndarray :=
  match a, b with
  | Int64 x, Int64 y => l <- broadcast add64 x y ;; Ret (Int64 l)
  | _, _ => l <- add_f64 (as_float64 a) (as_float64 b) ;; Ret (Float64 l)
  end.

(** [a += b] on a [float64] array [a]: the result keeps [a]'s shape, so only
    [b] may be stretched. *)
Definition np_iadd (a : list float) (b : ndarray) : result (list float) :=
  let b' := as_float64 b in
  if Nat.eqb (length a) (length b') then Ret (zip_with PrimFloat.add a b')
  else match b' with
       | [y] => Ret (map (fun x => PrimFloat.add x y) a)
       | _ => Raise (ValueError "operands could not be broadcast together")
       end.

(** [np.zeros(n)]. *)
Definition np_zeros (n : Z) : result (list float) :=
  if (n <? 0)%Z then Raise (ValueError "negative dimensions are not allowed")
  else Ret (repeat PrimFloat.zero (Z.to_nat n)).

(** [np.all(a == b)] on arrays of one shape. *)
Definition np_all_eq (a b : list float) : bool :=
  forallb (fun b => b) (zip_with PrimFloat.eqb a b).

(** [np.array_equal(a, b)]: false when the shapes differ. *)
Definition np_array_equal (a b : list float) : bool :=
  if negb (Nat.eqb (length a) (length b)) then false else np_all_eq a b.

(** numpy sorts NaN after every number, and [searchsorted] follows that order:
    [sort_lt e v] says that [v] stands strictly before [e], [sort_le e v] that
    it stands before or with [e]. *)
Definition sort_lt (e v : float) : bool :=
  if is_num e then PrimFloat.ltb v e else is_num v.

Definition sort_le (e v : float) : bool :=
  if is_num e then PrimFloat.leb v e else true.

(** The searches of [_search_sorted_inclusive]: side 'left' for every edge but
    the last, side 'right' for the last, which closes the last bin. *)
Fixpoint searches (edges : list float) : list (float -> bool) :=
  match edges with
  | [] => []
  | e :: t =>
      match t with
      | [] => [sort_le e]
      | _ :: _ => sort_lt e :: searches t
      end
  end.

Definition count_if (p : float -> bool) (a : list float) : Z :=
  Z.of_nat (length (filter p a)).

(** [searchsorted] on the sorted data returns, for each edge, how many values
    stand before it: a count, which needs no sorting to state. *)
Definition search_sorted_inclusive (a edges : list float) : list Z :=
  map (fun p => count_if p a) (searches edges).

(** [np.diff]. *)
Fixpoint np_diff (c : list Z) : list Z :=
  match c with
  | [] => []
  | x :: t =>
      match t with
      | [] => []
      | y :: _ => (y - x)%Z :: np_diff t
      end
  end.

(** [np.any(bin_edges[:-1] > bin_edges[1:])]. *)
Fixpoint any_decreasing (edges : list float) : bool :=
  match edges with
  | [] => false
  | x :: t =>
      match t with
      | [] => false
      | y :: _ => PrimFloat.ltb y x || any_decreasing t
      end
  end.

(** [np.diff] on [float64]. *)
Fixpoint np_diff_f64 (c : list float) : list float :=
  match c with
  | [] => []
  | x :: t =>
      match t with
      | [] => []
      | y :: _ => PrimFloat.sub y x :: np_diff_f64 t
      end
  end.

(** The block size of [np.histogram]: it works through the data in slices of
    65536 elements. *)
Definition BLOCK : nat := Z.to_nat 65536.

(** The slices [l[i:i+BLOCK]] for [i] in [range(0, len(l), BLOCK)]. *)
Fixpoint blocks_upto {A} (fuel : nat) (l : list A) : list (list A) :=
  match fuel with
  | O => []
  | S fuel' =>
      match l with
      | [] => []
      | _ :: _ => firstn BLOCK l :: blocks_upto fuel' (skipn BLOCK l)
      end
  end.

Definition blocks {A} (l : list A) : list (list A) := blocks_upto (length l) l.

(** [tmp_a[sorting_index]] and [tmp_w[sorting_index]] for
    [sorting_index = np.argsort(tmp_a)]: the pairs of a value and its weight
    in numpy's order of the values, NaN last.  numpy's default sort makes no
    promise on the order of values that are equal; here they keep their input
    order. *)
Fixpoint insert_sorted (p : float * float) (l : list (float * float))
  : list (float * float) :=
  match l with
  | [] => [p]
  | q :: t =>
      if sort_lt (fst p) (fst q) then q :: insert_sorted p t else p :: q :: t
  end.

Definition argsort_pairs (aw : list (float * float)) : list (float * float) :=
  fold_right insert_sorted [] aw.

(** [sw.cumsum()]: the running sums, added from the left. *)
Fixpoint accumulate (s : float) (l : list float) : list float :=
  match l with
  | [] => []
  | x :: t => PrimFloat.add s x :: accumulate (PrimFloat.add s x) t
  end.

Definition np_cumsum (l : list float) : list float :=
  match l with
  | [] => []
  | x :: t => x :: accumulate x t
  end.

(** One turn of the loop over the blocks, with weights:
    [cum_n += cw[bin_index]], where [cw] is the cumulated weights of the
    sorted block behind a zero and [bin_index] the place of each edge in the
    sorted block. *)
Definition add_block (edges : list float) (cum_n : list float)
    (block : list (float * float)) : list float :=
  let sw := map snd (argsort_pairs block) in
  let cw := PrimFloat.zero :: np_cumsum sw in
  let bin_index := search_sorted_inclusive (map fst block) edges in
  zip_with PrimFloat.add cum_n
    (map (fun k => nth (Z.to_nat k) cw PrimFloat.zero) bin_index).

(** The weighted histogram: the cumulative histogram at the edges, block
    after block, and its differences. *)
Definition weighted_histogram (a w edges : list float) : list float :=
  np_diff_f64
    (fold_left (add_block edges) (blocks (combine a w))
       (repeat PrimFloat.zero (length edges))).

Definition bins_not_monotonic : exn :=
  ValueError "`bins` must increase monotonically, when an array".

(** [np.histogram(a, bins=edges, weights=weights)] for an array of edges:
    the shape of the weights is checked first, then the edges, and the
    histogram is computed through the cumulative histogram. *)
Definition np_histogram (a edges : list float) (weights : option (list float))
  : result (ndarray * list float) :=
  match weights with
  | None =>
      if any_decreasing edges then Raise bins_not_monotonic
      else Ret (Int64 (np_diff (search_sorted_inclusive a edges)), edges)
  | Some w =>
      if negb (Nat.eqb (length w) (length a))
      then Raise (ValueError "weights should have the same shape as a.")
      else if any_decreasing edges then Raise bins_not_monotonic
      else Ret (Float64 (weighted_histogram a w edges), edges)
  end.

End Numpy.

(** *** [np.linspace], which makes the binning of the notebook *)

Module Linspace.

Import Float64 Numpy.

(** [np.arange(0, num, dtype=float64)]. *)
Definition np_arange (num : Z) : list float :=
  map (fun i => of_count (Z.of_nat i)) (seq 0 (Z.to_nat num)).

(** [y[-1] = stop] *)
Definition set_last (y : list float) (stop : float) : list float :=
  match y with
  | [] => []
  | _ :: _ => removelast y ++ [stop]
  end.

(** [np.linspace(start, stop, num)], with the endpoint. *)
Definition np_linspace (start stop : float) (num : Z) : result (list float) :=
  if (num <? 0)%Z
  then Raise (ValueError ("Number of samples, " ++ NilZero.string_of_int (Z.to_int num)
                          ++ ", must be non-negative."))
  else
    let div := (num - 1)%Z in
    let start := PrimFloat.mul start 1 in
    let stop := PrimFloat.mul stop 1 in
    let delta := PrimFloat.sub stop start in
    let y := np_arange num in
    let y :=
      if (0 <? div)%Z then
        let step := PrimFloat.div delta (of_count div) in
        if PrimFloat.eqb step 0
        then map (fun x => PrimFloat.mul (PrimFloat.div x (of_count div)) delta) y
        else map (fun x => PrimFloat.mul x step) y
      else map (fun x => PrimFloat.mul x delta) y in
    let y := map (fun x => PrimFloat.add x start) y in
    Ret (if (1 <? num)%Z then set_last y stop else y).

End Linspace.

(** *** Notebook cells 4 and 7, on values *)

Module Notebook.

Import Float64 Numpy.

(** The error both merges raise on a binning mismatch; the specification calls
    it IncompatibleBinning. *)
Definition IncompatibleBinning : exn :=
  ValueError "The histograms have inconsistent binning".

(** A histogram as [np.histogram] returns it: [(sumw, binning)]. *)
Definition histo : Type := (ndarray * list float)%type.

(** Cell 4. *)
Definition add_histos (h1 h2 : histo) : result histo :=
  let '(h1sumw, h1binning) := h1 in
  let '(h2sumw, h2binning) := h2 in
  if Nat.eqb (length h1binning) (length h2binning) && np_all_eq h1binning h2binning
  then s <- np_add h1sumw h2sumw ;; Ret (s, h1binning)
  else Raise IncompatibleBinning.

(** Cell 7: the state of a [myTH1] object. *)
Record myTH1 : Type := {
  _binning : list float;
  _sumw : list float
}.

Definition __init__ (binning : list float) : result myTH1 :=
  sumw <- np_zeros (Z.of_nat (length binning) - 1) ;;
  Ret {| _binning := binning; _sumw := sumw |}.

(** [fill] updates [self._sumw]; on values it returns the updated object. *)
Definition fill (self : myTH1) (values : list float) (weights : option (list float))
  : result myTH1 :=
  hb <- np_histogram values (_binning self) weights ;;
  sumw <- np_iadd (_sumw self) (fst hb) ;;
  Ret {| _binning := _binning self; _sumw := sumw |}.

(** [other] is a [myTH1] by its type, which settles the [isinstance] test. *)
Definition __add__ (self other : myTH1) : result myTH1 :=
  if negb (np_array_equal (_binning other) (_binning self))
  then Raise IncompatibleBinning
  else
    out <- __init__ (_binning self) ;;
    sumw <- add_f64 (_sumw self) (_sumw other) ;;
    Ret {| _binning := _binning out; _sumw := sumw |}.

(** Cell 8 as a pipeline.  Each chunk is processed as [MyProcessor.process]
    does it: a fresh accumulator, filled with the chunk, returned.  The parts
    are then added up, starting from a fresh histogram. *)
Definition process (binning chunk : list float) : result myTH1 :=
  h <- __init__ binning ;; fill h chunk None.

Fixpoint reduce (acc : myTH1) (parts : list myTH1) : result myTH1 :=
  match parts with
  | [] => Ret acc
  | p :: t => acc' <- __add__ acc p ;; reduce acc' t
  end.

Definition run_chunks (binning : list float) (chunks : list (list float))
  : result myTH1 :=
  parts <- mapM (process binning) chunks ;;
  identity <- __init__ binning ;;
  reduce identity parts.

(** Filling event by event, one call per (value, weight). *)
Fixpoint fill_each (h : myTH1) (events : list (float * option float)) : result myTH1 :=
  match events with
  | [] => Ret h
  | (v, w) :: t =>
      h' <- fill h [v] (option_map (fun x => [x]) w) ;;
      fill_each h' t
  end.

End Notebook.

(** *** Notebook cell 7, on a store

    A [myTH1] object holds references to numpy arrays: [__init__] keeps the
    caller's [binning] array, [fill] updates the cell array in place, and
    [__add__] builds a new object.  The store makes sharing and mutation
    explicit: arrays and objects live at addresses, and an allocation takes
    the next free one. *)

Module Heap.

Import Float64 Numpy Notebook.

Definition addr : Type := nat.

(** The attributes of a [myTH1] object. *)
Record object : Type := {
  attr_binning : addr;
  attr_sumw : addr
}.

Record heap : Type := {
  arrays : list (list float);
  objects : list object
}.

Definition empty : heap := {| arrays := []; objects := [] |}.

(** A computation: it reads and updates the store, and returns or raises.
    What it wrote before raising stays written. *)
Definition M (A : Type) : Type := heap -> result A * heap.

Definition ret {A} (a : A) : M A := fun hp => (Ret a, hp).

Definition raise {A} (e : exn) : M A := fun hp => (Raise e, hp).

Definition lift {A} (r : result A) : M A := fun hp => (r, hp).

Definition bindM {A B} (m : M A) (k : A -> M B) : M B :=
  fun hp =>
    match m hp with
    | (Ret a, hp') => k a hp'
    | (Raise e, hp') => (Raise e, hp')
    end.

Notation "x <~ e ;; k" := (bindM e (fun x => k))
  (at level 61, e at next level, right associativity).

Fixpoint set_nth {A} (n : nat) (x : A) (l : list A) : list A :=
  match l with
  | [] => []
  | y :: t =>
      match n with
      | O => x :: t
      | S n' => y :: set_nth n' x t
      end
  end.

Definition new_array (l : list float) : M addr :=
  fun hp => (Ret (length (arrays hp)),
             {| arrays := arrays hp ++ [l]; objects := objects hp |}).

Definition get_array (a : addr) : M (list float) :=
  fun hp => (Ret (nth a (arrays hp) []), hp).

Definition set_array (a : addr) (l : list float) : M unit :=
  fun hp => (Ret tt, {| arrays := set_nth a l (arrays hp); objects := objects hp |}).

Definition no_object : object := {| attr_binning := 0; attr_sumw := 0 |}.

Definition new_object (o : object) : M addr :=
  fun hp => (Ret (length (objects hp)),
             {| arrays := arrays hp; objects := objects hp ++ [o] |}).

Definition get_object (o : addr) : M object :=
  fun hp => (Ret (nth o (objects hp) no_object), hp).

(** [obj._sumw = a] *)
Definition set_sumw (o a : addr) : M unit :=
  fun hp =>
    let ob := nth o (objects hp) no_object in
    (Ret tt, {| arrays := arrays hp;
                objects := set_nth o {| attr_binning := attr_binning ob; attr_sumw := a |}
                             (objects hp) |}).

(** [myTH1(binning)]: the object is entered in the store once both
    attributes are set. *)
Definition __init__ (binning : addr) : M addr :=
  b <~ get_array binning ;;
  z <~ lift (np_zeros (Z.of_nat (length b) - 1)) ;;
  sumw <~ new_array z ;;
  new_object {| attr_binning := binning; attr_sumw := sumw |}.

(** [self.fill(values, weights)]: [self._sumw += sumw] writes into the array
    that [self._sumw] refers to. *)
Definition fill (self : addr) (values : list float) (weights : option (list float))
  : M unit :=
  o <~ get_object self ;;
  b <~ get_array (attr_binning o) ;;
  hb <~ lift (np_histogram values b weights) ;;
  s <~ get_array (attr_sumw o) ;;
  s' <~ lift (np_iadd s (fst hb)) ;;
  set_array (attr_sumw o) s'.

(** [self + other] *)
Definition __add__ (self other : addr) : M addr :=
  os <~ get_object self ;;
  oo <~ get_object other ;;
  bo <~ get_array (attr_binning oo) ;;
  bs <~ get_array (attr_binning os) ;;
  if negb (np_array_equal bo bs) then raise IncompatibleBinning
  else
    out <~ __init__ (attr_binning os) ;;
    ss <~ get_array (attr_sumw os) ;;
    so <~ get_array (attr_sumw oo) ;;
    s <~ lift (add_f64 ss so) ;;
    a <~ new_array s ;;
    _ <~ set_sumw out a ;;
    ret out.

(** What an object of the store holds, as a value. *)
Definition view (hp : heap) (o : addr) : myTH1 :=
  let ob := nth o (objects hp) no_object in
  {| _binning := nth (attr_binning ob) (arrays hp) [];
     _sumw := nth (attr_sumw ob) (arrays hp) [] |}.

(** [o] is an object of the store, and its attributes are arrays of it. *)
Definition valid (hp : heap) (o : addr) : Prop :=
  o < length (objects hp) /\
  attr_binning (nth o (objects hp) no_object) < length (arrays hp) /\
  attr_sumw (nth o (objects hp) no_object) < length (arrays hp).

(** Everything of [hp] is still in [hp'], unchanged. *)
Definition preserved (hp hp' : heap) : Prop :=
  (forall a, a < length (arrays hp) -> nth_error (arrays hp') a = nth_error (arrays hp) a) /\
  (forall o, o < length (objects hp) -> nth_error (objects hp') o = nth_error (objects hp) o).

End Heap.

(** *** The cells that use [add_histos] and [myTH1] *)

Module Scripts.

Import Float64 Numpy Notebook Linspace.

(** Cell 5: the histograms of two samples over one binning, added. *)
Definition cell5 (binning vals vals2 : list float) : result histo :=
  hist1 <- np_histogram vals binning None ;;
  hist2 <- np_histogram vals2 binning None ;;
  add_histos hist1 hist2.

(** Cell 31: the arguments [x] and [y] of [plt.step]. *)
Definition cell31 (binning vals : list float) : result (list float * ndarray) :=
  g <- np_histogram vals binning None ;;
  let '(h1vals, h1bins) := g in
  Ret (removelast h1bins, h1vals).

(** What cell 8 leaves behind: the three objects and the array it prints. *)
Record cell8_names : Type := {
  h1 : Heap.addr;
  h2 : Heap.addr;
  h : Heap.addr;
  printed : list float
}.

Import Heap.

(** Cell 8, on the store. *)
Definition cell8 (vals vals2 : list float) : M cell8_names :=
  b <~ lift (np_linspace 0 1 50) ;;
  binning <~ new_array b ;;
  h1 <~ Heap.__init__ binning ;;
  _ <~ Heap.fill h1 vals None ;;
  h2 <~ Heap.__init__ binning ;;
  _ <~ Heap.fill h2 vals2 None ;;
  h <~ Heap.__add__ h1 h2 ;;
  o <~ get_object h ;;
  s <~ get_array (attr_sumw o) ;;
  ret {| h1 := h1; h2 := h2; h := h; printed := s |}.

End Scripts.

(** *** The helper of the sample game

    [nanoArray] reads branches of a tree into the columns of a table.  The
    tree and the two constructors it calls belong to uproot and awkward;
    they are parameters here, and the dictionary in between is Python's. *)

Module SampleGame.

Section NanoArray.

Context {Exn Array Table : Type}.

(** A Python dict with string keys: the items in insertion order. *)
Definition dict : Type := list (string * Array).

(** [d[k] = v]: a known key keeps its place and takes the new value, a new
    key goes to the end. *)
Fixpoint setitem (k : string) (v : Array) (d : dict) : dict :=
  match d with
  | [] => [(k, v)]
  | (k', v') :: t =>
      if String.eqb k k' then (k', v) :: t else (k', v') :: setitem k v t
  end.

Fixpoint getitem (k : string) (d : dict) : option Array :=
  match d with
  | [] => None
  | (k', v') :: t => if String.eqb k k' then Some v' else getitem k t
  end.

(** [d.update(other)] *)
Definition update (d other : dict) : dict :=
  fold_left (fun acc kv => setitem (fst kv) (snd kv) acc) other d.

Definition bindE {A B} (r : Exn + A) (k : A -> Exn + B) : Exn + B :=
  match r with
  | inl e => inl e
  | inr a => k a
  end.

(** [tree[name].array()]: the array of a branch, or the error of the lookup. *)
Variable tree : string -> Exn + Array.

(** [uproot_methods.TLorentzVectorArray.from_ptetaphim] *)
Variable from_ptetaphim : Array -> Array -> Array -> Array -> Exn + Array.

(** [awkward.JaggedArray.zip], called with the items of [columns] as its
    keyword arguments. *)
Variable zip : dict -> Exn + Table.

(** [{k: tree[prefix+k].array() for k in column_names}] *)
Fixpoint comprehension (prefix : string) (column_names : list string) (acc : dict)
  : Exn + dict :=
  match column_names with
  | [] => inr acc
  | k :: t =>
      bindE (tree (prefix ++ k)%string) (fun v => comprehension prefix t (setitem k v acc))
  end.

Definition nanoArray (prefix : string) (column_names : list string) (has_p4 : bool)
  : Exn + Table :=
  bindE (if has_p4
         then
           bindE (tree (prefix ++ "pt")%string) (fun pt =>
           bindE (tree (prefix ++ "eta")%string) (fun eta =>
           bindE (tree (prefix ++ "phi")%string) (fun phi =>
           bindE (tree (prefix ++ "mass")%string) (fun mass =>
           bindE (from_ptetaphim pt eta phi mass) (fun p4 =>
           inr (setitem "p4" p4 []))))))
         else inr [])
    (fun columns =>
       bindE (comprehension prefix column_names [])
         (fun new => zip (update columns new))).

End NanoArray.

End SampleGame.

(** *** The awkward-array operations the processors call

    awkward is not part of the repository; each operation is modelled on
    lists of lists from its documented behaviour.  A mask has the structure
    of the array it selects from: the code computes each mask from that
    array. *)

Module Awkward.

(** A jagged array: the entries of each event, event by event. *)
Definition jagged (A : Type) : Type := list (list A).

(** [a.size]: the number of events. *)
Definition size {A} (a : jagged A) : Z := Z.of_nat (length a).

(** [a.counts]: the number of entries of each event. *)
Definition counts {A} (a : jagged A) : list Z :=
  map (fun ev => Z.of_nat (length ev)) a.

(** [a[m]] for an array [m] of booleans, one for each element of [a]. *)
Definition getitem_mask {A} (a : list A) (m : list bool) : list A :=
  map fst (filter snd (combine a m)).

(** [a[m]] for a jagged array [m] of booleans of the structure of [a]: every
    event is kept, with the entries that its mask selects. *)
Definition getitem_jagged {A} (a : jagged A) (m : jagged bool) : jagged A :=
  map (fun p => getitem_mask (fst p) (snd p)) (combine a m).

(** An operation applied entry by entry. *)
Definition elementwise {A B} (f : A -> B) (a : jagged A) : jagged B :=
  map (map f) a.

(** [m.any()]: for each event, whether some entry is true. *)
Definition any (m : jagged bool) : list bool :=
  map (existsb (fun b => b)) m.

(** [m.sum()] on numpy booleans: how many are true. *)
Definition sum (m : list bool) : Z :=
  Z.of_nat (length (filter (fun b => b) m)).

(** [a.prod()]: the product of the entries of each event.  It is compared
    with -1 for events of two charges, where it does not overflow. *)
Definition prod (a : jagged Z) : list Z :=
  map (fun ev => fold_right Z.mul 1%Z ev) a.

(** The pairs of two different entries of an event, each pair once, in the
    order of the entries. *)
Fixpoint pairs_of {A} (ev : list A) : list (A * A) :=
  match ev with
  | [] => []
  | x :: t => map (pair x) t ++ pairs_of t
  end.

(** [a.distincts()], and [a.choose(2)]. *)
Definition distincts {A} (a : jagged A) : jagged (A * A) := map pairs_of a.

(** [a.flatten()], and the [content] of a compact array. *)
Definition flatten {A} (a : jagged A) : list A := concat a.

End Awkward.

(** *** The processors of the dimuon analysis

    [MyProcessor.process] and [FancyDimuonProcessor.process] select muons
    and pairs of muons of a chunk of events, count, and fill coffea
    histograms.  The selections and the counts are embedded; what is handed
    to the histograms is the output. *)

Module Processors.

Import Float64 Numpy Awkward.

(** [int32] arithmetic wraps. *)
Definition wrap32 (z : Z) : Z := ((z + 2 ^ 31) mod 2 ^ 32 - 2 ^ 31)%Z.

(** [d[k] += n] on a [defaultdict(int)]: a missing key counts as 0, and is
    entered at the end. *)
Fixpoint iadd_item (k : string) (n : Z) (d : list (string * Z)) : list (string * Z) :=
  match d with
  | [] => [(k, (0 + n)%Z)]
  | (k', v) :: t =>
      if String.eqb k k' then (k', (v + n)%Z) :: t else (k', v) :: iadd_item k n t
  end.

(** [d[k]] on a [defaultdict(int)]. *)
Fixpoint item (k : string) (d : list (string * Z)) : Z :=
  match d with
  | [] => 0%Z
  | (k', v) :: t => if String.eqb k k' then v else item k t
  end.

(** [a > b], element by element, on arrays of one shape. *)
Definition np_greater (a b : list float) : list bool :=
  map (fun p : float * float => PrimFloat.ltb (snd p) (fst p)) (combine a b).

(** [~c] *)
Definition np_invert (c : list bool) : list bool := map negb c.

(** [np.where(c, x, y)] on arrays of one shape. *)
Definition np_where (c : list bool) (x y : list float) : list float :=
  map (fun p : bool * (float * float) => if fst p then fst (snd p) else snd (snd p))
    (combine c (combine x y)).

Section Muons.

Context {Muon : Type}.

(** The columns of a muon that the processors read, and the mass of a pair
    of muons, which the candidate arrays compute from the four-vectors.
    [pt] is a float32 column: it is compared and selected, never computed
    with, and every float32 is a float64. *)
Variable pt : Muon -> float.
Variable charge : Muon -> Z.
Variable softId : Muon -> Z.
Variable pair_mass : Muon * Muon -> float.

(** What [MyProcessor.process] adds to its output for the muons of one
    chunk: the number that goes to ["sumw"], which is [df.size], the number
    of events, and the masses that are filled into ["mass"]. *)
Record MyOutput : Type := {
  sumw : Z;
  mass : list float
}.

Definition MyProcessor_process (muons : jagged Muon) : MyOutput :=
  let cut := zip_with andb
               (map (fun c => (c =? 2)%Z) (counts muons))
               (map (fun p => (p =? -1)%Z) (prod (elementwise charge muons))) in
  let dimuons := distincts (getitem_mask muons cut) in
  {| sumw := size muons;
     mass := flatten (elementwise pair_mass dimuons) |}.

(** What [FancyDimuonProcessor.process] computes from the muons of one
    chunk before it fills its histograms: the cutflow, and the contents of
    [pt_lead] and [pt_trail]. *)
Record FancyOutput : Type := {
  cutflow : list (string * Z);
  pt_lead : list float;
  pt_trail : list float
}.

Definition FancyDimuonProcessor_process (muons : jagged Muon) : FancyOutput :=
  let output := [] in
  let output := iadd_item "all events" (size muons) output in
  let soft_id := elementwise (fun m => (0 <? softId m)%Z) muons in
  let muons := getitem_jagged muons soft_id in
  let output := iadd_item "soft id" (sum (any soft_id)) output in
  let twomuons := map (fun c => (2 <=? c)%Z) (counts muons) in
  let output := iadd_item "two muons" (sum twomuons) output in
  let dimuons := distincts (getitem_mask muons twomuons) in
  let twodimuons := map (fun c => (2 <=? c)%Z) (counts dimuons) in
  let output := iadd_item ">= two dimuons" (sum twodimuons) output in
  let dimuons := getitem_mask dimuons twodimuons in
  let opposite_charge :=
    elementwise (fun p => (wrap32 (charge (fst p) * charge (snd p)) =? -1)%Z) dimuons in
  let dimuons := getitem_jagged dimuons opposite_charge in
  let output := iadd_item "opposite charge" (sum (any opposite_charge)) output in
  let mass_20GeV := elementwise (fun p => PrimFloat.ltb 35 (pair_mass p)) dimuons in
  let dimuons := getitem_jagged dimuons mass_20GeV in
  let exactlytwodimuons := map (fun c => (c =? 2)%Z) (counts dimuons) in
  let output := iadd_item "== two dimuons" (sum exactlytwodimuons) output in
  let dimuons := getitem_mask dimuons exactlytwodimuons in
  let i0_pt := map (fun p => pt (fst p)) (flatten dimuons) in
  let i1_pt := map (fun p => pt (snd p)) (flatten dimuons) in
  let leading_mu := np_greater i0_pt i1_pt in
  {| cutflow := output;
     pt_lead := np_where leading_mu i0_pt i1_pt;
     pt_trail := np_where (np_invert leading_mu) i0_pt i1_pt |}.

End Muons.

End Processors.

(** *** A growable categorical axis *)

Module CatHist.

(** The notebooks fill coffea's [hist.Hist] over a [hist.Cat] axis; coffea is
    called and not contained in the repository, so the axis and the histogram
    over it follow the specification. *)

Inductive error : Type :=
| UnknownLabel (label : string).

(** Modelled from the spec: the categorical axis (coffea's [hist.Cat]), an
    ordered sequence of known labels, growable or not. *)
Record Axis : Type := {
  labels : list string;
  growable : bool
}.

Fixpoint lookup (label : string) (ls : list string) : option nat :=
  match ls with
  | [] => None
  | l :: t => if String.eqb label l then Some 0 else option_map S (lookup label t)
  end.

(** Modelled from the spec: [bin_index] of a categorical axis (coffea's
    [Cat.index]): lookup by label, inserting a new bin at the end if the axis
    may grow, else UnknownLabel.  Indices are stable: the table only grows at
    its end. *)
Definition bin_index (ax : Axis) (label : string) : error + (nat * Axis) :=
  match lookup label (labels ax) with
  | Some i => inr (i, ax)
  | None =>
      if growable ax
      then inr (length (labels ax), {| labels := labels ax ++ [label]; growable := true |})
      else inl (UnknownLabel label)
  end.

(** Modelled from the spec: a histogram over one categorical axis (coffea's
    [hist.Hist]), with its dense array of float64 weighted sums. *)
Record Hist : Type := {
  axis : Axis;
  cells : list float
}.

Definition identity (growable : bool) (known : list string) : Hist :=
  {| axis := {| labels := known; growable := growable |};
     cells := repeat PrimFloat.zero (length known) |}.

(** The cell array after the axis has grown to [n] bins. *)
Definition grow (n : nat) (cells : list float) : list float :=
  cells ++ repeat PrimFloat.zero (n - length cells).

Fixpoint add_at (i : nat) (w : float) (cells : list float) : list float :=
  match cells with
  | [] => []
  | c :: t =>
      match i with
      | O => PrimFloat.add c w :: t
      | S i' => c :: add_at i' w t
      end
  end.

(** Modelled from the spec: [fill] of a histogram (coffea's [Hist.fill]):
    the bin index of the label, the cell array grown with the axis, and the
    weight accumulated into the cell. *)
Definition fill (h : Hist) (label : string) (weight : float) : error + Hist :=
  match bin_index (axis h) label with
  | inl e => inl e
  | inr (i, ax) =>
      inr {| axis := ax; cells := add_at i weight (grow (length (labels ax)) (cells h)) |}
  end.

Fixpoint fill_all (h : Hist) (events : list (string * float)) : error + Hist :=
  match events with
  | [] => inr h
  | (l, w) :: t =>
      match fill h l w with
      | inl e => inl e
      | inr h' => fill_all h' t
      end
  end.

(** Modelled from the spec: [identifiers()], the labels in the order of the
    table. *)
Definition identifiers (h : Hist) : list string := labels (axis h).

Definition value (h : Hist) (label : string) : option float :=
  match lookup label (labels (axis h)) with
  | Some i => nth_error (cells h) i
  | None => None
  end.

(** One cell per label. *)
Definition shaped (h : Hist) : Prop :=
  length (cells h) = length (labels (axis h)).

End CatHist.

(** *** The executor *)

Module Executor.

(** The notebooks hand their processors to coffea's [run_uproot_job] and its
    executors; coffea is called and not contained in the repository, so the
    executor follows the specification, in its sequential variant. *)

Section Run.

Context {Chunk Acc : Type}.
Variable identity : Acc.
Variable merge : Acc -> Acc -> Acc.

(** Modelled from the spec: a task, a chunk with the function to run on it. *)
Record Task : Type := {
  chunk : Chunk;
  func : Chunk -> result Acc
}.

(** Modelled from the spec: the record of a task that raised.  Tasks are
    numbered from 1. *)
Record TaskFailure : Type := {
  task : nat;
  cause : exn
}.

Inductive outcome : Type :=
| Done (acc : Acc) (failures : list TaskFailure)
| Failed (first : TaskFailure).

(** Modelled from the spec: the executor's loop (coffea's executors).  It runs
    the tasks in order and folds their results into the accumulator with
    [merge].  A task that raises aborts the run in fail-fast mode; in
    best-effort mode it is recorded as a TaskFailure and the run goes on. *)
Fixpoint dispatch (fail_fast : bool) (n : nat) (tasks : list Task)
    (acc : Acc) (failures : list TaskFailure) : outcome :=
  match tasks with
  | [] => Done acc failures
  | t :: rest =>
      match func t (chunk t) with
      | Ret a => dispatch fail_fast (S n) rest (merge acc a) failures
      | Raise e =>
          if fail_fast then Failed {| task := n; cause := e |}
          else dispatch fail_fast (S n) rest acc (failures ++ [{| task := n; cause := e |}])
      end
  end.

(** Modelled from the spec: a run starts from the identity of the
    accumulator, with no failure recorded. *)
Definition run (fail_fast : bool) (tasks : list Task) : outcome :=
  dispatch fail_fast 1 tasks identity [].

(** The outputs of the tasks that return, in order. *)
Fixpoint outputs (tasks : list Task) : list Acc :=
  match tasks with
  | [] => []
  | t :: rest =>
      match func t (chunk t) with
      | Ret a => a :: outputs rest
      | Raise _ => outputs rest
      end
  end.

(** The failures of the tasks that raise, numbered from [n]. *)
Fixpoint raised (n : nat) (tasks : list Task) : list TaskFailure :=
  match tasks with
  | [] => []
  | t :: rest =>
      match func t (chunk t) with
      | Ret _ => raised (S n) rest
      | Raise e => {| task := n; cause := e |} :: raised (S n) rest
      end
  end.

End Run.

End Executor.

(** ** Part II.  The vocabulary of the properties

    What the statements below speak of, and two representations that the
    proofs about float64 work with. *)

(** *** float64, taken apart *)

Module Float64Repr.

Import Float64.

(** **** Integer counts

    A positive integer [n] of [d <= 53] bits is the float of mantissa
    [n * 2^(53-d)] and exponent [d - 53]: [canon n]. *)

Definition shl (n : positive) (k : nat) : positive := Nat.iter k xO n.

Definition canon (n : positive) : spec_float :=
  let d := Z.pos (digits2_pos n) in
  S754_finite false (shl n (Z.to_nat (53 - d))) (d - 53).

(** **** The order of floats, read off a key

    A number is a sign class, then exponent and mantissa; comparisons of
    floats are lexicographic comparisons of keys, where [lia] decides. *)

Definition key : Type := (Z * Z * Z)%type.

Definition SFkey (x : spec_float) : key :=
  match x with
  | S754_nan => (3, 0, 0)
  | S754_infinity true => (-2, 0, 0)
  | S754_infinity false => (2, 0, 0)
  | S754_zero _ => (0, 0, 0)
  | S754_finite true m e => (-1, - e, Z.neg m)
  | S754_finite false m e => (1, e, Z.pos m)
  end%Z.

Definition fkey (x : float) : key := SFkey (Prim2SF x).

Definition klt (a b : key) : Prop :=
  let '(a1, a2, a3) := a in
  let '(b1, b2, b3) := b in
  (a1 < b1 \/ (a1 = b1 /\ (a2 < b2 \/ (a2 = b2 /\ a3 < b3))))%Z.

Definition kle (a b : key) : Prop := klt a b \/ a = b.

Definition SFnum (x : spec_float) : bool :=
  match x with
  | S754_nan => false
  | _ => true
  end.

End Float64Repr.

(** *** Histograms and their laws *)

Module Properties.

Import Float64 Numpy Notebook.

(** The counts of an unweighted call. *)
Definition hist_counts (a edges : list float) : list Z :=
  np_diff (search_sorted_inclusive a edges).

(** Edges that are numbers and never decrease: what [np.histogram] accepts,
    NaN apart. *)
Definition valid_edges (edges : list float) : bool :=
  forallb is_num edges && negb (any_decreasing edges).

(** The bins as numpy documents them: [lo <= v < hi], and [lo <= v <= hi] for
    the last one. *)
Fixpoint doc_bins (edges : list float) : list (float -> bool) :=
  match edges with
  | [] => []
  | lo :: t =>
      match t with
      | [] => []
      | hi :: t' =>
          (fun v => PrimFloat.leb lo v &&
                    match t' with
                    | [] => PrimFloat.leb v hi
                    | _ :: _ => PrimFloat.ltb v hi
                    end) :: doc_bins t
      end
  end.

(** The cell array has one entry per bin: one less than there are edges. *)
Definition wf (h : myTH1) : Prop :=
  length (_sumw h) + 1 = length (_binning h).

(** [h] holds integer counts between 0 and [M], as unweighted fills of at
    most [M] values leave them. *)
Definition counts_upto (M : Z) (h : myTH1) (cs : list Z) : Prop :=
  _sumw h = map of_count cs /\ Forall (fun c => 0 <= c <= M)%Z cs.

(** The histograms that the class can build: constructed, filled, added. *)
Inductive reachable : myTH1 -> Prop :=
| reach_init binning h :
    __init__ binning = Ret h -> reachable h
| reach_fill h values weights h' :
    reachable h -> fill h values weights = Ret h' -> reachable h'
| reach_add h1 h2 h :
    reachable h1 -> reachable h2 -> __add__ h1 h2 = Ret h -> reachable h.

(** The sums of a result of [add_histos]. *)
Definition sums (r : result histo) : result ndarray :=
  g <- r ;; Ret (fst g).

(** The two groupings of a merge of three, and the cells of a result. *)
Definition merge_left (h1 h2 h3 : myTH1) : result myTH1 :=
  x <- __add__ h1 h2 ;; __add__ x h3.

Definition merge_right (h1 h2 h3 : myTH1) : result myTH1 :=
  y <- __add__ h2 h3 ;; __add__ h1 y.

Definition cells (r : result myTH1) : result (list float) :=
  h <- r ;; Ret (_sumw h).

(** The axis definitions differ: the edge arrays have different shapes, or
    some edge of one is not [==] to the edge of the other at its place. *)
Definition binning_differs (b1 b2 : list float) : Prop :=
  length b1 <> length b2 \/
  exists i x y, nth_error b1 i = Some x /\ nth_error b2 i = Some y /\
                PrimFloat.eqb x y = false.

(** The events of a list of values, each without a weight. *)
Definition unweighted (values : list float) : list (float * option float) :=
  map (fun v => (v, None)) values.

End Properties.

(** *** Runs, totals and the grown store *)

Module MoreProperties.

Import Float64 Numpy Notebook.

(** [weights] has the shape of [values], or is absent. *)
Definition weights_fit (values : list float) (weights : option (list float)) : bool :=
  match weights with
  | None => true
  | Some w => Nat.eqb (length w) (length values)
  end.

(** The content of a histogram: all its counts together. *)
Definition total (cs : list Z) : Z := fold_right Z.add 0%Z cs.

(** [v] lies between the first and the last edge, both included. *)
Definition in_range (edges : list float) (v : float) : bool :=
  PrimFloat.leb (hd PrimFloat.zero edges) v && PrimFloat.leb v (last edges PrimFloat.zero).


(** The histograms that cells 4 and 5 can build: returned by [np.histogram],
    or added by [add_histos]. *)
Inductive built : histo -> Prop :=
| built_histogram a edges weights g :
    np_histogram a edges weights = Ret g -> built g
| built_sum g1 g2 g :
    built g1 -> built g2 -> add_histos g1 g2 = Ret g -> built g.

(** Exactly two muons, and charges that multiply to -1. *)
Definition selected {Muon} (charge : Muon -> Z) (ev : list Muon) : bool :=
  (Z.of_nat (length ev) =? 2)%Z && (fold_right Z.mul 1%Z (map charge ev) =? -1)%Z.

(** The mass that one event contributes in [MyProcessor.process]. *)
Definition dimuon_mass {Muon} (charge : Muon -> Z) (pair_mass : Muon * Muon -> float)
    (ev : list Muon) : list float :=
  match ev with
  | [m0; m1] => if (charge m0 * charge m1 =? -1)%Z then [pair_mass (m0, m1)] else []
  | _ => []
  end.

(** The pairs of muons that [FancyDimuonProcessor.process] keeps of one
    event, said without arrays: the event must have at least two soft muons
    and at least two pairs of them, and exactly two of its pairs must have
    opposite charges and a mass above 35; these two pairs are kept. *)
Definition event_dimuons {Muon} (charge softId : Muon -> Z)
    (pair_mass : Muon * Muon -> float) (ev : list Muon) : list (Muon * Muon) :=
  let soft := filter (fun m => (0 <? softId m)%Z) ev in
  let pairs := Awkward.pairs_of soft in
  let kept :=
    filter (fun p => PrimFloat.ltb 35 (pair_mass p))
      (filter (fun p => (Processors.wrap32 (charge (fst p) * charge (snd p)) =? -1)%Z)
         pairs) in
  if (2 <=? Z.of_nat (length soft))%Z
  then if (2 <=? Z.of_nat (length pairs))%Z
       then if (Z.of_nat (length kept) =? 2)%Z then kept else []
       else []
  else [].

(** The selected pairs of a chunk, event after event. *)
Definition selected_dimuons {Muon} (charge softId : Muon -> Z)
    (pair_mass : Muon * Muon -> float) (muons : list (list Muon))
  : list (Muon * Muon) :=
  flat_map (event_dimuons charge softId pair_mass) muons.

(** The keys of the cutflow, in the order in which they are entered. *)
Definition cutflow_keys : list string :=
  ["all events"; "soft id"; "two muons"; ">= two dimuons"; "opposite charge";
   "== two dimuons"]%string.

(** The store grown from [A], [O] by the arrays [L] and the objects [Lo]. *)
Definition grown (A : list (list float)) (O : list Heap.object) L Lo : Heap.heap :=
  {| Heap.arrays := A ++ L; Heap.objects := O ++ Lo |}.

End MoreProperties.

(** *** The inputs of the examples *)

Module Examples.

Import Float64 Numpy Notebook.

(** Three histograms over the edges [0, 1], each filled with the one value
    0.5, with weights 0.1, 0.2 and 0.3. *)
Definition unit_edges : list float := [0%float; 1%float].
Definition tenth : float := 0x1.999999999999ap-4%float.
Definition fifth : float := 0x1.999999999999ap-3%float.
Definition three_tenths : float := 0x1.3333333333333p-2%float.

Definition weighted (w : float) : myTH1 :=
  {| _binning := unit_edges; _sumw := [w] |}.

(** Three histograms of counts over the edges [0, 1, 2, 3]. *)
Definition four_edges : list float := [0%float; 1%float; 2%float; 3%float].

Definition counted (cs : list Z) : myTH1 :=
  {| _binning := four_edges; _sumw := map of_count cs |}.

(** The values of the numeric scenario. *)
Definition scenario_values : list float := [-1; 0.5; 1.5; 1.5; 3.5]%float.

(** A store with one binning array and two filled histograms that share it,
    as the histograms of cell 8 share theirs. *)
Definition two_histograms : Heap.heap :=
  {| Heap.arrays := [four_edges; [1; 2; 0]%float; [0; 1; 1]%float];
     Heap.objects := [{| Heap.attr_binning := 0; Heap.attr_sumw := 1 |};
                      {| Heap.attr_binning := 0; Heap.attr_sumw := 2 |}] |}.

(** Three tasks over integers: the task of chunk 2 raises, the others return
    their chunk. *)
Definition number_task (c : Z) : @Executor.Task Z Z :=
  {| Executor.chunk := c;
     Executor.func := fun x => if (x =? 2)%Z then Raise (ValueError "task failed")
                               else Ret x |}.

End Examples.

(** *** A chunk of five events *)

Module Samples.

Import Awkward.

(** A muon as its pt, its charge and its soft id; the sum of the two pts
    stands for the mass of a pair. *)
Definition muon : Type := (float * Z * Z)%type.

Definition muon_pt (m : muon) : float := fst (fst m).
Definition muon_charge (m : muon) : Z := snd (fst m).
Definition muon_softId (m : muon) : Z := snd m.

Definition pt_sum (p : muon * muon) : float :=
  PrimFloat.add (muon_pt (fst p)) (muon_pt (snd p)).

Definition five_events : jagged muon :=
  [ [(30%float, 1, 1); (20%float, -1, 1); (10%float, 1, 1)];
    [(5%float, 1, 1)];
    [];
    [(40%float, 1, 1); (25%float, -1, 0); (50%float, -1, 1); (1%float, 1, 1)];
    [(40%float, 1, 1); (25%float, -1, 1)] ]%Z.

End Samples.

(** ** Part III.  Facts about the embedding *)

(** *** float64 addition and order *)

Module Float64Facts.

Import Float64 Float64Repr.

(** Addition commutes, bit for bit. *)

Lemma SFadd_comm (x y : spec_float) : SF64add x y = SF64add y x.
Proof.
  unfold SF64add.
  destruct x as [sx|sx| |sx mx ex], y as [sy|sy| |sy my ey]; simpl;
    try reflexivity; try (destruct sx, sy; reflexivity).
  rewrite (Z.min_comm ey ex). f_equal. apply Z.add_comm.
Qed.

Lemma add_comm (x y : float) : PrimFloat.add x y = PrimFloat.add y x.
Proof. apply Prim2SF_inj. rewrite !add_spec. apply SFadd_comm. Qed.

(** Adding to 0.0 keeps the value; only -0.0 changes its sign. *)

Lemma add_zero_l (x : float) : same_value (PrimFloat.add PrimFloat.zero x) x.
Proof.
  unfold same_value.
  destruct (Prim2SF x) as [s|s| |s m e] eqn:E.
  - destruct s.
    + right. rewrite eqb_spec, add_spec, E. reflexivity.
    + left. apply Prim2SF_inj. rewrite add_spec, E. reflexivity.
  - left. apply Prim2SF_inj. rewrite add_spec, E. reflexivity.
  - left. apply Prim2SF_inj. rewrite add_spec, E. reflexivity.
  - left. apply Prim2SF_inj. rewrite add_spec, E. reflexivity.
Qed.

(** **** Integer counts add exactly below 2^53

    A positive integer [n] of [d <= 53] bits is the float of mantissa
    [n * 2^(53-d)] and exponent [d - 53].  Rounding [n * 2^k] at exponent [-k]
    lands on that float without losing a bit, whatever [k]; the sum of two
    such floats is rounded from such a pair. *)

Lemma iter_pos_nat {A} (f : A -> A) (p : positive) (x : A) :
  iter_pos f p x = Nat.iter (Pos.to_nat p) f x.
Proof.
  revert x. induction p as [p IH|p IH|]; intro x; cbn [iter_pos].
  - rewrite !IH, Pos2Nat.inj_xI.
    replace (S (2 * Pos.to_nat p)) with (Pos.to_nat p + S (Pos.to_nat p))%nat by lia.
    rewrite Nat.iter_add, Nat.iter_succ_r. reflexivity.
  - rewrite !IH, Pos2Nat.inj_xO.
    replace (2 * Pos.to_nat p)%nat with (Pos.to_nat p + Pos.to_nat p)%nat by lia.
    rewrite Nat.iter_add. reflexivity.
  - reflexivity.
Qed.

Lemma Pos_iter_xO (n p : positive) : Pos.iter xO n p = shl n (Pos.to_nat p).
Proof. unfold shl. rewrite Pos2Nat.inj_iter. reflexivity. Qed.

Lemma shl_shl n i j : shl (shl n i) j = shl n (j + i).
Proof. unfold shl. rewrite Nat.iter_add. reflexivity. Qed.

Lemma digits_shl n k :
  Z.pos (digits2_pos (shl n k)) = (Z.pos (digits2_pos n) + Z.of_nat k)%Z.
Proof.
  induction k as [|k IH].
  - simpl. lia.
  - change (shl n (S k)) with (xO (shl n k)). cbn [digits2_pos].
    rewrite Pos2Z.inj_succ, IH. lia.
Qed.

Lemma shl_plus a b k : (shl a k + shl b k)%positive = shl (a + b) k.
Proof.
  induction k as [|k IH]; [reflexivity|].
  change (shl ?x (S k)) with (xO (shl x k)). simpl. now rewrite IH.
Qed.

Lemma shr_shl n i j :
  Nat.iter j shr_1 (Build_shr_record (Z.pos (shl n (j + i))) false false)
  = Build_shr_record (Z.pos (shl n i)) false false.
Proof.
  induction j as [|j IH]; [reflexivity|].
  rewrite Nat.iter_succ_r. exact IH.
Qed.

Lemma digits_size n : digits2_pos n = Pos.size n.
Proof. induction n; simpl; congruence. Qed.

Lemma digits_bound n : (Z.pos n < 2 ^ 53)%Z -> (Z.pos (digits2_pos n) <= 53)%Z.
Proof.
  intros H. rewrite digits_size.
  destruct (Z_le_gt_dec (Z.pos (Pos.size n)) 53) as [L|G]; [exact L|exfalso].
  pose proof (Pos.size_le n) as S.
  assert (P : (2 ^ 54 <= 2 ^ Z.pos (Pos.size n))%Z) by (apply Z.pow_le_mono_r; lia).
  assert (Q : (Z.pos (2 ^ Pos.size n) <= Z.pos n~0)%Z) by (apply Pos2Z.pos_le_pos; exact S).
  rewrite Pos2Z.inj_pow in Q. change (Z.pos 2) with 2%Z in Q.
  rewrite Pos2Z.inj_xO in Q. lia.
Qed.

Lemma round_aux_exact n j :
  let d := Z.pos (digits2_pos n) in
  let i := Z.to_nat (53 - d) in
  (d <= 53)%Z ->
  binary_round_aux prec emax false (Z.pos (shl n (j + i))) (d - 53 - Z.of_nat j) loc_Exact
  = S754_finite false (shl n i) (d - 53).
Proof.
  intros d i Hd.
  assert (Hdi : (d + Z.of_nat i = 53)%Z) by (unfold i; lia).
  unfold binary_round_aux, shr_fexp.
  cbn [Zdigits2]. rewrite digits_shl. fold d.
  replace (fexp prec emax (d + Z.of_nat (j + i) + (d - 53 - Z.of_nat j))
           - (d - 53 - Z.of_nat j))%Z with (Z.of_nat j)
    by (unfold fexp, SpecFloat.emin, prec, emax; lia).
  assert (Hshr : shr (shr_record_of_loc (Z.pos (shl n (j + i))) loc_Exact)
                   (d - 53 - Z.of_nat j) (Z.of_nat j)
                 = (Build_shr_record (Z.pos (shl n i)) false false, (d - 53)%Z)).
  { destruct j as [|j].
    - simpl. f_equal. lia.
    - unfold shr. cbn [Z.of_nat]. rewrite iter_pos_nat, SuccNat2Pos.id_succ.
      cbn [shr_record_of_loc]. rewrite shr_shl. f_equal. lia. }
  rewrite Hshr. cbn [shr_m loc_of_shr_record round_nearest_even Zdigits2].
  rewrite digits_shl. fold d.
  replace (fexp prec emax (d + Z.of_nat i + (d - 53)) - (d - 53))%Z with 0%Z
    by (unfold fexp, SpecFloat.emin, prec, emax; lia).
  cbn [shr shr_record_of_loc shr_m].
  replace (d - 53 <=? emax - prec)%Z with true
    by (symmetry; apply Z.leb_le; unfold prec, emax; lia).
  reflexivity.
Qed.

Lemma round_shl n k :
  (Z.pos (digits2_pos n) <= 53)%Z ->
  binary_round prec emax false (shl n k) (- Z.of_nat k) = canon n.
Proof.
  intros Hd. unfold binary_round, canon.
  rewrite digits_shl.
  set (d := Z.pos (digits2_pos n)) in *.
  set (i := Z.to_nat (53 - d)).
  replace (fexp prec emax (d + Z.of_nat k + - Z.of_nat k)) with (d - 53)%Z
    by (unfold fexp, SpecFloat.emin, prec, emax; lia).
  unfold shl_align.
  destruct (d - 53 - - Z.of_nat k)%Z as [|p|p] eqn:E.
  - replace k with (0 + i)%nat by (unfold i; lia).
    replace (- Z.of_nat (0 + i))%Z with (d - 53 - Z.of_nat 0)%Z by (unfold i; lia).
    apply (round_aux_exact n 0 Hd).
  - replace k with ((k - i) + i)%nat at 1 by (unfold i; lia).
    replace (- Z.of_nat k)%Z with (d - 53 - Z.of_nat (k - i))%Z by (unfold i; lia).
    apply (round_aux_exact n (k - i) Hd).
  - rewrite Pos_iter_xO, shl_shl.
    replace (Pos.to_nat p + k)%nat with (0 + i)%nat by (unfold i; lia).
    replace (d - 53)%Z with (d - 53 - Z.of_nat 0)%Z at 1 by lia.
    apply (round_aux_exact n 0 Hd).
Qed.

Lemma canon_valid n :
  (Z.pos (digits2_pos n) <= 53)%Z -> valid_binary (canon n) = true.
Proof.
  intros Hd. unfold canon. cbn [SpecFloat.valid_binary]. unfold bounded, canonical_mantissa.
  rewrite digits_shl.
  apply andb_true_intro; split.
  - apply Z.eqb_eq. unfold fexp, SpecFloat.emin, prec, emax. lia.
  - apply Z.leb_le. unfold prec, emax. lia.
Qed.

Lemma SFadd_canon a b :
  (Z.pos (a + b) < 2 ^ 53)%Z ->
  SF64add (canon a) (canon b) = canon (a + b).
Proof.
  intros H.
  assert (Ha : (Z.pos (digits2_pos a) <= 53)%Z) by (apply digits_bound; lia).
  assert (Hb : (Z.pos (digits2_pos b) <= 53)%Z) by (apply digits_bound; lia).
  assert (Hab : (Z.pos (digits2_pos (a + b)) <= 53)%Z) by (apply digits_bound; lia).
  unfold SF64add, canon at 1 2. cbn [SFadd cond_Zopp].
  set (da := Z.pos (digits2_pos a)) in *. set (db := Z.pos (digits2_pos b)) in *.
  set (ez := Z.min (da - 53) (db - 53)).
  assert (Hsh : forall n, let d := Z.pos (digits2_pos n) in (d <= 53)%Z -> (ez <= d - 53)%Z ->
            fst (shl_align (shl n (Z.to_nat (53 - d))) (d - 53) ez)
            = shl n (Z.to_nat (- ez))).
  { intros n d Hd Hle. unfold shl_align.
    destruct (ez - (d - 53))%Z as [|p|p] eqn:E; cbn [fst].
    - f_equal. lia.
    - lia.
    - rewrite Pos_iter_xO, shl_shl. f_equal. lia. }
  assert (Ea := Hsh a Ha (Z.le_min_l _ _)). assert (Eb := Hsh b Hb (Z.le_min_r _ _)).
  fold da in Ea. fold db in Eb. rewrite Ea, Eb.
  rewrite <- Pos2Z.inj_add, shl_plus. cbn [binary_normalize].
  replace ez with (- Z.of_nat (Z.to_nat (- ez)))%Z at 2 by (unfold ez; lia).
  apply round_shl. exact Hab.
Qed.

Lemma Prim2SF_of_count_pos n :
  (Z.pos n < 2 ^ 53)%Z -> Prim2SF (of_count (Z.pos n)) = canon n.
Proof.
  intros H. unfold of_count. cbn [binary_normalize].
  change (binary_round prec emax false n 0)
    with (binary_round prec emax false (shl n 0) (- Z.of_nat 0)).
  rewrite round_shl by (apply digits_bound; exact H).
  apply Prim2SF_SF2Prim, canon_valid, digits_bound, H.
Qed.

Lemma of_count_add (a b : Z) :
  (0 <= a)%Z -> (0 <= b)%Z -> (a + b < 2 ^ 53)%Z ->
  PrimFloat.add (of_count a) (of_count b) = of_count (a + b).
Proof.
  intros Ha Hb Hab. apply Prim2SF_inj. rewrite add_spec.
  destruct a as [|a|a]; [|destruct b as [|b|b]|]; try lia.
  - cbn [Z.add]. change (Prim2SF (of_count 0)) with (S754_zero false).
    destruct b as [|b|b]; try lia; [reflexivity|].
    rewrite Prim2SF_of_count_pos by lia. reflexivity.
  - rewrite Z.add_0_r. change (Prim2SF (of_count 0)) with (S754_zero false).
    rewrite Prim2SF_of_count_pos by lia. reflexivity.
  - rewrite <- Pos2Z.inj_add. rewrite !Prim2SF_of_count_pos by lia.
    apply SFadd_canon. lia.
Qed.

Lemma zero_add_count (c : Z) :
  (0 <= c < 2 ^ 53)%Z -> PrimFloat.add PrimFloat.zero (of_count c) = of_count c.
Proof.
  intros H. change PrimFloat.zero with (of_count 0).
  rewrite of_count_add by lia. reflexivity.
Qed.

(** **** The order of floats, read off a key

    A number is a sign class, then exponent and mantissa; comparisons of
    floats are lexicographic comparisons of keys, where [lia] decides. *)

Lemma SFcompare_key x y :
  SFnum x = true -> SFnum y = true ->
  match SFcompare x y with
  | Some Lt => klt (SFkey x) (SFkey y)
  | Some Eq => SFkey x = SFkey y
  | Some Gt => klt (SFkey y) (SFkey x)
  | None => False
  end.
Proof.
  destruct x as [sx|sx| |sx mx ex], y as [sy|sy| |sy my ey]; cbn [SFnum]; try discriminate;
    intros _ _; cbn [SFcompare SFkey];
    try (destruct sx; try destruct sy; cbn; first [reflexivity | lia]).
  destruct sx, sy; cbn [klt]; try lia.
  - destruct (Z.compare_spec ex ey); try lia.
    subst. fold (Pos.compare mx my).
    destruct (Pos.compare_spec mx my); cbn [CompOpp]; subst; try reflexivity; lia.
  - destruct (Z.compare_spec ex ey); try lia.
    subst. fold (Pos.compare mx my).
    destruct (Pos.compare_spec mx my); subst; try reflexivity; lia.
Qed.

Lemma is_num_spec x : is_num x = SFnum (Prim2SF x).
Proof.
  unfold is_num. rewrite eqb_spec. unfold SFeqb.
  destruct (Prim2SF x) as [s|s| |s m e] eqn:E; cbn [SFnum]; try reflexivity.
  - destruct s; reflexivity.
  - pose proof (SFcompare_key (S754_finite s m e) (S754_finite s m e) eq_refl eq_refl) as K.
    destruct (SFcompare _ _) as [[| |]|]; try reflexivity; exfalso.
    + destruct s; cbn in K; lia.
    + destruct s; cbn in K; lia.
    + exact K.
Qed.

Ltac not_a_number x y :=
  destruct (SFnum (Prim2SF x)) eqn:?;
  [ destruct (SFnum (Prim2SF y)) eqn:?;
    [ | destruct (Prim2SF y); try discriminate; destruct (Prim2SF x); cbn;
        (split; [discriminate | intros (_ & ? & _); discriminate]) ]
  | destruct (Prim2SF x); try discriminate; cbn;
    (split; [discriminate | intros [? _]; discriminate]) ].

Lemma ltb_iff x y :
  PrimFloat.ltb x y = true <-> is_num x = true /\ is_num y = true /\ klt (fkey x) (fkey y).
Proof.
  rewrite ltb_spec, !is_num_spec. unfold SFltb, fkey.
  not_a_number x y.
  pose proof (SFcompare_key (Prim2SF x) (Prim2SF y) ltac:(assumption) ltac:(assumption)) as K.
  destruct (SFkey (Prim2SF x)) as [[a1 a2] a3], (SFkey (Prim2SF y)) as [[b1 b2] b3].
  destruct (SFcompare _ _) as [[| |]|]; cbn [klt] in *.
  - split; [discriminate|]. intros (_ & _ & H). inversion K; subst. lia.
  - tauto.
  - split; [discriminate|]. intros (_ & _ & H). lia.
  - contradiction.
Qed.

Lemma leb_iff x y :
  PrimFloat.leb x y = true <-> is_num x = true /\ is_num y = true /\ kle (fkey x) (fkey y).
Proof.
  rewrite leb_spec, !is_num_spec. unfold SFleb, fkey, kle.
  not_a_number x y.
  pose proof (SFcompare_key (Prim2SF x) (Prim2SF y) ltac:(assumption) ltac:(assumption)) as K.
  destruct (SFkey (Prim2SF x)) as [[a1 a2] a3], (SFkey (Prim2SF y)) as [[b1 b2] b3].
  destruct (SFcompare _ _) as [[| |]|]; cbn [klt] in *.
  - tauto.
  - tauto.
  - split; [discriminate|]. intros (_ & _ & [H|H]); [lia|inversion H; lia].
  - contradiction.
Qed.

Lemma eqb_iff x y :
  PrimFloat.eqb x y = true <-> is_num x = true /\ is_num y = true /\ fkey x = fkey y.
Proof.
  rewrite eqb_spec, !is_num_spec. unfold SFeqb, fkey.
  not_a_number x y.
  pose proof (SFcompare_key (Prim2SF x) (Prim2SF y) ltac:(assumption) ltac:(assumption)) as K.
  destruct (SFkey (Prim2SF x)) as [[a1 a2] a3], (SFkey (Prim2SF y)) as [[b1 b2] b3].
  destruct (SFcompare _ _) as [[| |]|]; cbn [klt] in *.
  - tauto.
  - split; [discriminate|]. intros (_ & _ & H). inversion H; lia.
  - split; [discriminate|]. intros (_ & _ & H). inversion H; lia.
  - contradiction.
Qed.

Ltac korder :=
  repeat match goal with
  | H : _ /\ _ |- _ => destruct H
  | k : key |- _ => destruct k as [[? ?] ?]
  end;
  unfold kle, klt in *;
  repeat match goal with
  | H : (_, _, _) = (_, _, _) |- _ => inversion H; clear H; subst
  | H : _ \/ (_, _, _) = (_, _, _) |- _ => destruct H
  end;
  try lia.

Lemma klt_total a b : klt a b \/ kle b a.
Proof.
  destruct a as [[a1 a2] a3], b as [[b1 b2] b3]. unfold kle, klt.
  destruct (Z.lt_total a1 b1) as [?|[?|?]]; [lia| |lia].
  destruct (Z.lt_total a2 b2) as [?|[?|?]]; [lia| |lia].
  destruct (Z.lt_total a3 b3) as [?|[?|?]]; [lia| |lia].
  subst. right. right. reflexivity.
Qed.

Lemma eqb_sym x y : PrimFloat.eqb x y = PrimFloat.eqb y x.
Proof.
  destruct (PrimFloat.eqb x y) eqn:E, (PrimFloat.eqb y x) eqn:F; try reflexivity.
  - apply eqb_iff in E. destruct E as (? & ? & K).
    assert (G : PrimFloat.eqb y x = true) by (apply eqb_iff; auto). congruence.
  - apply eqb_iff in F. destruct F as (? & ? & K).
    assert (G : PrimFloat.eqb x y = true) by (apply eqb_iff; auto). congruence.
Qed.

Lemma eqb_trans x y z :
  PrimFloat.eqb x y = true -> PrimFloat.eqb y z = true -> PrimFloat.eqb x z = true.
Proof.
  rewrite !eqb_iff. intros (? & ? & K1) (? & ? & K2). repeat split; congruence.
Qed.

Lemma ltb_num_l v e : PrimFloat.ltb v e = true -> is_num v = true.
Proof. rewrite ltb_iff. tauto. Qed.

Lemma leb_num_l v e : PrimFloat.leb v e = true -> is_num v = true.
Proof. rewrite leb_iff. tauto. Qed.

Lemma leb_num_r v e : PrimFloat.leb v e = true -> is_num e = true.
Proof. rewrite leb_iff. tauto. Qed.

(** Among numbers, [not (v < e)] is [e <= v]. *)
Lemma not_ltb v e :
  is_num v = true -> is_num e = true ->
  negb (PrimFloat.ltb v e) = PrimFloat.leb e v.
Proof.
  intros Nv Ne.
  destruct (PrimFloat.ltb v e) eqn:L, (PrimFloat.leb e v) eqn:G; try reflexivity; exfalso.
  - apply ltb_iff in L. apply leb_iff in G.
    destruct L as (_ & _ & L), G as (_ & _ & G).
    destruct (fkey v) as [[? ?] ?], (fkey e) as [[? ?] ?]. korder.
  - destruct (klt_total (fkey v) (fkey e)) as [K|K].
    + assert (T : PrimFloat.ltb v e = true) by (apply ltb_iff; auto). congruence.
    + assert (T : PrimFloat.leb e v = true) by (apply leb_iff; auto). congruence.
Qed.

Lemma ltb_leb_trans v a b :
  PrimFloat.ltb v a = true -> PrimFloat.leb a b = true -> PrimFloat.ltb v b = true.
Proof.
  rewrite !ltb_iff, leb_iff. intros (? & ? & K1) (? & ? & K2). repeat split; auto.
  destruct (fkey v) as [[? ?] ?], (fkey a) as [[? ?] ?], (fkey b) as [[? ?] ?]. korder.
Qed.

Lemma leb_ltb_trans v a b :
  PrimFloat.leb v a = true -> PrimFloat.ltb a b = true -> PrimFloat.ltb v b = true.
Proof.
  rewrite !ltb_iff, leb_iff. intros (? & ? & K1) (? & ? & K2). repeat split; auto.
  destruct (fkey v) as [[? ?] ?], (fkey a) as [[? ?] ?], (fkey b) as [[? ?] ?]. korder.
Qed.

Lemma leb_trans v a b :
  PrimFloat.leb v a = true -> PrimFloat.leb a b = true -> PrimFloat.leb v b = true.
Proof.
  rewrite !leb_iff. intros (? & ? & K1) (? & ? & K2). repeat split; auto.
  destruct (fkey v) as [[? ?] ?], (fkey a) as [[? ?] ?], (fkey b) as [[? ?] ?]. korder.
  right. reflexivity.
Qed.

Lemma ltb_leb v e : PrimFloat.ltb v e = true -> PrimFloat.leb v e = true.
Proof.
  rewrite ltb_iff, leb_iff. intros (? & ? & K). repeat split; auto. left. exact K.
Qed.

Lemma leb_refl v : is_num v = true -> PrimFloat.leb v v = true.
Proof. intros N. apply leb_iff. repeat split; auto. right. reflexivity. Qed.

(** **** int64 addition *)

Lemma add64_comm x y : add64 x y = add64 y x.
Proof. unfold add64. now rewrite Z.add_comm. Qed.

Lemma add64_assoc x y z : add64 (add64 x y) z = add64 x (add64 y z).
Proof.
  unfold add64, wrap64.
  replace ((x + y + 2 ^ 63) mod 2 ^ 64 - 2 ^ 63 + z + 2 ^ 63)%Z
    with ((x + y + 2 ^ 63) mod 2 ^ 64 + z)%Z by lia.
  replace (x + ((y + z + 2 ^ 63) mod 2 ^ 64 - 2 ^ 63) + 2 ^ 63)%Z
    with (x + (y + z + 2 ^ 63) mod 2 ^ 64)%Z by lia.
  rewrite Zplus_mod_idemp_l, Zplus_mod_idemp_r.
  do 2 f_equal. lia.
Qed.

End Float64Facts.

(** *** Arrays, element by element *)

Module NumpyFacts.

Import Float64 Float64Repr Float64Facts Numpy.

Lemma zip_with_length {A B C} (f : A -> B -> C) a b :
  length (zip_with f a b) = Nat.min (length a) (length b).
Proof. unfold zip_with. now rewrite length_map, length_combine. Qed.

Lemma zip_with_cons {A B C} (f : A -> B -> C) x a y b :
  zip_with f (x :: a) (y :: b) = f x y :: zip_with f a b.
Proof. reflexivity. Qed.

Lemma zip_with_comm {A C} (f : A -> A -> C) a b :
  (forall x y, f x y = f y x) -> zip_with f a b = zip_with f b a.
Proof.
  intros Hf. revert b. induction a as [|x a IH]; intros [|y b]; try reflexivity.
  rewrite !zip_with_cons, Hf, IH. reflexivity.
Qed.

Lemma zip_with_assoc {A} (f : A -> A -> A) a b c :
  (forall x y z, f (f x y) z = f x (f y z)) ->
  zip_with f (zip_with f a b) c = zip_with f a (zip_with f b c).
Proof.
  intros Hf. revert b c.
  induction a as [|x a IH]; intros [|y b] [|z c]; try reflexivity.
  rewrite !zip_with_cons, Hf, IH. reflexivity.
Qed.

Lemma broadcast_same {A} (f : A -> A -> A) a b :
  length a = length b -> broadcast f a b = Ret (zip_with f a b).
Proof. intros E. unfold broadcast. rewrite E, Nat.eqb_refl. reflexivity. Qed.

(** A commutative operator stays commutative under broadcasting, errors
    included. *)
Lemma broadcast_comm {A} (f : A -> A -> A) a b :
  (forall x y, f x y = f y x) -> broadcast f a b = broadcast f b a.
Proof.
  intros Hf. unfold broadcast. rewrite (Nat.eqb_sym (length b)).
  destruct (Nat.eqb (length a) (length b)) eqn:E.
  - now rewrite (zip_with_comm f a b Hf).
  - apply Nat.eqb_neq in E.
    destruct a as [|x [|x' a]], b as [|y [|y' b]]; cbn [length] in E; try lia;
      cbv beta iota; try reflexivity; f_equal; apply map_ext; intros; apply Hf.
Qed.

(** [np.array_equal] holds exactly of arrays of one shape whose elements are
    [==] pairwise. *)
Lemma np_array_equal_iff a b :
  np_array_equal a b = true <-> Forall2 (fun x y => PrimFloat.eqb x y = true) a b.
Proof.
  unfold np_array_equal, np_all_eq. split.
  - destruct (Nat.eqb (length a) (length b)) eqn:E; cbn [negb]; [|discriminate].
    apply Nat.eqb_eq in E. revert b E.
    induction a as [|x a IH]; intros [|y b] E; try discriminate; intros H.
    + constructor.
    + rewrite zip_with_cons in H. cbn [forallb] in H.
      apply andb_true_iff in H. destruct H as [H1 H2].
      constructor; [exact H1|]. apply IH; [now injection E|exact H2].
  - intros H. rewrite (Forall2_length H), Nat.eqb_refl. cbn [negb].
    induction H as [|x y a b Hxy _ IH]; [reflexivity|].
    rewrite zip_with_cons. cbn [forallb]. now rewrite Hxy, IH.
Qed.

Lemma np_array_equal_length a b :
  np_array_equal a b = true -> length a = length b.
Proof. intros H. apply np_array_equal_iff in H. exact (Forall2_length H). Qed.

Lemma np_array_equal_sym a b : np_array_equal a b = np_array_equal b a.
Proof.
  assert (S : forall a b, np_array_equal a b = true -> np_array_equal b a = true).
  { intros u v H. apply np_array_equal_iff in H. apply np_array_equal_iff.
    induction H; constructor; auto. now rewrite eqb_sym. }
  destruct (np_array_equal a b) eqn:E, (np_array_equal b a) eqn:F; try reflexivity.
  - apply S in E. congruence.
  - apply S in F. congruence.
Qed.

Lemma np_array_equal_trans a b c :
  np_array_equal a b = true -> np_array_equal b c = true -> np_array_equal a c = true.
Proof.
  rewrite !np_array_equal_iff. intros H. revert c.
  induction H as [|x y a b Hxy _ IH]; intros c Hc; inversion Hc; subst; constructor.
  - eapply eqb_trans; eauto.
  - apply IH. assumption.
Qed.

(** An array equals itself unless it holds a NaN. *)
Lemma np_array_equal_refl a :
  forallb is_num a = true -> np_array_equal a a = true.
Proof.
  intros H. apply np_array_equal_iff.
  induction a as [|x a IH]; constructor; cbn [forallb] in H;
    apply andb_true_iff in H; destruct H as [H1 H2]; auto.
Qed.

Lemma np_all_eq_array_equal a b :
  Nat.eqb (length a) (length b) && np_all_eq a b = np_array_equal a b.
Proof.
  unfold np_array_equal. destruct (Nat.eqb (length a) (length b)); reflexivity.
Qed.

Lemma np_zeros_ok n :
  np_zeros (Z.of_nat (S n) - 1) = Ret (repeat PrimFloat.zero n).
Proof.
  unfold np_zeros.
  destruct (Z.ltb_spec (Z.of_nat (S n) - 1) 0); [lia|].
  do 2 f_equal. lia.
Qed.

(** **** Counting *)

Lemma count_if_app p a b : count_if p (a ++ b) = (count_if p a + count_if p b)%Z.
Proof. unfold count_if. rewrite filter_app, length_app. lia. Qed.

Lemma count_if_perm p a b : Permutation a b -> count_if p a = count_if p b.
Proof.
  intros H. unfold count_if. f_equal. apply Permutation_length.
  induction H; cbn [filter].
  - constructor.
  - destruct (p x); auto.
  - destruct (p x), (p y); auto. constructor.
  - eapply perm_trans; eauto.
Qed.

Lemma count_if_ext p q a :
  (forall v, p v = q v) -> count_if p a = count_if q a.
Proof. intros H. unfold count_if. now rewrite (filter_ext _ _ H). Qed.

Lemma count_if_range p a : (0 <= count_if p a <= Z.of_nat (length a))%Z.
Proof.
  unfold count_if. pose proof (filter_length_le p a). lia.
Qed.

(** The values counted by [q] and not by [p], when [q] counts all of [p]'s. *)
Lemma count_if_sub p q a :
  (forall v, p v = true -> q v = true) ->
  (count_if q a - count_if p a)%Z = count_if (fun v => q v && negb (p v)) a.
Proof.
  intros H. unfold count_if. induction a as [|v a IH]; [reflexivity|].
  cbn [filter]. specialize (H v).
  destruct (p v) eqn:P, (q v) eqn:Q; cbn [andb negb length];
    first [lia | discriminate (H eq_refl)].
Qed.

Lemma np_diff_length c : length (np_diff c) = length c - 1.
Proof.
  induction c as [|x t IH]; [reflexivity|].
  destruct t as [|y t']; [reflexivity|].
  cbn [np_diff length] in *. lia.
Qed.

Lemma searches_length edges : length (searches edges) = length edges.
Proof.
  induction edges as [|e t IH]; [reflexivity|].
  destruct t as [|e' t']; [reflexivity|].
  cbn [searches length] in *. lia.
Qed.

(** [np.diff] of the searches is one difference per bin. *)
Lemma np_diff_searches (g : (float -> bool) -> Z) ps :
  np_diff (map g ps) = map (fun pq => (g (snd pq) - g (fst pq))%Z) (combine ps (tl ps)).
Proof.
  induction ps as [|p t IH]; [reflexivity|].
  destruct t as [|q t']; [reflexivity|].
  cbn [map np_diff tl combine fst snd] in *. f_equal. exact IH.
Qed.

End NumpyFacts.

(** *** What [np.histogram] counts *)

Module HistogramFacts.

Import Float64 Float64Repr Float64Facts Numpy NumpyFacts Properties.

Lemma np_histogram_counts a edges :
  any_decreasing edges = false ->
  np_histogram a edges None = Ret (Int64 (hist_counts a edges), edges).
Proof. intros H. unfold np_histogram. rewrite H. reflexivity. Qed.

Lemma hist_counts_length a edges : length (hist_counts a edges) = length edges - 1.
Proof.
  unfold hist_counts, search_sorted_inclusive.
  now rewrite np_diff_length, length_map, searches_length.
Qed.

Lemma hist_counts_pairs a edges :
  hist_counts a edges
  = map (fun pq => (count_if (snd pq) a - count_if (fst pq) a)%Z)
      (combine (searches edges) (tl (searches edges))).
Proof.
  unfold hist_counts, search_sorted_inclusive.
  apply (np_diff_searches (fun p => count_if p a)).
Qed.

Lemma zip_with_map {A B C D} (f : B -> C -> D) (g1 : A -> B) (g2 : A -> C) l :
  zip_with f (map g1 l) (map g2 l) = map (fun x => f (g1 x) (g2 x)) l.
Proof.
  induction l as [|x l IH]; [reflexivity|].
  cbn [map]. rewrite zip_with_cons, IH. reflexivity.
Qed.

(** Counts add up over concatenation, bin by bin ... *)
Lemma hist_counts_app a b edges :
  hist_counts (a ++ b) edges = zip_with Z.add (hist_counts a edges) (hist_counts b edges).
Proof.
  rewrite !hist_counts_pairs, zip_with_map.
  apply map_ext. intros [p q]. cbn [fst snd]. rewrite !count_if_app. lia.
Qed.

(** ... and do not see the order of the values. *)
Lemma hist_counts_perm a b edges :
  Permutation a b -> hist_counts a edges = hist_counts b edges.
Proof.
  intros H. rewrite !hist_counts_pairs.
  apply map_ext. intros [p q]. cbn [fst snd].
  now rewrite (count_if_perm p a b H), (count_if_perm q a b H).
Qed.

Lemma hist_counts_nil edges :
  hist_counts [] edges = repeat 0%Z (length edges - 1).
Proof.
  rewrite hist_counts_pairs.
  rewrite <- (searches_length edges).
  induction (searches edges) as [|p t IH]; [reflexivity|].
  destruct t as [|q t']; [reflexivity|].
  cbn [tl combine map length repeat Nat.sub] in *.
  rewrite Nat.sub_0_r in IH. f_equal. exact IH.
Qed.

Lemma valid_edges_cons e t :
  valid_edges (e :: t) = true ->
  is_num e = true /\ valid_edges t = true.
Proof.
  unfold valid_edges. cbn [forallb any_decreasing].
  rewrite !andb_true_iff, !negb_true_iff. intros [[N F] D].
  destruct t as [|e' t']; [repeat split; auto|].
  apply orb_false_iff in D. destruct D as [_ D].
  repeat split; auto.
Qed.

Lemma valid_edges_step lo hi t :
  valid_edges (lo :: hi :: t) = true -> PrimFloat.leb lo hi = true.
Proof.
  intros V. destruct (valid_edges_cons _ _ V) as [Nlo V'].
  destruct (valid_edges_cons _ _ V') as [Nhi _].
  unfold valid_edges in V. cbn [forallb any_decreasing] in V.
  rewrite !andb_true_iff, negb_true_iff, orb_false_iff in V.
  destruct V as [_ [D _]].
  rewrite <- (not_ltb hi lo Nhi Nlo), D. reflexivity.
Qed.

(** The difference of two searches counts one documented bin. *)
Lemma hist_counts_cons a lo hi t :
  valid_edges (lo :: hi :: t) = true ->
  hist_counts a (lo :: hi :: t)
  = count_if (fun v => PrimFloat.leb lo v &&
                       match t with
                       | [] => PrimFloat.leb v hi
                       | _ :: _ => PrimFloat.ltb v hi
                       end) a
    :: hist_counts a (hi :: t).
Proof.
  intros V.
  pose proof (valid_edges_step _ _ _ V) as Hle.
  destruct (valid_edges_cons _ _ V) as [Nlo V'].
  destruct (valid_edges_cons _ _ V') as [Nhi _].
  unfold hist_counts, search_sorted_inclusive.
  change (searches (lo :: hi :: t)) with (sort_lt lo :: searches (hi :: t)).
  set (q := match t with
            | [] => sort_le hi
            | _ :: _ => sort_lt hi
            end).
  assert (S : searches (hi :: t) = q :: tl (searches (hi :: t))).
  { unfold q. destruct t; reflexivity. }
  rewrite S. cbn [map np_diff]. f_equal.
  assert (Q : forall v, q v = match t with
                              | [] => PrimFloat.leb v hi
                              | _ :: _ => PrimFloat.ltb v hi
                              end).
  { intros v. unfold q, sort_le, sort_lt. destruct t; rewrite Nhi; reflexivity. }
  rewrite count_if_sub.
  - apply count_if_ext. intros v. rewrite Q. unfold sort_lt. rewrite Nlo.
    destruct (match t with
              | [] => PrimFloat.leb v hi
              | _ :: _ => PrimFloat.ltb v hi
              end) eqn:E.
    + assert (Nv : is_num v = true).
      { destruct t; [eapply leb_num_l|eapply ltb_num_l]; exact E. }
      rewrite (not_ltb v lo Nv Nlo). now rewrite andb_true_r.
    + now rewrite andb_false_r.
  - intros v. unfold sort_lt. rewrite Nlo, Q. intros L.
    pose proof (ltb_leb_trans v lo hi L Hle) as L'.
    destruct t; [apply ltb_leb|]; exact L'.
Qed.

(** On valid edges, [np.histogram] counts the documented bins. *)
Lemma hist_counts_doc a edges :
  valid_edges edges = true ->
  hist_counts a edges = map (fun b => count_if b a) (doc_bins edges).
Proof.
  induction edges as [|lo t IH]; [reflexivity|].
  destruct t as [|hi t']; [reflexivity|].
  intros V. rewrite (hist_counts_cons a lo hi t' V).
  cbn [doc_bins map]. f_equal.
  apply IH. apply (valid_edges_cons _ _ V).
Qed.

Lemma hist_counts_range a edges :
  valid_edges edges = true ->
  Forall (fun c => 0 <= c <= Z.of_nat (length a))%Z (hist_counts a edges).
Proof.
  intros V. rewrite (hist_counts_doc a edges V).
  apply Forall_forall. intros c Hc. apply in_map_iff in Hc.
  destruct Hc as (b & <- & _). apply count_if_range.
Qed.

(** A value below the first edge is in no bin. *)
Lemma doc_bins_below v edges lo :
  valid_edges (lo :: edges) = true -> PrimFloat.ltb v lo = true ->
  Forall (fun b => b v = false) (doc_bins (lo :: edges)).
Proof.
  revert lo. induction edges as [|hi t IH]; intros lo V L; [constructor|].
  cbn [doc_bins]. constructor.
  - destruct (valid_edges_cons _ _ V) as [Nlo _].
    rewrite <- (not_ltb v lo (ltb_num_l _ _ L) Nlo), L. reflexivity.
  - apply IH; [apply (valid_edges_cons _ _ V)|].
    exact (ltb_leb_trans v lo hi L (valid_edges_step _ _ _ V)).
Qed.

(** A value is in at most one bin. *)
Lemma doc_bins_unique v edges :
  valid_edges edges = true ->
  forall i j bi bj,
    nth_error (doc_bins edges) i = Some bi -> bi v = true ->
    nth_error (doc_bins edges) j = Some bj -> bj v = true ->
    i = j.
Proof.
  induction edges as [|lo t IH]; intros V i j bi bj Hi Bi Hj Bj.
  - destruct i; discriminate.
  - destruct t as [|hi t']; [destruct i; discriminate|].
    pose proof (proj2 (valid_edges_cons _ _ V)) as V'.
    assert (Below : forall k b, nth_error (doc_bins (lo :: hi :: t')) 0 = Some b ->
              b v = true -> forall b', nth_error (doc_bins (hi :: t')) k = Some b' ->
              b' v = false).
    { intros k b Hb Bv b' Hb'. cbn [doc_bins nth_error] in Hb.
      injection Hb as <-. apply andb_true_iff in Bv. destruct Bv as [_ Bv].
      destruct t' as [|e t'']; [destruct k; discriminate|].
      pose proof (doc_bins_below v (e :: t'') hi V' Bv) as F.
      rewrite Forall_forall in F. apply F. eapply nth_error_In; eauto. }
    destruct i as [|i], j as [|j]; [reflexivity| | |].
    + cbn [doc_bins nth_error] in Hj.
      rewrite (Below j bi Hi Bi bj Hj) in Bj. discriminate.
    + cbn [doc_bins nth_error] in Hi.
      rewrite (Below i bj Hj Bj bi Hi) in Bi. discriminate.
    + f_equal. cbn [doc_bins nth_error] in Hi, Hj.
      exact (IH V' i j bi bj Hi Bi Hj Bj).
Qed.

Lemma last_default {A} (x : A) t d d' : last (x :: t) d = last (x :: t) d'.
Proof.
  revert x. induction t as [|y t IH]; intros x; [reflexivity|].
  change (last (y :: t) d = last (y :: t) d'). apply IH.
Qed.

(** The first edge is below the last one. *)
Lemma valid_edges_last lo edges :
  valid_edges (lo :: edges) = true ->
  PrimFloat.leb lo (last (lo :: edges) lo) = true.
Proof.
  revert lo. induction edges as [|hi t IH]; intros lo V.
  - apply leb_refl. apply (valid_edges_cons _ _ V).
  - change (last (lo :: hi :: t) lo) with (last (hi :: t) lo).
    rewrite (last_default hi t lo hi).
    eapply leb_trans; [exact (valid_edges_step _ _ _ V)|].
    apply IH. apply (valid_edges_cons _ _ V).
Qed.

(** A value above the last edge is in no bin, and neither is NaN. *)
Lemma doc_bins_above v edges lo :
  valid_edges (lo :: edges) = true ->
  PrimFloat.ltb (last (lo :: edges) lo) v = true ->
  Forall (fun b => b v = false) (doc_bins (lo :: edges)).
Proof.
  revert lo. induction edges as [|hi t IH]; intros lo V L; [constructor|].
  pose proof (proj2 (valid_edges_cons _ _ V)) as V'.
  change (last (lo :: hi :: t) lo) with (last (hi :: t) lo) in L.
  rewrite (last_default hi t lo hi) in L.
  cbn [doc_bins]. constructor.
  - pose proof (leb_ltb_trans _ _ _ (valid_edges_last hi t V') L) as Lhi.
    assert (Nv : is_num v = true) by (apply ltb_iff in L; tauto).
    assert (Nh : is_num hi = true) by (apply (valid_edges_cons _ _ V')).
    assert (G : PrimFloat.leb v hi = false).
    { rewrite <- (not_ltb hi v Nh Nv), Lhi. reflexivity. }
    assert (G' : PrimFloat.ltb v hi = false).
    { destruct (PrimFloat.ltb v hi) eqn:E; [|reflexivity].
      apply ltb_leb in E. congruence. }
    destruct t; [rewrite G|rewrite G']; apply andb_false_r.
  - apply IH; assumption.
Qed.

Lemma doc_bins_nan v edges :
  is_num v = false -> Forall (fun b => b v = false) (doc_bins edges).
Proof.
  intros N. induction edges as [|lo t IH]; [constructor|].
  destruct t as [|hi t']; [constructor|].
  cbn [doc_bins]. constructor; [|exact IH].
  destruct (PrimFloat.leb lo v) eqn:E; [|reflexivity].
  apply leb_num_r in E. congruence.
Qed.

End HistogramFacts.

(** *** The class [myTH1], on values *)

Module NotebookFacts.

Import Float64 Float64Facts Numpy NumpyFacts Notebook Properties HistogramFacts.

Lemma init_cons e t :
  __init__ (e :: t) = Ret {| _binning := e :: t; _sumw := repeat PrimFloat.zero (length t) |}.
Proof.
  unfold __init__. cbn [length]. rewrite np_zeros_ok. reflexivity.
Qed.

Lemma init_nil :
  __init__ [] = Raise (ValueError "negative dimensions are not allowed").
Proof. reflexivity. Qed.

Lemma init_inv binning h :
  __init__ binning = Ret h ->
  _binning h = binning /\ wf h /\ _sumw h = repeat PrimFloat.zero (length binning - 1).
Proof.
  destruct binning as [|e t]; [discriminate|].
  rewrite init_cons. intros E. injection E as <-. unfold wf. cbn.
  rewrite repeat_length, Nat.sub_0_r. repeat split. lia.
Qed.

Lemma np_iadd_length a b s : np_iadd a b = Ret s -> length s = length a.
Proof.
  unfold np_iadd.
  destruct (Nat.eqb (length a) (length (as_float64 b))) eqn:E.
  - apply Nat.eqb_eq in E. intros H. injection H as <-.
    rewrite zip_with_length. lia.
  - destruct (as_float64 b) as [|y [|y' l]]; try discriminate.
    intros H. injection H as <-. apply length_map.
Qed.

Lemma fill_inv h values weights h' :
  fill h values weights = Ret h' ->
  _binning h' = _binning h /\ length (_sumw h') = length (_sumw h).
Proof.
  unfold fill.
  destruct (np_histogram values (_binning h) weights) as [hb|e]; [|discriminate].
  cbn [bind]. destruct (np_iadd (_sumw h) (fst hb)) as [s|e] eqn:E; [|discriminate].
  cbn [bind]. intros H. injection H as <-. cbn.
  split; [reflexivity|]. exact (np_iadd_length _ _ _ E).
Qed.

Lemma add_fails h1 h2 :
  np_array_equal (_binning h2) (_binning h1) = false ->
  __add__ h1 h2 = Raise IncompatibleBinning.
Proof. intros E. unfold __add__. rewrite E. reflexivity. Qed.

Lemma add_returns h1 h2 :
  wf h1 -> wf h2 ->
  np_array_equal (_binning h2) (_binning h1) = true ->
  __add__ h1 h2
  = Ret {| _binning := _binning h1;
           _sumw := zip_with PrimFloat.add (_sumw h1) (_sumw h2) |}.
Proof.
  unfold wf. intros W1 W2 E. unfold __add__. rewrite E. cbn [negb].
  pose proof (np_array_equal_length _ _ E) as L.
  destruct (_binning h1) as [|e t] eqn:B; [cbn in W1; lia|].
  rewrite init_cons. cbn [bind].
  unfold add_f64. rewrite broadcast_same by (cbn [length] in *; lia).
  reflexivity.
Qed.

Lemma add_inv h1 h2 h :
  __add__ h1 h2 = Ret h ->
  np_array_equal (_binning h2) (_binning h1) = true /\ _binning h = _binning h1.
Proof.
  unfold __add__.
  destruct (np_array_equal (_binning h2) (_binning h1)); [|discriminate].
  cbn [negb]. destruct (_binning h1) as [|e t] eqn:B; [discriminate|].
  rewrite init_cons. cbn [bind].
  destruct (add_f64 (_sumw h1) (_sumw h2)); [|discriminate].
  cbn. intros H. injection H as <-. split; reflexivity.
Qed.

(** The invariant of the class. *)
Lemma reachable_wf h : reachable h -> wf h.
Proof.
  induction 1 as [b h E|h v w h' _ IH E|h1 h2 h _ IH1 _ IH2 E].
  - apply (init_inv b h E).
  - destruct (fill_inv _ _ _ _ E) as [Eb El]. unfold wf in *. rewrite Eb, El. exact IH.
  - destruct (add_inv _ _ _ E) as [Eq Eb].
    rewrite (add_returns h1 h2 IH1 IH2 Eq) in E. injection E as <-.
    unfold wf in *. cbn. rewrite zip_with_length.
    pose proof (np_array_equal_length _ _ Eq). lia.
Qed.

(** Adding counts, cell by cell. *)
Lemma zip_counts M1 M2 c1 c2 :
  Forall (fun c => 0 <= c <= M1)%Z c1 -> Forall (fun c => 0 <= c <= M2)%Z c2 ->
  (M1 + M2 < 2 ^ 53)%Z ->
  zip_with PrimFloat.add (map of_count c1) (map of_count c2)
  = map of_count (zip_with Z.add c1 c2).
Proof.
  intros F1. revert c2. induction F1 as [|x c1 Hx _ IH]; intros c2 F2 HM.
  - reflexivity.
  - destruct F2 as [|y c2 Hy F2]; [reflexivity|].
    cbn [map]. rewrite !zip_with_cons. cbn [map].
    rewrite of_count_add by lia. f_equal. apply IH; assumption.
Qed.

Lemma zip_range M1 M2 c1 c2 :
  Forall (fun c => 0 <= c <= M1)%Z c1 -> Forall (fun c => 0 <= c <= M2)%Z c2 ->
  Forall (fun c => 0 <= c <= M1 + M2)%Z (zip_with Z.add c1 c2).
Proof.
  intros F1. revert c2. induction F1 as [|x c1 Hx _ IH]; intros c2 F2.
  - constructor.
  - destruct F2 as [|y c2 Hy F2]; [constructor|].
    rewrite zip_with_cons. constructor; [lia|]. apply IH. assumption.
Qed.

(** Adding two histograms of counts gives the histogram of the sums. *)
Lemma add_counts M1 M2 h1 h2 c1 c2 :
  wf h1 -> wf h2 ->
  np_array_equal (_binning h2) (_binning h1) = true ->
  counts_upto M1 h1 c1 -> counts_upto M2 h2 c2 ->
  (M1 + M2 < 2 ^ 53)%Z ->
  exists h, __add__ h1 h2 = Ret h /\ _binning h = _binning h1 /\ wf h /\
            counts_upto (M1 + M2) h (zip_with Z.add c1 c2).
Proof.
  intros W1 W2 E [S1 F1] [S2 F2] HM.
  eexists. split; [apply add_returns; assumption|].
  cbn. split; [reflexivity|]. split.
  - unfold wf in *. cbn. rewrite zip_with_length.
    pose proof (np_array_equal_length _ _ E). lia.
  - split; [|apply zip_range; assumption].
    cbn. rewrite S1, S2. apply (zip_counts M1 M2); assumption.
Qed.

(** An unweighted fill adds the counts of its values to the counts in the
    cells, exactly, as long as the total stays below 2^53. *)
Lemma fill_counts binning pre values :
  binning <> [] -> valid_edges binning = true ->
  (Z.of_nat (length (pre ++ values)) < 2 ^ 53)%Z ->
  fill {| _binning := binning; _sumw := map of_count (hist_counts pre binning) |} values None
  = Ret {| _binning := binning; _sumw := map of_count (hist_counts (pre ++ values) binning) |}.
Proof.
  intros NE V HM. unfold fill. cbn [_binning _sumw].
  assert (D : any_decreasing binning = false).
  { unfold valid_edges in V. apply andb_true_iff in V.
    destruct V as [_ V]. now apply negb_true_iff in V. }
  rewrite (np_histogram_counts values binning D). cbn [bind fst].
  unfold np_iadd. cbn [as_float64].
  rewrite !length_map, !hist_counts_length, Nat.eqb_refl. cbn [bind].
  rewrite length_app in HM.
  rewrite (zip_counts (Z.of_nat (length pre)) (Z.of_nat (length values)));
    try (apply hist_counts_range; exact V); [|lia].
  rewrite <- hist_counts_app. reflexivity.
Qed.

Lemma counts_of_nothing edges :
  map of_count (hist_counts [] edges) = repeat PrimFloat.zero (length edges - 1).
Proof.
  rewrite hist_counts_nil. induction (length edges - 1) as [|n IH]; [reflexivity|].
  cbn [repeat map]. now rewrite IH.
Qed.

Lemma init_counts binning :
  binning <> [] ->
  __init__ binning
  = Ret {| _binning := binning; _sumw := map of_count (hist_counts [] binning) |}.
Proof.
  intros NE. destruct binning as [|e t]; [congruence|].
  rewrite init_cons, counts_of_nothing.
  replace (length (e :: t) - 1) with (length t) by (cbn [length]; lia). reflexivity.
Qed.

Lemma process_counts binning chunk :
  binning <> [] -> valid_edges binning = true ->
  (Z.of_nat (length chunk) < 2 ^ 53)%Z ->
  process binning chunk
  = Ret {| _binning := binning; _sumw := map of_count (hist_counts chunk binning) |}.
Proof.
  intros NE V HM. unfold process. rewrite (init_counts binning NE). cbn [bind].
  apply (fill_counts binning [] chunk NE V). exact HM.
Qed.

(** One call per value leaves the same counts as one call for all. *)
Lemma fill_each_counts binning values : forall pre,
  binning <> [] -> valid_edges binning = true ->
  (Z.of_nat (length (pre ++ values)) < 2 ^ 53)%Z ->
  fill_each {| _binning := binning; _sumw := map of_count (hist_counts pre binning) |}
    (map (fun v => (v, None)) values)
  = Ret {| _binning := binning; _sumw := map of_count (hist_counts (pre ++ values) binning) |}.
Proof.
  induction values as [|v values IH]; intros pre NE V HM.
  - rewrite app_nil_r. reflexivity.
  - cbn [map fill_each option_map].
    rewrite (fill_counts binning pre [v] NE V)
      by (rewrite length_app in *; cbn [length] in *; lia).
    cbn [bind]. rewrite (IH (pre ++ [v]) NE V) by (rewrite <- app_assoc; exact HM).
    now rewrite <- app_assoc.
Qed.

(** Adding up the parts of the chunks leaves the counts of all their values. *)
Lemma reduce_counts binning chunks : forall pre,
  binning <> [] -> valid_edges binning = true ->
  (Z.of_nat (length (pre ++ concat chunks)) < 2 ^ 53)%Z ->
  reduce {| _binning := binning; _sumw := map of_count (hist_counts pre binning) |}
    (map (fun c => {| _binning := binning;
                      _sumw := map of_count (hist_counts c binning) |}) chunks)
  = Ret {| _binning := binning;
           _sumw := map of_count (hist_counts (pre ++ concat chunks) binning) |}.
Proof.
  induction chunks as [|c chunks IH]; intros pre NE V HM.
  - cbn [concat]. rewrite app_nil_r. reflexivity.
  - cbn [map reduce concat] in *. rewrite !length_app in HM.
    assert (W : forall a, wf {| _binning := binning;
                                _sumw := map of_count (hist_counts a binning) |}).
    { intros a. unfold wf. cbn. rewrite length_map, hist_counts_length.
      destruct binning; [congruence|cbn [length]; lia]. }
    rewrite add_returns; cbn [_binning _sumw]; auto.
    2:{ apply np_array_equal_refl. unfold valid_edges in V.
        apply andb_true_iff in V. apply V. }
    cbn [bind].
    rewrite (zip_counts (Z.of_nat (length pre)) (Z.of_nat (length c)));
      try (apply hist_counts_range; exact V); [|lia].
    rewrite <- hist_counts_app.
    rewrite (IH (pre ++ c) NE V) by (rewrite !length_app; lia).
    now rewrite <- app_assoc.
Qed.

Lemma mapM_process binning chunks :
  binning <> [] -> valid_edges binning = true ->
  (Z.of_nat (length (concat chunks)) < 2 ^ 53)%Z ->
  mapM (process binning) chunks
  = Ret (map (fun c => {| _binning := binning;
                          _sumw := map of_count (hist_counts c binning) |}) chunks).
Proof.
  intros NE V. induction chunks as [|c chunks IH]; intros HM; [reflexivity|].
  cbn [concat] in HM. rewrite length_app in HM.
  cbn [mapM map]. rewrite (process_counts binning c NE V) by lia. cbn [bind].
  rewrite IH by lia. reflexivity.
Qed.

Lemma np_add_comm a b : np_add a b = np_add b a.
Proof.
  destruct a as [x|x], b as [y|y]; cbn [np_add as_float64]; unfold add_f64;
    first [ now rewrite (broadcast_comm add64 x y add64_comm)
          | now rewrite (broadcast_comm PrimFloat.add _ _ add_comm) ].
Qed.

(** [add_histos] commutes on the sums, for every dtype, errors included. *)
Lemma add_histos_comm g1 g2 : sums (add_histos g1 g2) = sums (add_histos g2 g1).
Proof.
  destruct g1 as [s1 b1], g2 as [s2 b2]. unfold add_histos.
  rewrite !np_all_eq_array_equal, (np_array_equal_sym b2 b1).
  destruct (np_array_equal b1 b2); [|reflexivity].
  rewrite (np_add_comm s2 s1). unfold sums.
  destruct (np_add s1 s2); reflexivity.
Qed.

Lemma add_histos_int64 x1 x2 b1 b2 :
  length x1 = length x2 -> np_array_equal b1 b2 = true ->
  add_histos (Int64 x1, b1) (Int64 x2, b2) = Ret (Int64 (zip_with add64 x1 x2), b1).
Proof.
  intros L E. unfold add_histos. rewrite np_all_eq_array_equal, E.
  cbn [np_add]. rewrite (broadcast_same add64 x1 x2 L). reflexivity.
Qed.

End NotebookFacts.

(** *** The class [myTH1], on a store *)

Module HeapFacts.

Import Float64 Numpy NumpyFacts Notebook Properties NotebookFacts Heap.

Lemma set_nth_last {A} (l : list A) (x y : A) :
  set_nth (length l) y (l ++ [x]) = l ++ [y].
Proof. induction l as [|z l IH]; [reflexivity|]. cbn. now rewrite IH. Qed.

Lemma set_nth_other {A} n m (x : A) l :
  n <> m -> nth_error (set_nth n x l) m = nth_error l m.
Proof.
  revert n m. induction l as [|y l IH]; intros [|n] [|m] H; cbn; try reflexivity.
  - congruence.
  - apply IH. congruence.
Qed.

Lemma set_nth_same {A} n (x : A) l d :
  n < length l -> nth n (set_nth n x l) d = x.
Proof.
  revert n. induction l as [|y l IH]; intros [|n] H; cbn in *; try lia.
  - reflexivity.
  - apply IH. lia.
Qed.

Lemma nth_error_nth_eq {A} (l l' : list A) n d :
  nth_error l' n = nth_error l n -> nth n l' d = nth n l d.
Proof.
  intros E. rewrite <- !nth_default_eq. unfold nth_default. now rewrite E.
Qed.

(** What is preserved keeps its views. *)
Lemma preserved_view hp hp' o :
  preserved hp hp' -> valid hp o -> view hp' o = view hp o /\ valid hp' o.
Proof.
  intros [PA PO] (Vo & Vb & Vs).
  assert (Eo : nth o (objects hp') no_object = nth o (objects hp) no_object)
    by (apply nth_error_nth_eq, PO, Vo).
  assert (LA : forall a, a < length (arrays hp) -> a < length (arrays hp')).
  { intros a Ha. apply nth_error_Some. rewrite (PA a Ha). now apply nth_error_Some. }
  assert (LO : o < length (objects hp')).
  { apply nth_error_Some. rewrite (PO o Vo). now apply nth_error_Some. }
  split.
  - unfold view. rewrite Eo. f_equal; apply nth_error_nth_eq, PA; assumption.
  - unfold valid. rewrite Eo. auto.
Qed.

Lemma preserved_refl hp : preserved hp hp.
Proof. split; reflexivity. Qed.

Lemma preserved_grow hp la lo :
  preserved hp {| arrays := arrays hp ++ la; objects := objects hp ++ lo |}.
Proof.
  split; cbn; intros a Ha; now rewrite nth_error_app1.
Qed.

(** The run of [self + other], step by step. *)
Lemma add_run hp self other :
  valid hp self -> valid hp other ->
  let v1 := view hp self in
  let v2 := view hp other in
  let b := attr_binning (nth self (objects hp) no_object) in
  Heap.__add__ self other hp =
    if negb (np_array_equal (_binning v2) (_binning v1))
    then (Raise IncompatibleBinning, hp)
    else
      match np_zeros (Z.of_nat (length (_binning v1)) - 1) with
      | Raise e => (Raise e, hp)
      | Ret z =>
          match add_f64 (_sumw v1) (_sumw v2) with
          | Raise e =>
              (Raise e,
               {| arrays := arrays hp ++ [z];
                  objects := objects hp
                             ++ [{| attr_binning := b; attr_sumw := length (arrays hp) |}] |})
          | Ret s =>
              (Ret (length (objects hp)),
               {| arrays := arrays hp ++ [z; s];
                  objects := objects hp
                             ++ [{| attr_binning := b;
                                    attr_sumw := S (length (arrays hp)) |}] |})
          end
      end.
Proof.
  intros (Vo1 & Vb1 & Vs1) (Vo2 & Vb2 & Vs2) v1 v2 b.
  unfold Heap.__add__, bindM, get_object, get_array, raise. cbn [fst snd].
  change (nth (attr_binning (nth other (objects hp) no_object)) (arrays hp) [])
    with (_binning v2).
  change (nth (attr_binning (nth self (objects hp) no_object)) (arrays hp) [])
    with (_binning v1).
  destruct (negb (np_array_equal (_binning v2) (_binning v1))); [reflexivity|].
  unfold Heap.__init__, bindM, get_array, lift, new_array, new_object. cbn [arrays objects].
  change (nth (attr_binning (nth self (objects hp) no_object)) (arrays hp) [])
    with (_binning v1).
  destruct (np_zeros (Z.of_nat (length (_binning v1)) - 1)) as [z|e]; [|reflexivity].
  cbn [arrays objects].
  rewrite !(app_nth1 (arrays hp)) by assumption.
  change (nth (attr_sumw (nth self (objects hp) no_object)) (arrays hp) [])
    with (_sumw v1).
  change (nth (attr_sumw (nth other (objects hp) no_object)) (arrays hp) [])
    with (_sumw v2).
  destruct (add_f64 (_sumw v1) (_sumw v2)) as [s|e]; [|reflexivity].
  unfold set_sumw, ret. cbn [arrays objects].
  rewrite app_nth2, Nat.sub_diag by lia. cbn [nth attr_binning].
  rewrite set_nth_last, length_app. cbn [length].
  rewrite <- app_assoc. cbn [app].
  replace (length (arrays hp) + 1) with (S (length (arrays hp))) by lia.
  reflexivity.
Qed.

(** The run of [myTH1(binning)]: the value of [__init__], in a new object
    over a new cell array. *)
Lemma init_run hp binning :
  Heap.__init__ binning hp =
    match Notebook.__init__ (nth binning (arrays hp) []) with
    | Raise e => (Raise e, hp)
    | Ret h =>
        (Ret (length (objects hp)),
         {| arrays := arrays hp ++ [_sumw h];
            objects := objects hp
                       ++ [{| attr_binning := binning;
                              attr_sumw := length (arrays hp) |}] |})
    end.
Proof.
  unfold Heap.__init__, bindM, get_array, lift, new_array, new_object, Notebook.__init__.
  destruct (np_zeros (Z.of_nat (length (nth binning (arrays hp) [])) - 1));
    reflexivity.
Qed.

(** The run of [self.fill(values, weights)]: the value of [fill], written
    into the cell array of [self]. *)
Lemma fill_run hp self values weights :
  fill self values weights hp =
    match Notebook.fill (view hp self) values weights with
    | Raise e => (Raise e, hp)
    | Ret h =>
        (Ret tt,
         {| arrays := set_nth (attr_sumw (nth self (objects hp) no_object))
                        (_sumw h) (arrays hp);
            objects := objects hp |})
    end.
Proof.
  unfold fill, bindM, get_object, get_array, lift, set_array, Notebook.fill, view.
  cbn [_binning _sumw].
  destruct (np_histogram values _ weights) as [hb|e]; [|reflexivity].
  cbn [bind]. destruct (np_iadd _ (fst hb)); reflexivity.
Qed.

(** What [self + other] allocates is new: the store before the call is
    preserved, and the object returned has its cells in a new array. *)
Lemma add_fresh hp self other out hp1 :
  valid hp self -> valid hp other ->
  Heap.__add__ self other hp = (Ret out, hp1) ->
  preserved hp hp1 /\
  length (arrays hp) <= attr_sumw (nth out (objects hp1) no_object).
Proof.
  intros V1 V2 E. rewrite (add_run hp self other V1 V2) in E. cbv zeta in E.
  destruct (negb _); [discriminate|].
  destruct (np_zeros _) as [z|e]; [|discriminate].
  destruct (add_f64 _ _) as [s|e]; [|discriminate].
  injection E as <- <-. split; [apply preserved_grow|].
  cbn [objects arrays]. rewrite app_nth2, Nat.sub_diag by lia.
  cbn [nth attr_sumw]. lia.
Qed.

End HeapFacts.

(** *** The growable axis and the executor *)

Module CatHistFacts.

Import CatHist.

Lemma add_at_length i w cs : length (add_at i w cs) = length cs.
Proof.
  revert i. induction cs as [|c cs IH]; intros [|i]; cbn; try reflexivity.
  now rewrite IH.
Qed.

Lemma add_at_end cs c w :
  add_at (length cs) w (cs ++ [c]) = cs ++ [PrimFloat.add c w].
Proof. induction cs as [|x cs IH]; [reflexivity|]. cbn. now rewrite IH. Qed.

(** A fill with a known label adds to its cell and leaves the axis alone. *)
Lemma fill_known h label w i :
  shaped h -> lookup label (labels (axis h)) = Some i ->
  fill h label w = inr {| axis := axis h; cells := add_at i w (cells h) |}.
Proof.
  intros S L. unfold fill, bin_index. rewrite L. unfold grow.
  rewrite S, Nat.sub_diag. cbn [repeat]. now rewrite app_nil_r.
Qed.

(** A fill with a new label appends its bin: the labels and the cells that
    were there stay at their places. *)
Lemma fill_new h label w :
  shaped h -> lookup label (labels (axis h)) = None -> growable (axis h) = true ->
  fill h label w
  = inr {| axis := {| labels := labels (axis h) ++ [label]; growable := true |};
           cells := cells h ++ [PrimFloat.add PrimFloat.zero w] |}.
Proof.
  intros S L G. unfold fill, bin_index. rewrite L, G. cbn [labels]. unfold grow.
  rewrite length_app, S. cbn [length].
  replace (length (labels (axis h)) + 1 - length (labels (axis h))) with 1 by lia.
  cbn [repeat]. rewrite <- S, add_at_end. reflexivity.
Qed.

Lemma fill_shaped h label w h' :
  shaped h -> fill h label w = inr h' -> shaped h'.
Proof.
  intros S E. destruct (lookup label (labels (axis h))) as [i|] eqn:L.
  - rewrite (fill_known h label w i S L) in E. injection E as <-.
    unfold shaped in *. cbn. now rewrite add_at_length.
  - destruct (growable (axis h)) eqn:G.
    + rewrite (fill_new h label w S L G) in E. injection E as <-.
      unfold shaped in *. cbn. rewrite !length_app, S. reflexivity.
    + unfold fill, bin_index in E. rewrite L, G in E. discriminate.
Qed.

Lemma fill_all_shaped events : forall h h',
  shaped h -> fill_all h events = inr h' -> shaped h'.
Proof.
  induction events as [|[l w] events IH]; intros h h' S E; cbn [fill_all] in E.
  - now injection E as <-.
  - destruct (fill h l w) as [e|h1] eqn:F; [discriminate|].
    exact (IH h1 h' (fill_shaped h l w h1 S F) E).
Qed.

End CatHistFacts.

Module ExecutorFacts.

Import Executor.

Section Run.

Context {Chunk Acc : Type}.
Variable identity : Acc.
Variable merge : Acc -> Acc -> Acc.

(** In best-effort mode the run ends with the outputs of the tasks that
    returned, merged in order, and one failure per task that raised. *)
Lemma dispatch_best_effort (tasks : list (@Task Chunk Acc)) : forall n acc failures,
  dispatch merge false n tasks acc failures
  = Done (fold_left merge (outputs tasks) acc) (failures ++ raised n tasks).
Proof.
  induction tasks as [|t tasks IH]; intros n acc failures; cbn [dispatch outputs raised].
  - now rewrite app_nil_r.
  - destruct (func t (chunk t)) as [a|e].
    + rewrite IH. reflexivity.
    + rewrite IH, <- app_assoc. reflexivity.
Qed.

End Run.

End ExecutorFacts.

(** *** The cells of the notebook *)

Module ScriptFacts.
Import MoreProperties.


Import Float64 Float64Facts Numpy NumpyFacts Notebook Properties HistogramFacts NotebookFacts.
Import Linspace Scripts.

Lemma wrap64_small z : (- 2 ^ 63 <= z < 2 ^ 63)%Z -> wrap64 z = z.
Proof.
  intros H. unfold wrap64. rewrite Z.mod_small; lia.
Qed.

Lemma zip_add64 M1 M2 c1 c2 :
  Forall (fun c => 0 <= c <= M1)%Z c1 -> Forall (fun c => 0 <= c <= M2)%Z c2 ->
  (M1 + M2 < 2 ^ 63)%Z ->
  zip_with add64 c1 c2 = zip_with Z.add c1 c2.
Proof.
  intros H1. revert c2. induction H1 as [|x c1 Hx H1 IH]; intros c2 H2 HM.
  - reflexivity.
  - destruct H2 as [|y c2 Hy H2]; [reflexivity|].
    rewrite !zip_with_cons. f_equal.
    + unfold add64. apply wrap64_small. lia.
    + apply IH; assumption.
Qed.

Lemma valid_edges_parts edges :
  valid_edges edges = true -> forallb is_num edges = true /\ any_decreasing edges = false.
Proof.
  unfold valid_edges. intros H. apply andb_true_iff in H. destruct H as [H1 H2].
  split; [assumption|]. now apply negb_true_iff in H2.
Qed.

Lemma cell5_counts binning vals vals2 :
  valid_edges binning = true ->
  (Z.of_nat (length (vals ++ vals2)) < 2 ^ 63)%Z ->
  cell5 binning vals vals2 = Ret (Int64 (hist_counts (vals ++ vals2) binning), binning).
Proof.
  intros V L. destruct (valid_edges_parts _ V) as [N D].
  unfold cell5. rewrite !np_histogram_counts by assumption. cbn [bind].
  rewrite add_histos_int64.
  - rewrite (zip_add64 (Z.of_nat (length vals)) (Z.of_nat (length vals2))).
    + now rewrite hist_counts_app.
    + now apply hist_counts_range.
    + now apply hist_counts_range.
    + rewrite length_app in L. lia.
  - now rewrite !hist_counts_length.
  - now apply np_array_equal_refl.
Qed.


Lemma np_array_equal_self b : np_array_equal b b = forallb is_num b.
Proof.
  unfold np_array_equal. rewrite Nat.eqb_refl. cbn [negb].
  unfold np_all_eq. induction b as [|x b IH]; [reflexivity|].
  rewrite zip_with_cons. cbn [forallb]. now rewrite IH.
Qed.

Lemma iadd_counts s cs :
  length s = length cs ->
  np_iadd s (Int64 cs) = Ret (zip_with PrimFloat.add s (map of_count cs)).
Proof.
  intros L. unfold np_iadd. cbn [as_float64]. rewrite length_map.
  apply Nat.eqb_eq in L. now rewrite L.
Qed.

Lemma process_returns binning vals :
  binning <> [] -> any_decreasing binning = false ->
  process binning vals
  = Ret {| _binning := binning;
           _sumw := zip_with PrimFloat.add (repeat PrimFloat.zero (length binning - 1))
                      (map of_count (hist_counts vals binning)) |}.
Proof.
  intros NE D. destruct binning as [|e t]; [congruence|].
  unfold process. rewrite init_cons. cbn [bind]. unfold fill. cbn [_binning _sumw].
  rewrite np_histogram_counts by assumption. cbn [bind fst].
  rewrite iadd_counts.
  - cbn [bind length]. replace (S (length t) - 1) with (length t) by lia. reflexivity.
  - rewrite repeat_length, hist_counts_length. cbn [length]. lia.
Qed.


Lemma np_diff_f64_length c : length (np_diff_f64 c) = length c - 1.
Proof.
  induction c as [|x t IH]; [reflexivity|].
  destruct t as [|y t]; [reflexivity|].
  cbn [np_diff_f64 length] in *. lia.
Qed.

Lemma add_block_length edges cum_n block :
  length cum_n = length edges -> length (add_block edges cum_n block) = length edges.
Proof.
  intros L. unfold add_block, search_sorted_inclusive.
  rewrite zip_with_length, !length_map, searches_length. lia.
Qed.

Lemma weighted_histogram_length a w edges :
  length (weighted_histogram a w edges) = length edges - 1.
Proof.
  unfold weighted_histogram. rewrite np_diff_f64_length. f_equal.
  assert (G : forall bs cum_n, length cum_n = length edges ->
                length (fold_left (add_block edges) bs cum_n) = length edges).
  { induction bs as [|b bs IH]; intros cum_n L; [exact L|].
    cbn [fold_left]. apply IH. now apply add_block_length. }
  apply G. apply repeat_length.
Qed.

Lemma np_diff_f64_zeros n :
  np_diff_f64 (repeat PrimFloat.zero n) = repeat PrimFloat.zero (n - 1).
Proof.
  induction n as [|n IH]; [reflexivity|].
  destruct n as [|n]; [reflexivity|].
  change (np_diff_f64 (repeat PrimFloat.zero (S (S n))))
    with (PrimFloat.sub PrimFloat.zero PrimFloat.zero
          :: np_diff_f64 (repeat PrimFloat.zero (S n))).
  rewrite IH. replace (S n - 1) with n by lia.
  replace (S (S n) - 1) with (S n) by lia. reflexivity.
Qed.

Lemma total_diff x l :
  total (np_diff (x :: l)) = (last (x :: l) x - x)%Z.
Proof.
  revert x. induction l as [|y l IH]; intros x.
  - cbn. lia.
  - change (np_diff (x :: y :: l)) with ((y - x)%Z :: np_diff (y :: l)).
    cbn [total fold_right]. fold (total (np_diff (y :: l))). rewrite IH.
    change (last (x :: y :: l) x) with (last (y :: l) x).
    rewrite (last_default y l x y). lia.
Qed.

Lemma searches_last (g : (float -> bool) -> Z) e t d :
  last (map g (searches (e :: t))) d = g (sort_le (last (e :: t) e)).
Proof.
  revert e. induction t as [|e' t IH]; intros e.
  - reflexivity.
  - change (searches (e :: e' :: t)) with (sort_lt e :: searches (e' :: t)).
    cbn [map]. change (last (e :: e' :: t) e) with (last (e' :: t) e).
    rewrite (last_default e' t e e'). rewrite <- IH.
    destruct (searches (e' :: t)) eqn:E.
    + destruct t; discriminate.
    + reflexivity.
Qed.

Lemma in_range_split lo hi v :
  is_num lo = true -> is_num hi = true ->
  sort_le hi v && negb (sort_lt lo v) = PrimFloat.leb lo v && PrimFloat.leb v hi.
Proof.
  intros Hlo Hhi. unfold sort_le, sort_lt. rewrite Hlo, Hhi.
  destruct (is_num v) eqn:Hv.
  - rewrite (not_ltb v lo Hv Hlo). apply andb_comm.
  - destruct (PrimFloat.leb v hi) eqn:E1.
    + apply leb_num_l in E1. congruence.
    + now rewrite andb_false_r.
Qed.

Lemma hist_counts_total a lo hi t :
  valid_edges (lo :: hi :: t) = true ->
  total (hist_counts a (lo :: hi :: t))
  = count_if (in_range (lo :: hi :: t)) a.
Proof.
  intros V. unfold hist_counts, search_sorted_inclusive.
  change (searches (lo :: hi :: t)) with (sort_lt lo :: searches (hi :: t)).
  cbn [map]. rewrite total_diff.
  change (last (count_if (sort_lt lo) a :: map (fun p => count_if p a) (searches (hi :: t))) (count_if (sort_lt lo) a))
    with (last (map (fun p => count_if p a) (searches (lo :: hi :: t))) (count_if (sort_lt lo) a)).
  rewrite searches_last.
  pose proof (valid_edges_last lo (hi :: t) V) as Hle.
  rewrite count_if_sub.
  - apply count_if_ext. intros v. unfold in_range. cbn [hd].
    rewrite (last_default lo (hi :: t) PrimFloat.zero lo).
    apply in_range_split.
    + now apply leb_num_l in Hle.
    + now apply leb_num_r in Hle.
  - intros v Hv. unfold sort_lt in Hv. unfold sort_le.
    rewrite (leb_num_l _ _ Hle) in Hv. rewrite (leb_num_r _ _ Hle).
    apply ltb_leb. eapply ltb_leb_trans; eassumption.
Qed.


Lemma histogram_length a edges w r :
  np_histogram a edges w = Ret r -> size (fst r) = length edges - 1.
Proof.
  unfold np_histogram. destruct w as [w|].
  - destruct (negb (Nat.eqb (length w) (length a))); [discriminate|].
    destruct (any_decreasing edges); [discriminate|].
    intros E. inversion E. cbn [fst size].
    apply weighted_histogram_length.
  - destruct (any_decreasing edges); [discriminate|].
    intros E. inversion E. cbn [fst size].
    unfold search_sorted_inclusive.
    now rewrite np_diff_length, length_map, searches_length.
Qed.

Lemma as_float64_length a : length (as_float64 a) = size a.
Proof. destruct a; cbn; [apply length_map | reflexivity]. Qed.

Lemma fill_after_histogram h values weights r :
  wf h -> np_histogram values (_binning h) weights = Ret r ->
  fill h values weights
  = Ret {| _binning := _binning h;
           _sumw := zip_with PrimFloat.add (_sumw h) (as_float64 (fst r)) |}.
Proof.
  intros W E. unfold fill. rewrite E. cbn [bind].
  unfold np_iadd. rewrite as_float64_length, (histogram_length _ _ _ _ E).
  replace (Nat.eqb (length (_sumw h)) (length (_binning h) - 1)) with true.
  - reflexivity.
  - symmetry. apply Nat.eqb_eq. unfold wf in W. lia.
Qed.

Lemma add_zero_r x : same_value (PrimFloat.add x PrimFloat.zero) x.
Proof. rewrite add_comm. apply add_zero_l. Qed.

Lemma zip_add_zeros s n :
  length s = n ->
  Forall2 same_value (zip_with PrimFloat.add s (repeat PrimFloat.zero n)) s.
Proof.
  revert n. induction s as [|x s IH]; intros n L.
  - constructor.
  - destruct n as [|n]; [discriminate|]. cbn [repeat]. rewrite zip_with_cons.
    constructor; [apply add_zero_r | apply IH; now inversion L].
Qed.

Lemma histogram_of_nothing edges weights :
  any_decreasing edges = false -> weights = None \/ weights = Some [] ->
  exists r, np_histogram [] edges weights = Ret r /\
            as_float64 (fst r) = repeat PrimFloat.zero (length edges - 1).
Proof.
  intros D [-> | ->].
  - rewrite np_histogram_counts by assumption. eexists. split; [reflexivity|].
    cbn [fst as_float64]. apply counts_of_nothing.
  - unfold np_histogram. cbn [length Nat.eqb negb]. rewrite D.
    eexists. split; [reflexivity|]. cbn [fst as_float64].
    unfold weighted_histogram, blocks. cbn [combine length blocks_upto fold_left].
    apply np_diff_f64_zeros.
Qed.


Lemma broadcast_size {A} (f : A -> A -> A) a b l :
  length a = length b -> broadcast f a b = Ret l -> length l = length a.
Proof.
  intros L E. rewrite broadcast_same in E by assumption. inversion E.
  rewrite zip_with_length. lia.
Qed.

Lemma np_add_size a b s :
  size a = size b -> np_add a b = Ret s -> size s = size a.
Proof.
  intros L E. unfold np_add in E.
  destruct a as [x|x], b as [y|y]; cbn [size] in L;
    match type of E with
    | context [broadcast add64 ?u ?v] =>
        destruct (broadcast add64 u v) as [l|] eqn:B; [|discriminate];
        apply broadcast_size in B; [|assumption]
    | context [add_f64 ?u ?v] =>
        destruct (add_f64 u v) as [l|] eqn:B; [|discriminate];
        apply broadcast_size in B; [|rewrite !as_float64_length; assumption];
        rewrite as_float64_length in B
    end;
    cbn [bind] in E; inversion E; cbn [size] in *; assumption.
Qed.

Lemma built_shape g : built g -> size (fst g) = length (snd g) - 1.
Proof.
  induction 1 as [a edges weights g E | g1 g2 g _ IH1 _ IH2 E].
  - rewrite (histogram_length _ _ _ _ E). f_equal.
    unfold np_histogram in E. destruct weights as [w|].
    + destruct (negb (Nat.eqb (length w) (length a))); [discriminate|].
      destruct (any_decreasing edges); [discriminate|]. now inversion E.
    + destruct (any_decreasing edges); [discriminate|]. now inversion E.
  - destruct g1 as [s1 b1], g2 as [s2 b2]. cbn [fst snd] in *.
    unfold add_histos in E.
    destruct (Nat.eqb (length b1) (length b2) && np_all_eq b1 b2) eqn:C; [|discriminate].
    apply andb_true_iff in C. destruct C as [C _]. apply Nat.eqb_eq in C.
    destruct (np_add s1 s2) as [s|] eqn:A; [|discriminate].
    cbn [bind] in E. inversion E. cbn [fst snd].
    rewrite (np_add_size _ _ _ (eq_trans IH1 (eq_trans (f_equal (fun n => n - 1) C) (eq_sym IH2))) A).
    exact IH1.
Qed.



End ScriptFacts.

(** *** The steps of a run on a grown store *)

Module StoreFacts.

Import Float64 Float64Facts Numpy NumpyFacts Notebook Properties HistogramFacts NotebookFacts.
Import Heap HeapFacts Linspace Scripts MoreProperties ScriptFacts.

Lemma bindM_ret {A B} (m : M A) (k : A -> M B) hp a hp' :
  m hp = (Ret a, hp') -> bindM m k hp = k a hp'.
Proof. intros E. unfold bindM. now rewrite E. Qed.

Lemma set_nth_off {A} (l L : list A) k v :
  set_nth (length l + k) v (l ++ L) = l ++ set_nth k v L.
Proof.
  induction l as [|x l IH]; [reflexivity|].
  cbn [length Nat.add app set_nth]. now rewrite IH.
Qed.

Lemma new_array_step A O L Lo l :
  new_array l (grown A O L Lo)
  = (Ret (length A + length L), grown A O (L ++ [l]) Lo).
Proof.
  unfold new_array, grown. cbn [arrays objects]. now rewrite length_app, <- app_assoc.
Qed.

Lemma init_step A O L Lo k h :
  Notebook.__init__ (nth k L []) = Ret h ->
  Heap.__init__ (length A + k) (grown A O L Lo)
  = (Ret (length O + length Lo),
     grown A O (L ++ [_sumw h])
       (Lo ++ [{| attr_binning := length A + k; attr_sumw := length A + length L |}])).
Proof.
  intros E. rewrite init_run. unfold grown at 1. cbn [arrays objects].
  rewrite app_nth2_plus, E. unfold grown. cbn [arrays objects].
  now rewrite !length_app, <- !app_assoc.
Qed.

Lemma view_step A O L Lo j kb ks :
  nth j Lo no_object = {| attr_binning := length A + kb; attr_sumw := length A + ks |} ->
  view (grown A O L Lo) (length O + j)
  = {| _binning := nth kb L []; _sumw := nth ks L [] |}.
Proof.
  intros E. unfold view, grown. cbn [arrays objects].
  rewrite app_nth2_plus, E. cbn [attr_binning attr_sumw].
  now rewrite !app_nth2_plus.
Qed.

Lemma fill_step A O L Lo j kb ks values weights h :
  nth j Lo no_object = {| attr_binning := length A + kb; attr_sumw := length A + ks |} ->
  Notebook.fill {| _binning := nth kb L []; _sumw := nth ks L [] |} values weights = Ret h ->
  Heap.fill (length O + j) values weights (grown A O L Lo)
  = (Ret tt, grown A O (set_nth ks (_sumw h) L) Lo).
Proof.
  intros E F. rewrite fill_run. rewrite (view_step _ _ _ _ _ _ _ E), F.
  unfold grown. cbn [arrays objects]. rewrite app_nth2_plus, E. cbn [attr_sumw].
  now rewrite set_nth_off.
Qed.

Lemma valid_step A O L Lo j kb ks :
  nth j Lo no_object = {| attr_binning := length A + kb; attr_sumw := length A + ks |} ->
  j < length Lo -> kb < length L -> ks < length L ->
  valid (grown A O L Lo) (length O + j).
Proof.
  intros E Hj Hb Hs. unfold valid, grown. cbn [arrays objects].
  rewrite app_nth2_plus, E, !length_app. cbn [attr_binning attr_sumw]. lia.
Qed.

Lemma add_step A O L Lo j1 kb1 ks1 j2 kb2 ks2 h :
  nth j1 Lo no_object = {| attr_binning := length A + kb1; attr_sumw := length A + ks1 |} ->
  nth j2 Lo no_object = {| attr_binning := length A + kb2; attr_sumw := length A + ks2 |} ->
  j1 < length Lo -> kb1 < length L -> ks1 < length L ->
  j2 < length Lo -> kb2 < length L -> ks2 < length L ->
  Notebook.__add__ {| _binning := nth kb1 L []; _sumw := nth ks1 L [] |}
                   {| _binning := nth kb2 L []; _sumw := nth ks2 L [] |} = Ret h ->
  Heap.__add__ (length O + j1) (length O + j2) (grown A O L Lo)
  = (Ret (length O + length Lo),
     grown A O (L ++ [repeat PrimFloat.zero (length (nth kb1 L []) - 1); _sumw h])
       (Lo ++ [{| attr_binning := length A + kb1; attr_sumw := length A + S (length L) |}])).
Proof.
  intros E1 E2 Hj1 Hb1 Hs1 Hj2 Hb2 Hs2 F.
  rewrite add_run by (eapply valid_step; eassumption).
  cbv zeta. rewrite (view_step _ _ _ _ _ _ _ E1), (view_step _ _ _ _ _ _ _ E2).
  cbn [_binning _sumw].
  unfold Notebook.__add__ in F. cbn [_binning _sumw] in F.
  destruct (negb (np_array_equal (nth kb2 L []) (nth kb1 L []))); [discriminate|].
  unfold Notebook.__init__ in F.
  destruct (np_zeros (Z.of_nat (length (nth kb1 L [])) - 1)) as [z|e] eqn:Z; [|discriminate].
  cbn [bind _binning] in F.
  destruct (add_f64 (nth ks1 L []) (nth ks2 L [])) as [s|e] eqn:S; [|discriminate].
  cbn [bind] in F. inversion F; subst h. cbn [_sumw].
  unfold np_zeros in Z. destruct (Z.of_nat (length (nth kb1 L [])) - 1 <? 0)%Z eqn:N; [discriminate|].
  inversion Z; subst z.
  replace (Z.to_nat (Z.of_nat (length (nth kb1 L [])) - 1)) with (length (nth kb1 L []) - 1) by lia.
  unfold grown. cbn [arrays objects].
  rewrite app_nth2_plus, E1. cbn [attr_binning].
  rewrite !length_app, <- !app_assoc.
  repeat f_equal; lia.
Qed.


Lemma linspace_binning :
  exists b, np_linspace 0 1 50 = Ret b /\ length b = 50 /\ valid_edges b = true.
Proof.
  eexists. split; [vm_compute; reflexivity|]. split; vm_compute; reflexivity.
Qed.

Lemma grown_nil hp : hp = grown (arrays hp) (objects hp) [] [].
Proof. destruct hp. unfold grown. cbn [arrays objects]. now rewrite !app_nil_r. Qed.

Lemma get_object_step A O L Lo j :
  get_object (length O + j) (grown A O L Lo) = (Ret (nth j Lo no_object), grown A O L Lo).
Proof. unfold get_object, grown. cbn [objects]. now rewrite app_nth2_plus. Qed.

Lemma get_array_step A O L Lo k :
  get_array (length A + k) (grown A O L Lo) = (Ret (nth k L []), grown A O L Lo).
Proof. unfold get_array, grown. cbn [arrays]. now rewrite app_nth2_plus. Qed.

Lemma fresh_fill binning values :
  binning <> [] -> valid_edges binning = true ->
  (Z.of_nat (length values) < 2 ^ 53)%Z ->
  Notebook.fill {| _binning := binning; _sumw := repeat PrimFloat.zero (length binning - 1) |}
    values None
  = Ret {| _binning := binning; _sumw := map of_count (hist_counts values binning) |}.
Proof.
  intros NE V L. rewrite <- counts_of_nothing.
  apply (fill_counts binning [] values); assumption.
Qed.

Lemma add_of_counts binning a b :
  binning <> [] -> valid_edges binning = true ->
  (Z.of_nat (length (a ++ b)) < 2 ^ 53)%Z ->
  Notebook.__add__ {| _binning := binning; _sumw := map of_count (hist_counts a binning) |}
                   {| _binning := binning; _sumw := map of_count (hist_counts b binning) |}
  = Ret {| _binning := binning; _sumw := map of_count (hist_counts (a ++ b) binning) |}.
Proof.
  intros NE V L. destruct (valid_edges_parts _ V) as [N D].
  rewrite add_returns.
  - cbn [_binning _sumw]. f_equal. f_equal.
    rewrite (zip_counts (Z.of_nat (length a)) (Z.of_nat (length b))).
    + now rewrite hist_counts_app.
    + now apply hist_counts_range.
    + now apply hist_counts_range.
    + rewrite length_app in L. lia.
  - unfold wf. cbn [_binning _sumw]. rewrite length_map, hist_counts_length.
    destruct binning; [congruence | cbn [length]; lia].
  - unfold wf. cbn [_binning _sumw]. rewrite length_map, hist_counts_length.
    destruct binning; [congruence | cbn [length]; lia].
  - cbn [_binning]. now apply np_array_equal_refl.
Qed.

Lemma cell8_run hp vals vals2 b :
  np_linspace 0 1 50 = Ret b -> b <> [] -> valid_edges b = true ->
  (Z.of_nat (length (vals ++ vals2)) < 2 ^ 53)%Z ->
  let na := length (arrays hp) in
  let no := length (objects hp) in
  let c1 := map of_count (hist_counts vals b) in
  let c2 := map of_count (hist_counts vals2 b) in
  let s := map of_count (hist_counts (vals ++ vals2) b) in
  cell8 vals vals2 hp
  = (Ret {| h1 := no + 0; h2 := no + 1; h := no + 2; printed := s |},
     grown (arrays hp) (objects hp)
       [b; c1; c2; repeat PrimFloat.zero (length b - 1); s]
       [{| attr_binning := na + 0; attr_sumw := na + 1 |};
        {| attr_binning := na + 0; attr_sumw := na + 2 |};
        {| attr_binning := na + 0; attr_sumw := na + 4 |}]).
Proof.
  intros Eb NE V L na no c1 c2 s.
  assert (L1 : (Z.of_nat (length vals) < 2 ^ 53)%Z) by (rewrite length_app in L; lia).
  assert (L2 : (Z.of_nat (length vals2) < 2 ^ 53)%Z) by (rewrite length_app in L; lia).
  assert (I : Notebook.__init__ b
              = Ret {| _binning := b; _sumw := repeat PrimFloat.zero (length b - 1) |}).
  { destruct b as [|e t]; [congruence|]. rewrite init_cons. cbn [length].
    now replace (S (length t) - 1) with (length t) by lia. }
  rewrite (grown_nil hp) at 1. fold na no.
  unfold cell8.
  rewrite (bindM_ret _ _ _ b (grown (arrays hp) (objects hp) [] []))
    by (unfold lift; now rewrite Eb).
  erewrite bindM_ret by apply new_array_step. cbn [length app].
  erewrite bindM_ret by (apply init_step; cbn [nth]; exact I). cbn [length app _sumw].
  erewrite bindM_ret
    by (eapply (fill_step _ _ _ _ 0 0 1); [reflexivity | cbn [nth]; now apply fresh_fill]).
  cbn [set_nth _sumw].
  erewrite bindM_ret by (apply init_step; cbn [nth]; exact I). cbn [length app _sumw].
  erewrite bindM_ret
    by (eapply (fill_step _ _ _ _ 1 0 2); [reflexivity | cbn [nth]; now apply fresh_fill]).
  cbn [set_nth _sumw].
  erewrite bindM_ret
    by (eapply (add_step _ _ _ _ 0 0 1 1 0 2);
        [reflexivity | reflexivity | cbn [length]; lia .. | cbn [nth]; now apply add_of_counts]).
  cbn [length app _sumw nth].
  erewrite bindM_ret by apply get_object_step. cbn [nth attr_sumw].
  erewrite bindM_ret by apply get_array_step. cbn [nth].
  reflexivity.
Qed.

End StoreFacts.

(** *** The dictionary of [nanoArray] *)

Module SampleGameFacts.

Import SampleGame.

Section Dict.

Context {Array : Type}.


Lemma getitem_setitem k k' (v : Array) (d : @dict Array) :
  getitem k (setitem k' v d) = if String.eqb k k' then Some v else getitem k d.
Proof.
  induction d as [|[k1 v1] d IH].
  - reflexivity.
  - cbn [setitem]. destruct (String.eqb k' k1) eqn:E1.
    + apply String.eqb_eq in E1. subst k1. cbn [getitem].
      destruct (String.eqb k k'); reflexivity.
    + cbn [getitem]. rewrite IH.
      destruct (String.eqb k k1) eqn:E2; [|reflexivity].
      apply String.eqb_eq in E2. subst k1.
      destruct (String.eqb k k') eqn:E3; [|reflexivity].
      apply String.eqb_eq in E3. subst k'. rewrite String.eqb_refl in E1. discriminate.
Qed.

Lemma getitem_none k (d : @dict Array) : getitem k d = None <-> ~ In k (map fst d).
Proof.
  induction d as [|[k1 v1] d IH]; cbn [getitem map fst In].
  - tauto.
  - destruct (String.eqb k k1) eqn:E.
    + apply String.eqb_eq in E. subst. split; [discriminate | tauto].
    + apply String.eqb_neq in E. rewrite IH. split; [intros H [H1 | H1]; congruence | tauto].
Qed.

Lemma keys_setitem k (v : Array) (d : @dict Array) :
  map fst (setitem k v d)
  = match getitem k d with
    | Some _ => map fst d
    | None => map fst d ++ [k]
    end.
Proof.
  induction d as [|[k1 v1] d IH]; [reflexivity|].
  cbn [setitem getitem]. destruct (String.eqb k k1) eqn:E; [reflexivity|].
  cbn [map fst]. rewrite IH. destruct (getitem k d); reflexivity.
Qed.

Lemma nodup_setitem k (v : Array) (d : @dict Array) :
  NoDup (map fst d) -> NoDup (map fst (setitem k v d)).
Proof.
  intros N. rewrite keys_setitem. destruct (getitem k d) eqn:E; [assumption|].
  apply getitem_none in E.
  apply NoDup_app; [assumption | repeat constructor; intros [] | ].
  intros x Hx [<- | []]. contradiction.
Qed.

Lemma getitem_update k (other : @dict Array) : forall d : @dict Array,
  NoDup (map fst other) ->
  getitem k (update d other)
  = match getitem k other with
    | Some v => Some v
    | None => getitem k d
    end.
Proof.
  induction other as [|[k1 v1] other IH]; intros d N; [reflexivity|].
  cbn [map fst] in N. inversion N as [|? ? N1 N2]; subst.
  change (update d ((k1, v1) :: other)) with (update (setitem k1 v1 d) other).
  rewrite (IH _ N2), getitem_setitem. cbn [getitem].
  destruct (String.eqb k k1) eqn:E; [|reflexivity].
  apply String.eqb_eq in E. subst k1.
  apply getitem_none in N1. now rewrite N1.
Qed.

Lemma nodup_update (other : @dict Array) : forall d : @dict Array,
  NoDup (map fst d) -> NoDup (map fst (update d other)).
Proof.
  induction other as [|[k1 v1] other IH]; intros d N; [assumption|].
  apply IH. now apply nodup_setitem.
Qed.

End Dict.

Section NanoArray.

Context {Exn Array Table : Type}.
Variable tree : string -> Exn + Array.

Lemma comprehension_reads prefix (arr : string -> Array) column_names : forall acc,
  (forall k, In k column_names -> tree (prefix ++ k)%string = inr (arr k)) ->
  NoDup (map fst acc) ->
  exists d,
    comprehension tree prefix column_names acc = inr d /\
    NoDup (map fst d) /\
    forall k, getitem k d
              = if in_dec string_dec k column_names then Some (arr k) else getitem k acc.
Proof.
  induction column_names as [|k1 t IH]; intros acc R N.
  - exists acc. split; [reflexivity|]. split; [assumption|]. intros k.
    destruct (in_dec string_dec k []) as [[]|]; reflexivity.
  - cbn [comprehension]. rewrite (R k1) by now left. cbn [bindE].
    destruct (IH (setitem k1 (arr k1) acc)) as (d & E & Nd & G).
    + intros k Hk. apply R. now right.
    + now apply nodup_setitem.
    + exists d. split; [assumption|]. split; [assumption|]. intros k. rewrite G.
      destruct (in_dec string_dec k t) as [I|I];
        destruct (in_dec string_dec k (k1 :: t)) as [J|J]; try reflexivity.
      * exfalso. apply J. now right.
      * rewrite getitem_setitem. destruct J as [<- | J]; [|contradiction].
        now rewrite String.eqb_refl.
      * rewrite getitem_setitem. destruct (String.eqb k k1) eqn:E1; [|reflexivity].
        apply String.eqb_eq in E1. subst. exfalso. apply J. now left.
Qed.

Lemma comprehension_raises prefix column_names k e : forall acc,
  In k column_names -> tree (prefix ++ k)%string = inl e ->
  exists e', comprehension tree prefix column_names acc = inl e'.
Proof.
  induction column_names as [|k1 t IH]; intros acc I E; [destruct I|].
  cbn [comprehension]. destruct (tree (prefix ++ k1)%string) as [e1|v1] eqn:E1.
  - exists e1. reflexivity.
  - cbn [bindE]. destruct I as [-> | I]; [congruence|]. now apply IH.
Qed.

End NanoArray.

End SampleGameFacts.

(** *** Jagged arrays and the selections of the processors *)

Module AwkwardFacts.

Import Numpy NumpyFacts HistogramFacts Awkward.

Lemma getitem_mask_map {A} (p : A -> bool) (a : list A) :
  getitem_mask a (map p a) = filter p a.
Proof.
  unfold getitem_mask. induction a as [|x a IH]; [reflexivity|].
  cbn [map combine filter snd]. destruct (p x); cbn [map fst]; now rewrite IH.
Qed.

Lemma getitem_jagged_elementwise {A} (p : A -> bool) (a : jagged A) :
  getitem_jagged a (elementwise p a) = map (filter p) a.
Proof.
  unfold getitem_jagged, elementwise. induction a as [|ev a IH]; [reflexivity|].
  cbn [map combine fst snd]. now rewrite getitem_mask_map, IH.
Qed.

Lemma sum_map {A} (p : A -> bool) (a : list A) :
  sum (map p a) = Z.of_nat (length (filter p a)).
Proof.
  unfold sum. f_equal. induction a as [|x a IH]; [reflexivity|].
  cbn [map filter]. destruct (p x); cbn [length]; now rewrite IH.
Qed.

Lemma any_elementwise {A} (p : A -> bool) (a : jagged A) :
  any (elementwise p a) = map (existsb p) a.
Proof.
  unfold any, elementwise. rewrite map_map. apply map_ext. intros ev.
  induction ev as [|x ev IH]; [reflexivity|]. cbn [map existsb]. now rewrite IH.
Qed.

Lemma counts_test {A} (t : Z -> bool) (a : jagged A) :
  map t (counts a) = map (fun ev => t (Z.of_nat (length ev))) a.
Proof. unfold counts. now rewrite map_map. Qed.

Lemma filter_length_le {A} (p : A -> bool) (a : list A) :
  length (filter p a) <= length a.
Proof.
  induction a as [|x a IH]; [reflexivity|]. cbn [filter]. destruct (p x); cbn [length]; lia.
Qed.

Lemma filter_length_mono {A} (p q : A -> bool) (a : list A) :
  (forall x, p x = true -> q x = true) ->
  length (filter p a) <= length (filter q a).
Proof.
  intros H. induction a as [|x a IH]; [reflexivity|]. cbn [filter].
  destruct (p x) eqn:P.
  - rewrite (H x P). cbn [length]. lia.
  - destruct (q x); cbn [length]; lia.
Qed.

Lemma filter_some {A} (p : A -> bool) (ev : list A) :
  0 < length (filter p ev) -> existsb p ev = true.
Proof.
  induction ev as [|x ev IH]; cbn [filter existsb length]; [lia|].
  destruct (p x); [reflexivity|]. exact IH.
Qed.

Lemma concat_pairs {A} (l : list (list A)) :
  length (concat (filter (fun ev => (Z.of_nat (length ev) =? 2)%Z) l))
  = 2 * length (filter (fun ev => (Z.of_nat (length ev) =? 2)%Z) l).
Proof.
  induction l as [|ev l IH]; [reflexivity|]. cbn [filter].
  destruct (Z.of_nat (length ev) =? 2)%Z eqn:E; [|exact IH].
  apply Z.eqb_eq in E. cbn [concat length]. rewrite length_app, IH. lia.
Qed.

End AwkwardFacts.

Module ProcessorFacts.

Import Float64 Numpy NumpyFacts HistogramFacts MoreProperties Awkward AwkwardFacts Processors.

Lemma lead_rows {P} (f g : P -> float) (rows : list P) :
  np_where (np_greater (map f rows) (map g rows)) (map f rows) (map g rows)
  = map (fun p => if PrimFloat.ltb (g p) (f p) then f p else g p) rows.
Proof.
  unfold np_where, np_greater.
  induction rows as [|p t IH]; [reflexivity|].
  cbn [map combine fst snd] in *. now rewrite IH.
Qed.

Lemma trail_rows {P} (f g : P -> float) (rows : list P) :
  np_where (np_invert (np_greater (map f rows) (map g rows))) (map f rows) (map g rows)
  = map (fun p => if PrimFloat.ltb (g p) (f p) then g p else f p) rows.
Proof.
  unfold np_where, np_invert, np_greater.
  induction rows as [|p t IH]; [reflexivity|].
  cbn [map combine fst snd] in *. rewrite IH.
  destruct (PrimFloat.ltb (g p) (f p)); reflexivity.
Qed.

Lemma cut_selected {Muon} (charge : Muon -> Z) (muons : jagged Muon) :
  zip_with andb
    (map (fun c => (c =? 2)%Z) (counts muons))
    (map (fun p => (p =? -1)%Z) (prod (elementwise charge muons)))
  = map (selected charge) muons.
Proof.
  unfold counts, prod, elementwise. rewrite !map_map.
  rewrite (zip_with_map andb). reflexivity.
Qed.

Lemma selected_mass {Muon} (charge : Muon -> Z) (pair_mass : Muon * Muon -> float) ev :
  map pair_mass (pairs_of (if selected charge ev then ev else []))
  = dimuon_mass charge pair_mass ev.
Proof.
  unfold selected, dimuon_mass.
  destruct ev as [|m0 [|m1 [|m2 t]]]; try reflexivity.
  - cbn [length map fold_right]. rewrite Z.mul_1_r.
    change (Z.of_nat 2 =? 2)%Z with true. cbn [andb].
    destruct (charge m0 * charge m1 =? -1)%Z; reflexivity.
  - replace (Z.of_nat (length (m0 :: m1 :: m2 :: t)) =? 2)%Z with false; [reflexivity|].
    symmetry. apply Z.eqb_neq. cbn [length]. lia.
Qed.

Lemma selection_pipeline {Muon} (charge softId : Muon -> Z)
    (pair_mass : Muon * Muon -> float) (muons : jagged Muon) :
  flatten
    (filter (fun ev => (Z.of_nat (length ev) =? 2)%Z)
       (map (filter (fun p => PrimFloat.ltb 35 (pair_mass p)))
          (map (filter (fun p =>
                          (wrap32 (charge (fst p) * charge (snd p)) =? -1)%Z))
             (filter (fun ev => (2 <=? Z.of_nat (length ev))%Z)
                (map pairs_of
                   (filter (fun ev => (2 <=? Z.of_nat (length ev))%Z)
                      (map (filter (fun m => (0 <? softId m)%Z)) muons)))))))
  = selected_dimuons charge softId pair_mass muons.
Proof.
  unfold flatten, selected_dimuons.
  induction muons as [|ev muons IH]; [reflexivity|].
  cbn [map filter flat_map]. unfold event_dimuons at 1.
  destruct (2 <=? Z.of_nat (length (filter (fun m => (0 <? softId m)%Z) ev)))%Z;
    [|exact IH].
  cbn [map filter].
  destruct (2 <=? Z.of_nat
                    (length (pairs_of (filter (fun m => (0 <? softId m)%Z) ev))))%Z;
    [|exact IH].
  cbn [map filter].
  match goal with
  | |- context [(Z.of_nat (length ?k) =? 2)%Z] =>
      destruct (Z.of_nat (length k) =? 2)%Z
  end; [|exact IH].
  cbn [concat]. now rewrite IH.
Qed.

End ProcessorFacts.

(** ** Part IV.  The properties of the specification *)

Module Claims.

Import Float64 Float64Facts Numpy NumpyFacts Notebook Properties Examples HistogramFacts NotebookFacts.

Ltac by_one_fill w :=
  apply (reach_fill {| _binning := unit_edges; _sumw := [PrimFloat.zero] |}
           [0.5%float] (Some [w]));
  [ apply (reach_init unit_edges); reflexivity | vm_compute; reflexivity ].

(** C1, as stated, fails on float64 cells: merging the histograms of weights
    0.1, 0.2 and 0.3 gives 0.6000000000000001 grouped to the left and 0.6
    grouped to the right. *)
Example merge_not_associative :
  reachable (weighted tenth) /\ reachable (weighted fifth) /\
  reachable (weighted three_tenths) /\
  cells (merge_left (weighted tenth) (weighted fifth) (weighted three_tenths))
    = Ret [0x1.3333333333334p-1%float] /\
  cells (merge_right (weighted tenth) (weighted fifth) (weighted three_tenths))
    = Ret [0x1.3333333333333p-1%float] /\
  ~ same_value 0x1.3333333333334p-1%float 0x1.3333333333333p-1%float.
Proof.
  repeat split; try reflexivity.
  - by_one_fill tenth.
  - by_one_fill fifth.
  - by_one_fill three_tenths.
  - intros [H|H].
    + apply (f_equal Prim2SF) in H. vm_compute in H. discriminate H.
    + vm_compute in H. discriminate H.
Qed.

(** C1, amended.  Over identical binning the merge [myTH1.__add__] is
    commutative for all cells, bit for bit; it is associative, in the three
    groupings of the claim, when the cells hold integer counts whose total
    stays below 2^53, the range in which float64 adds integers exactly.
    [add_histos] is commutative on the sums for every dtype, and associative
    on the [int64] counts that [np.histogram] returns, wrap-around included. *)
Theorem merge_commutative_associative_on_counts (h1 h2 h3 : myTH1) :
  wf h1 -> wf h2 -> wf h3 ->
  np_array_equal (_binning h1) (_binning h2) = true ->
  np_array_equal (_binning h2) (_binning h3) = true ->
  (exists s, cells (__add__ h1 h2) = Ret s /\ cells (__add__ h2 h1) = Ret s) /\
  (forall M1 M2 M3 c1 c2 c3,
      counts_upto M1 h1 c1 -> counts_upto M2 h2 c2 -> counts_upto M3 h3 c3 ->
      (M1 + M2 + M3 < 2 ^ 53)%Z ->
      exists s,
        cells (merge_left h1 h2 h3) = Ret s /\
        cells (merge_right h1 h2 h3) = Ret s /\
        cells (merge_right h2 h1 h3) = Ret s) /\
  (forall a1 a2 : ndarray,
      sums (add_histos (a1, _binning h1) (a2, _binning h2))
      = sums (add_histos (a2, _binning h2) (a1, _binning h1))) /\
  (forall x1 x2 x3 : list Z,
      length x1 = length x2 -> length x2 = length x3 ->
      exists s,
        sums (g <- add_histos (Int64 x1, _binning h1) (Int64 x2, _binning h2) ;;
              add_histos g (Int64 x3, _binning h3)) = Ret (Int64 s) /\
        sums (g <- add_histos (Int64 x2, _binning h2) (Int64 x3, _binning h3) ;;
              add_histos (Int64 x1, _binning h1) g) = Ret (Int64 s) /\
        sums (g <- add_histos (Int64 x1, _binning h1) (Int64 x3, _binning h3) ;;
              add_histos (Int64 x2, _binning h2) g) = Ret (Int64 s)).
Proof.
  intros W1 W2 W3 E12 E23.
  assert (E21 : np_array_equal (_binning h2) (_binning h1) = true)
    by (rewrite np_array_equal_sym; exact E12).
  assert (E32 : np_array_equal (_binning h3) (_binning h2) = true)
    by (rewrite np_array_equal_sym; exact E23).
  assert (E31 : np_array_equal (_binning h3) (_binning h1) = true)
    by (eapply np_array_equal_trans; eauto).
  assert (E13 : np_array_equal (_binning h1) (_binning h3) = true)
    by (rewrite np_array_equal_sym; exact E31).
  split; [|split; [|split]].
  4:{ intros x1 x2 x3 L12 L23.
      exists (zip_with add64 (zip_with add64 x1 x2) x3).
      rewrite (add_histos_int64 x1 x2 _ _ L12 E12), (add_histos_int64 x2 x3 _ _ L23 E23),
        (add_histos_int64 x1 x3 _ _ (eq_trans L12 L23) E13).
      cbn [bind].
      rewrite (add_histos_int64 (zip_with add64 x1 x2) x3 _ _), (add_histos_int64 x1 (zip_with add64 x2 x3) _ _),
        (add_histos_int64 x2 (zip_with add64 x1 x3) _ _);
        try assumption; try (rewrite zip_with_length; lia).
      cbn. repeat split.
      - now rewrite (zip_with_assoc add64 x1 x2 x3 add64_assoc).
      - rewrite <- (zip_with_assoc add64 x2 x1 x3 add64_assoc).
        now rewrite (zip_with_comm add64 x2 x1 add64_comm). }
  3:{ intros a1 a2. apply add_histos_comm. }
  - exists (zip_with PrimFloat.add (_sumw h1) (_sumw h2)).
    rewrite (add_returns h1 h2 W1 W2 E21), (add_returns h2 h1 W2 W1 E12).
    cbn. split; [reflexivity|].
    now rewrite (zip_with_comm PrimFloat.add (_sumw h2) (_sumw h1) add_comm).
  - intros M1 M2 M3 c1 c2 c3 C1 C2 C3 HM.
    assert (P1 : (0 <= M1)%Z /\ (0 <= M2)%Z /\ (0 <= M3)%Z \/
                 (c1 = [] \/ c2 = [] \/ c3 = [])).
    { destruct C1 as [_ F1], C2 as [_ F2], C3 as [_ F3].
      destruct F1 as [|x1 ? ? _]; [right; auto|].
      destruct F2 as [|x2 ? ? _]; [right; auto|].
      destruct F3 as [|x3 ? ? _]; [right; auto|].
      left. lia. }
    exists (map of_count (zip_with Z.add (zip_with Z.add c1 c2) c3)).
    assert (L : forall M N, (0 <= N)%Z -> forall cs,
               Forall (fun c => 0 <= c <= M)%Z cs -> Forall (fun c => 0 <= c <= M + N)%Z cs).
    { intros M N HN cs F. eapply Forall_impl; [|exact F]. cbn. intros; lia. }
    destruct P1 as [(P1 & P2 & P3)|Empty].
    + (* left grouping *)
      destruct (add_counts M1 M2 h1 h2 c1 c2 W1 W2 E21 C1 C2) as (x & Ex & Bx & Wx & Cx); [lia|].
      assert (E3x : np_array_equal (_binning h3) (_binning x) = true) by (rewrite Bx; exact E31).
      destruct (add_counts (M1 + M2) M3 x h3 _ c3 Wx W3 E3x Cx C3) as (l & El & _ & _ & Cl); [lia|].
      (* right grouping *)
      destruct (add_counts M2 M3 h2 h3 c2 c3 W2 W3 E32 C2 C3) as (y & Ey & By & Wy & Cy); [lia|].
      assert (Ey1 : np_array_equal (_binning y) (_binning h1) = true) by (rewrite By; exact E21).
      destruct (add_counts M1 (M2 + M3) h1 y c1 _ W1 Wy Ey1 C1 Cy) as (m & Em & _ & _ & Cm); [lia|].
      (* the third grouping *)
      destruct (add_counts M1 M3 h1 h3 c1 c3 W1 W3 E31 C1 C3) as (z & Ez & Bz & Wz & Cz); [lia|].
      assert (Ez2 : np_array_equal (_binning z) (_binning h2) = true) by (rewrite Bz; exact E12).
      destruct (add_counts M2 (M1 + M3) h2 z c2 _ W2 Wz Ez2 C2 Cz) as (r & Er & _ & _ & Cr); [lia|].
      unfold merge_left, merge_right, cells.
      rewrite Ex, Ey, Ez. cbn [bind]. rewrite El, Em, Er. cbn [bind].
      destruct Cl as [-> _], Cm as [-> _], Cr as [-> _].
      repeat split.
      * now rewrite (zip_with_assoc Z.add c1 c2 c3 (fun a b c => eq_sym (Z.add_assoc a b c))).
      * rewrite <- (zip_with_assoc Z.add c2 c1 c3 (fun a b c => eq_sym (Z.add_assoc a b c))).
        now rewrite (zip_with_comm Z.add c2 c1 Z.add_comm).
    + (* no bins at all: every sum is the empty array *)
      assert (S1 : _sumw h1 = map of_count c1) by apply C1.
      assert (S2 : _sumw h2 = map of_count c2) by apply C2.
      assert (S3 : _sumw h3 = map of_count c3) by apply C3.
      pose proof (np_array_equal_length _ _ E12) as L12.
      pose proof (np_array_equal_length _ _ E23) as L23.
      assert (N1 : c1 = [] /\ c2 = [] /\ c3 = []).
      { unfold wf in *. rewrite S1 in W1. rewrite S2 in W2. rewrite S3 in W3.
        rewrite length_map in *.
        assert (length c1 = 0) by (destruct Empty as [-> | [-> | ->]]; cbn in *; lia).
        repeat split; apply length_zero_iff_nil; lia. }
      destruct N1 as (-> & -> & ->). cbn in S1, S2, S3.
      unfold merge_left, merge_right, cells.
      rewrite (add_returns h1 h2 W1 W2 E21), (add_returns h2 h3 W2 W3 E32),
        (add_returns h1 h3 W1 W3 E31). cbn [bind].
      rewrite !add_returns; cbn [_binning _sumw]; try assumption;
        try (unfold wf in *; cbn [_binning _sumw]; rewrite ?S1, ?S2, ?S3 in *; cbn in *; lia).
      rewrite S1, S2, S3. cbn. repeat split; reflexivity.
Qed.

Lemma counted_upto M cs :
  forallb (fun c => (0 <=? c) && (c <=? M))%Z cs = true -> counts_upto M (counted cs) cs.
Proof.
  intros H. split; [reflexivity|].
  apply Forall_forall. intros c Hc.
  rewrite forallb_forall in H. specialize (H c Hc). lia.
Defined.

Lemma merge_commutative_associative_on_counts_witness :
  wf (counted [1; 2; 0]%Z) /\ wf (counted [0; 1; 1]%Z) /\ wf (counted [2; 0; 0]%Z) /\
  np_array_equal four_edges four_edges = true /\
  (exists s, cells (__add__ (counted [1; 2; 0]%Z) (counted [0; 1; 1]%Z)) = Ret s /\
             cells (__add__ (counted [0; 1; 1]%Z) (counted [1; 2; 0]%Z)) = Ret s) /\
  (exists s,
      cells (merge_left (counted [1; 2; 0]%Z) (counted [0; 1; 1]%Z) (counted [2; 0; 0]%Z)) = Ret s /\
      cells (merge_right (counted [1; 2; 0]%Z) (counted [0; 1; 1]%Z) (counted [2; 0; 0]%Z)) = Ret s /\
      cells (merge_right (counted [0; 1; 1]%Z) (counted [1; 2; 0]%Z) (counted [2; 0; 0]%Z)) = Ret s).
Proof.
  assert (W1 : wf (counted [1; 2; 0]%Z)) by reflexivity.
  assert (W2 : wf (counted [0; 1; 1]%Z)) by reflexivity.
  assert (W3 : wf (counted [2; 0; 0]%Z)) by reflexivity.
  assert (E : np_array_equal four_edges four_edges = true) by reflexivity.
  destruct (merge_commutative_associative_on_counts _ _ _ W1 W2 W3 E E) as (C & A & _).
  repeat split; try assumption.
  apply (A 2 1 2 [1; 2; 0] [0; 1; 1] [2; 0; 0])%Z;
    try (apply counted_upto; reflexivity); reflexivity.
Defined.

(** C2, as stated, fails on weighted events: three events in one bin, with
    the values 0.25, 0.5, 0.75 and the weights 0.1, 0.2, 0.3, filled in one
    call leave 0.6000000000000001; split into the chunks of the first event
    and of the other two, each filled into a fresh histogram, and the parts
    added up from a fresh one, they leave 0.6. *)
Example chunked_differs_for_weights :
  (h <- __init__ unit_edges ;;
   fill h [0.25; 0.5; 0.75]%float (Some [tenth; fifth; three_tenths]))
  = Ret {| _binning := unit_edges; _sumw := [0x1.3333333333334p-1%float] |} /\
  (p1 <- (h <- __init__ unit_edges ;; fill h [0.25%float] (Some [tenth])) ;;
   p2 <- (h <- __init__ unit_edges ;;
          fill h [0.5; 0.75]%float (Some [fifth; three_tenths])) ;;
   identity <- __init__ unit_edges ;;
   reduce identity [p1; p2])
  = Ret {| _binning := unit_edges; _sumw := [0x1.3333333333333p-1%float] |} /\
  ~ same_value 0x1.3333333333334p-1%float 0x1.3333333333333p-1%float.
Proof.
  split; [vm_compute; reflexivity|]. split; [vm_compute; reflexivity|].
  intros [H | H]; [|discriminate H].
  apply (f_equal Prim2SF) in H. vm_compute in H. discriminate H.
Qed.

(** C2, amended.  Chunked equals whole, for events without weights.  The
    chunks hold the events in any split and order; each chunk fills a fresh
    histogram, and the parts are added up from a fresh one.  The result is
    the histogram of a single fill of all events, error for error and cell
    for cell.  The binning is valid (numbers that never decrease), and the
    events are fewer than 2^53: the range in which a float64 cell counts
    without rounding. *)
Theorem chunked_equals_whole (binning : list float) (chunks : list (list float))
    (events : list float) :
  valid_edges binning = true ->
  Permutation (concat chunks) events ->
  (Z.of_nat (length events) < 2 ^ 53)%Z ->
  run_chunks binning chunks = process binning events /\
  (binning <> [] -> exists h, process binning events = Ret h).
Proof.
  intros V P HM.
  destruct binning as [|e t] eqn:B.
  - split; [|congruence].
    unfold run_chunks, process. destruct chunks as [|c chunks]; reflexivity.
  - rewrite <- B in *. assert (NE : binning <> []) by (rewrite B; discriminate).
    assert (HC : (Z.of_nat (length (concat chunks)) < 2 ^ 53)%Z)
      by (rewrite (Permutation_length P); exact HM).
    rewrite (process_counts binning events NE V HM).
    split; [|intros _; eexists; reflexivity].
    unfold run_chunks. rewrite (mapM_process binning chunks NE V HC). cbn [bind].
    rewrite (init_counts binning NE). cbn [bind].
    rewrite (reduce_counts binning chunks [] NE V HC). cbn [app].
    now rewrite (hist_counts_perm _ _ binning P).
Qed.

Lemma chunked_equals_whole_witness :
  valid_edges four_edges = true /\
  Permutation (concat [[1.5; -1]; []; [0.5; 3.5; 1.5]]%float) [-1; 0.5; 1.5; 1.5; 3.5]%float /\
  (Z.of_nat (length [-1; 0.5; 1.5; 1.5; 3.5]%float) < 2 ^ 53)%Z /\
  run_chunks four_edges [[1.5; -1]; []; [0.5; 3.5; 1.5]]%float
  = process four_edges [-1; 0.5; 1.5; 1.5; 3.5]%float.
Proof.
  assert (V : valid_edges four_edges = true) by reflexivity.
  assert (P : Permutation (concat [[1.5; -1]; []; [0.5; 3.5; 1.5]]%float)
                [-1; 0.5; 1.5; 1.5; 3.5]%float).
  { cbn [concat app].
    apply (perm_trans (perm_swap _ _ _)). apply perm_skip.
    apply (perm_trans (perm_swap _ _ _)). apply perm_skip.
    apply perm_skip. apply perm_swap. }
  assert (HM : (Z.of_nat (length [-1; 0.5; 1.5; 1.5; 3.5]%float) < 2 ^ 53)%Z)
    by reflexivity.
  exact (conj V (conj P (conj HM (proj1 (chunked_equals_whole _ _ _ V P HM))))).
Defined.

(** C3.  Merging the identity, a fresh histogram over the binning of [h],
    with [h] returns the binning and the cell values of [h].  The binning is
    a sequence of numbers, as the axis invariant of the data model has it. *)
Theorem merge_identity (h : myTH1) :
  wf h -> forallb is_num (_binning h) = true ->
  exists r,
    (identity <- __init__ (_binning h) ;; __add__ identity h) = Ret r /\
    _binning r = _binning h /\
    Forall2 same_value (_sumw r) (_sumw h).
Proof.
  intros W N.
  destruct (_binning h) as [|e t] eqn:B; [unfold wf in W; rewrite B in W; cbn in W; lia|].
  rewrite init_cons. cbn [bind].
  set (zero := {| _binning := e :: t; _sumw := repeat PrimFloat.zero (length t) |}).
  assert (Wz : wf zero) by (unfold wf, zero; cbn; rewrite repeat_length; lia).
  assert (E : np_array_equal (_binning h) (_binning zero) = true).
  { unfold zero. cbn [_binning]. rewrite B. apply np_array_equal_refl. exact N. }
  eexists. split; [apply (add_returns zero h Wz W E)|].
  cbn [_binning _sumw zero]. split; [reflexivity|].
  assert (L : length (_sumw h) = length t) by (unfold wf in W; rewrite B in W; cbn in W; lia).
  clear - L. revert L. generalize (_sumw h) as s. generalize (length t) as n.
  induction n as [|n IH]; intros [|x s] L; try discriminate; cbn [repeat].
  - constructor.
  - rewrite zip_with_cons. constructor; [apply add_zero_l|].
    apply IH. now injection L.
Qed.

Lemma merge_identity_witness :
  wf (counted [1; 2; 0]%Z) /\ forallb is_num four_edges = true /\
  exists r,
    (identity <- __init__ four_edges ;; __add__ identity (counted [1; 2; 0]%Z)) = Ret r /\
    _binning r = four_edges /\
    Forall2 same_value (_sumw r) (map of_count [1; 2; 0]%Z).
Proof.
  assert (W : wf (counted [1; 2; 0]%Z)) by reflexivity.
  assert (N : forallb is_num (_binning (counted [1; 2; 0]%Z)) = true) by reflexivity.
  exact (conj W (conj N (merge_identity _ W N))).
Defined.

Lemma binning_differs_iff b1 b2 :
  binning_differs b1 b2 <-> np_array_equal b1 b2 = false.
Proof.
  unfold binning_differs. split.
  - intros D. destruct (np_array_equal b1 b2) eqn:E; [exfalso|reflexivity].
    apply np_array_equal_iff in E. destruct D as [D|(i & x & y & Hx & Hy & Ne)].
    + apply D. exact (Forall2_length E).
    + revert i Hx Hy. induction E as [|u v a b Huv _ IH]; intros [|i] Hx Hy;
        try discriminate.
      * cbn in Hx, Hy. congruence.
      * exact (IH i Hx Hy).
  - revert b2. induction b1 as [|x a IH]; intros [|y b] E.
    + discriminate.
    + left. discriminate.
    + left. discriminate.
    + destruct (PrimFloat.eqb x y) eqn:Exy.
      * assert (E' : np_array_equal a b = false).
        { destruct (np_array_equal a b) eqn:F; [|reflexivity].
          rewrite <- E. symmetry. apply np_array_equal_iff.
          constructor; [exact Exy|]. now apply np_array_equal_iff. }
        destruct (IH b E') as [D|(i & u & v & Hu & Hv & Ne)].
        -- left. cbn [length]. lia.
        -- right. exists (S i), u, v. auto.
      * right. exists 0, x, y. auto.
Qed.

(** C4.  A merge of two histograms whose binnings differ raises the
    ValueError of inconsistent binning, for [myTH1.__add__] and for
    [add_histos]; a merge that returns had identical binnings; and on
    identical binnings the merge of two histograms returns. *)
Theorem merge_binning_mismatch (h1 h2 : myTH1) (s1 s2 : ndarray) :
  (binning_differs (_binning h1) (_binning h2) ->
   __add__ h1 h2 = Raise IncompatibleBinning /\
   add_histos (s1, _binning h1) (s2, _binning h2) = Raise IncompatibleBinning) /\
  (forall h, __add__ h1 h2 = Ret h -> ~ binning_differs (_binning h1) (_binning h2)) /\
  (forall g, add_histos (s1, _binning h1) (s2, _binning h2) = Ret g ->
             ~ binning_differs (_binning h1) (_binning h2)) /\
  (wf h1 -> wf h2 -> ~ binning_differs (_binning h1) (_binning h2) ->
   exists h, __add__ h1 h2 = Ret h).
Proof.
  repeat split.
  - apply add_fails. rewrite np_array_equal_sym. now apply binning_differs_iff.
  - apply binning_differs_iff in H. unfold add_histos.
    rewrite np_all_eq_array_equal, H. reflexivity.
  - intros h E D. apply add_inv in E. destruct E as [E _].
    apply binning_differs_iff in D. rewrite np_array_equal_sym in E. congruence.
  - intros g E D. apply binning_differs_iff in D. unfold add_histos in E.
    rewrite np_all_eq_array_equal, D in E. discriminate.
  - intros W1 W2 D. eexists. apply add_returns; try assumption.
    rewrite np_array_equal_sym.
    destruct (np_array_equal (_binning h1) (_binning h2)) eqn:E; [reflexivity|].
    exfalso. apply D. now apply binning_differs_iff.
Qed.

Lemma merge_binning_mismatch_witness :
  binning_differs four_edges unit_edges /\
  __add__ (counted [1; 2; 0]%Z) (weighted tenth) = Raise IncompatibleBinning /\
  add_histos (Int64 [1; 2; 0]%Z, four_edges) (Float64 [tenth], unit_edges)
    = Raise IncompatibleBinning.
Proof.
  assert (D : binning_differs four_edges unit_edges) by (left; discriminate).
  split; [exact D|].
  exact (proj1 (merge_binning_mismatch (counted [1; 2; 0]%Z) (weighted tenth)
                  (Int64 [1; 2; 0]%Z) (Float64 [tenth])) D).
Defined.

(** C5, as stated, fails: the histogram over the edges [0, 1, 2, 3] has three
    cells and no underflow or overflow cell; the values -1 and 3.5 are
    dropped, so that the five values leave a total of three.  And a value on
    the last edge belongs to the last bin, which is closed to the right. *)
Example no_underflow_overflow_cells :
  process four_edges scenario_values
  = Ret {| _binning := four_edges; _sumw := [1; 2; 0]%float |} /\
  Forall (fun bin => bin (-1)%float = false /\ bin 3.5%float = false)
    (doc_bins four_edges) /\
  process four_edges [3%float]
  = Ret {| _binning := four_edges; _sumw := [0; 0; 1]%float |}.
Proof.
  split; [vm_compute; reflexivity|]. split; [|vm_compute; reflexivity].
  repeat constructor.
Qed.

(** C5, amended.  Filling the scenario's values over the edges [0, 1, 2, 3]
    leaves bin [0,1) = 1, bin [1,2) = 2, bin [2,3] = 0 and nothing else.  In
    general, over a valid binning, cell [i] counts the values [v] with
    [edge i <= v < edge (i+1)], the last bin taking [v = edge (i+1)] too; a
    value is in at most one bin; a value below the first edge, above the last
    one, or NaN, is in none: it is dropped. *)
Theorem histogram_bins (edges values : list float) :
  edges <> [] -> valid_edges edges = true ->
  (Z.of_nat (length values) < 2 ^ 53)%Z ->
  process four_edges scenario_values
  = Ret {| _binning := four_edges; _sumw := [1; 2; 0]%float |} /\
  process edges values
  = Ret {| _binning := edges;
           _sumw := map (fun bin => of_count (count_if bin values)) (doc_bins edges) |} /\
  (forall v i j bi bj,
      nth_error (doc_bins edges) i = Some bi -> bi v = true ->
      nth_error (doc_bins edges) j = Some bj -> bj v = true -> i = j) /\
  (forall v,
      PrimFloat.ltb v (hd v edges) = true \/ PrimFloat.ltb (last edges v) v = true \/
      is_num v = false ->
      Forall (fun bin => bin v = false) (doc_bins edges)).
Proof.
  intros NE V HM. split; [vm_compute; reflexivity|]. split; [|split].
  - rewrite (process_counts edges values NE V HM), (hist_counts_doc values edges V).
    now rewrite map_map.
  - intros v. apply (doc_bins_unique v edges V).
  - intros v. destruct edges as [|lo t]; [congruence|]. cbn [hd].
    intros [L|[L|L]].
    + apply doc_bins_below; assumption.
    + apply doc_bins_above; [assumption|].
      now rewrite (last_default lo t lo v).
    + apply doc_bins_nan. exact L.
Qed.

Lemma histogram_bins_witness :
  four_edges <> [] /\ valid_edges four_edges = true /\
  (Z.of_nat (length [3; 0.5; 7]%float) < 2 ^ 53)%Z /\
  process four_edges [3; 0.5; 7]%float
  = Ret {| _binning := four_edges;
           _sumw := map (fun bin => of_count (count_if bin [3; 0.5; 7]%float))
                      (doc_bins four_edges) |}.
Proof.
  assert (NE : four_edges <> []) by discriminate.
  assert (V : valid_edges four_edges = true) by reflexivity.
  assert (HM : (Z.of_nat (length [3; 0.5; 7]%float) < 2 ^ 53)%Z) by reflexivity.
  exact (conj NE (conj V (conj HM
           (proj1 (proj2 (histogram_bins four_edges [3; 0.5; 7]%float NE V HM)))))).
Defined.

(** C6, as stated, fails on weighted events: three events in one bin with
    weights 0.1, 0.2, 0.3, filled one after the other into a fresh histogram,
    leave 0.6000000000000001 in that order and 0.6 in the reverse order. *)
Example fill_order_matters_for_weights :
  (h <- __init__ unit_edges ;;
   fill_each h [(0.5, Some tenth); (0.5, Some fifth); (0.5, Some three_tenths)]%float)
  = Ret {| _binning := unit_edges; _sumw := [0x1.3333333333334p-1%float] |} /\
  (h <- __init__ unit_edges ;;
   fill_each h [(0.5, Some three_tenths); (0.5, Some fifth); (0.5, Some tenth)]%float)
  = Ret {| _binning := unit_edges; _sumw := [0x1.3333333333333p-1%float] |} /\
  Permutation [(0.5, Some tenth); (0.5, Some fifth); (0.5, Some three_tenths)]%float
    [(0.5, Some three_tenths); (0.5, Some fifth); (0.5, Some tenth)]%float /\
  ~ same_value 0x1.3333333333334p-1%float 0x1.3333333333333p-1%float.
Proof.
  repeat split; try (vm_compute; reflexivity).
  - apply (perm_trans (perm_swap _ _ _)).
    apply (perm_trans (perm_skip _ (perm_swap _ _ _))). apply perm_swap.
  - intros [H|H].
    + apply (f_equal Prim2SF) in H. vm_compute in H. discriminate H.
    + vm_compute in H. discriminate H.
Qed.

(** C6, amended.  For events without weights, the order of filling does not
    show in the cells: a fill of a permutation of the values gives the same
    result, and, over a valid binning and fewer than 2^53 values, so does one
    fill per value in any order. *)
Theorem fill_order_independent_unweighted (binning values values' : list float) :
  Permutation values values' ->
  process binning values = process binning values' /\
  (binning <> [] -> valid_edges binning = true ->
   (Z.of_nat (length values) < 2 ^ 53)%Z ->
   exists h,
     process binning values = Ret h /\
     (f <- __init__ binning ;; fill_each f (unweighted values)) = Ret h /\
     (f <- __init__ binning ;; fill_each f (unweighted values')) = Ret h).
Proof.
  intros P. split.
  - unfold process, fill, np_histogram, search_sorted_inclusive.
    destruct (__init__ binning) as [h|e]; [|reflexivity]. cbn [bind].
    destruct (any_decreasing (_binning h)); [reflexivity|].
    assert (E : map (fun p => count_if p values) (searches (_binning h))
                = map (fun p => count_if p values') (searches (_binning h))).
    { apply map_ext. intros p. apply count_if_perm. exact P. }
    rewrite E. reflexivity.
  - intros NE V HM. eexists. split; [apply (process_counts binning values NE V HM)|].
    rewrite (init_counts binning NE). cbn [bind]. unfold unweighted.
    rewrite (fill_each_counts binning values [] NE V HM).
    rewrite (fill_each_counts binning values' [] NE V)
      by (cbn [app]; rewrite <- (Permutation_length P); exact HM).
    cbn [app]. rewrite (hist_counts_perm _ _ binning P). split; reflexivity.
Qed.

Lemma fill_order_independent_unweighted_witness :
  Permutation [0.5; 1.5; 2.5]%float [2.5; 0.5; 1.5]%float /\
  process four_edges [0.5; 1.5; 2.5]%float = process four_edges [2.5; 0.5; 1.5]%float /\
  exists h,
    process four_edges [0.5; 1.5; 2.5]%float = Ret h /\
    (f <- __init__ four_edges ;; fill_each f (unweighted [0.5; 1.5; 2.5]%float)) = Ret h /\
    (f <- __init__ four_edges ;; fill_each f (unweighted [2.5; 0.5; 1.5]%float)) = Ret h.
Proof.
  assert (P : Permutation [0.5; 1.5; 2.5]%float [2.5; 0.5; 1.5]%float).
  { apply Permutation_sym. apply (perm_trans (perm_swap _ _ _)).
    apply perm_skip. apply perm_swap. }
  assert (NE : four_edges <> []) by discriminate.
  assert (V : valid_edges four_edges = true) by reflexivity.
  assert (HM : (Z.of_nat (length [0.5; 1.5; 2.5]%float) < 2 ^ 53)%Z) by reflexivity.
  destruct (fill_order_independent_unweighted four_edges _ _ P) as [A B].
  exact (conj P (conj A (B NE V HM))).
Defined.

(** C7.  On a growable axis that knows no label yet, the fills "A", "B", "A"
    of weight 1 create the bin of "A" at the first fill and the bin of "B" at
    the second; the identifiers are then ["A"; "B"], in first-seen order, with
    A = 2 and B = 1.  In general a fill with a new label appends its bin
    and a fill with a known label adds to the cell of that label. *)
Theorem categorical_growth :
  (exists h1 h2 h3,
      CatHist.fill (CatHist.identity true []) "A" 1%float = inr h1 /\
      CatHist.identifiers h1 = ["A"%string] /\
      CatHist.fill h1 "B" 1%float = inr h2 /\
      CatHist.identifiers h2 = ["A"%string; "B"%string] /\
      CatHist.fill h2 "A" 1%float = inr h3 /\
      CatHist.identifiers h3 = ["A"%string; "B"%string] /\
      CatHist.value h3 "A" = Some 2%float /\
      CatHist.value h3 "B" = Some 1%float) /\
  (forall h label w,
      CatHist.shaped h ->
      CatHist.lookup label (CatHist.labels (CatHist.axis h)) = None ->
      CatHist.growable (CatHist.axis h) = true ->
      CatHist.fill h label w
      = inr {| CatHist.axis :=
                 {| CatHist.labels := CatHist.labels (CatHist.axis h) ++ [label];
                    CatHist.growable := true |};
               CatHist.cells := CatHist.cells h ++ [PrimFloat.add PrimFloat.zero w] |}) /\
  (forall h label w i,
      CatHist.shaped h ->
      CatHist.lookup label (CatHist.labels (CatHist.axis h)) = Some i ->
      CatHist.fill h label w
      = inr {| CatHist.axis := CatHist.axis h;
               CatHist.cells := CatHist.add_at i w (CatHist.cells h) |}).
Proof.
  split; [|split].
  - do 3 eexists. repeat split; vm_compute; reflexivity.
  - apply CatHistFacts.fill_new.
  - apply CatHistFacts.fill_known.
Qed.

(** C8.  The cell array of a [myTH1] that was constructed, filled and added
    any number of times has one entry less than the binning has edges: [B]
    entries for [B + 1] edges.  On the growable axis the cells stay one per
    label through any fills, and a new label grows labels and cells together,
    at the end. *)
Theorem shape_invariant (h : myTH1) (g g' : CatHist.Hist)
    (events : list (string * float)) :
  reachable h ->
  CatHist.shaped g -> CatHist.fill_all g events = inr g' ->
  (forall B, length (_binning h) = B + 1 -> length (_sumw h) = B) /\
  (exists B, length (_binning h) = B + 1) /\
  CatHist.shaped g' /\
  (forall label w,
      CatHist.lookup label (CatHist.labels (CatHist.axis g')) = None ->
      CatHist.growable (CatHist.axis g') = true ->
      exists g'',
        CatHist.fill g' label w = inr g'' /\ CatHist.shaped g'' /\
        CatHist.labels (CatHist.axis g'') = CatHist.labels (CatHist.axis g') ++ [label] /\
        firstn (length (CatHist.cells g')) (CatHist.cells g'') = CatHist.cells g').
Proof.
  intros R S E. pose proof (reachable_wf h R) as W. unfold wf in W.
  pose proof (CatHistFacts.fill_all_shaped events g g' S E) as S'.
  split; [intros B HB; lia|]. split; [exists (length (_sumw h)); lia|].
  split; [exact S'|].
  intros label w L G. eexists.
  split; [apply (CatHistFacts.fill_new g' label w S' L G)|].
  cbn [CatHist.axis CatHist.labels CatHist.cells].
  split; [|split].
  - unfold CatHist.shaped in *. cbn. rewrite !length_app, S'. reflexivity.
  - reflexivity.
  - rewrite firstn_app, Nat.sub_diag, firstn_all. cbn [firstn]. apply app_nil_r.
Qed.

Lemma counted_reachable :
  reachable {| _binning := four_edges; _sumw := [1; 2; 0]%float |}.
Proof.
  apply (reach_fill {| _binning := four_edges; _sumw := [0; 0; 0]%float |}
           scenario_values None).
  - apply (reach_init four_edges). reflexivity.
  - vm_compute. reflexivity.
Defined.

Lemma shape_invariant_witness :
  reachable {| _binning := four_edges; _sumw := [1; 2; 0]%float |} /\
  CatHist.shaped (CatHist.identity true []) /\
  CatHist.fill_all (CatHist.identity true []) [("A"%string, 1%float); ("B"%string, 1%float)]
  = inr {| CatHist.axis := {| CatHist.labels := ["A"%string; "B"%string];
                              CatHist.growable := true |};
           CatHist.cells := [1; 1]%float |} /\
  length (_sumw {| _binning := four_edges; _sumw := [1; 2; 0]%float |}) = 3.
Proof.
  assert (S : CatHist.shaped (CatHist.identity true [])) by reflexivity.
  assert (E : CatHist.fill_all (CatHist.identity true [])
                [("A"%string, 1%float); ("B"%string, 1%float)]
              = inr {| CatHist.axis := {| CatHist.labels := ["A"%string; "B"%string];
                                          CatHist.growable := true |};
                       CatHist.cells := [1; 1]%float |}) by (vm_compute; reflexivity).
  split; [exact counted_reachable|]. split; [exact S|]. split; [exact E|].
  exact (proj1 (shape_invariant _ _ _ _ counted_reachable S E) 3 eq_refl).
Defined.

(** C9.  Best effort: of three tasks of which the second raises, the run
    ends with the outputs of the first and the third merged into the
    identity, and exactly one failure, of task 2.  In general a task that
    raises leaves the accumulator as it was; the run of any tasks ends with
    the outputs of those that returned, merged in order, and the failures of
    the others.  In fail-fast mode the same three tasks end the run with the
    failure of task 2. *)
Theorem best_effort_isolates_failure {Chunk Acc : Type} (identity : Acc)
    (merge : Acc -> Acc -> Acc) (t1 t2 t3 : @Executor.Task Chunk Acc)
    (a1 a3 : Acc) (e : exn) :
  Executor.func t1 (Executor.chunk t1) = Ret a1 ->
  Executor.func t2 (Executor.chunk t2) = Raise e ->
  Executor.func t3 (Executor.chunk t3) = Ret a3 ->
  Executor.run identity merge false [t1; t2; t3]
  = Executor.Done (merge (merge identity a1) a3)
      [{| Executor.task := 2; Executor.cause := e |}] /\
  (forall n rest acc failures,
      Executor.dispatch merge false n (t2 :: rest) acc failures
      = Executor.dispatch merge false (S n) rest acc
          (failures ++ [{| Executor.task := n; Executor.cause := e |}])) /\
  (forall tasks : list (@Executor.Task Chunk Acc),
      Executor.run identity merge false tasks
      = Executor.Done (fold_left merge (Executor.outputs tasks) identity)
          (Executor.raised 1 tasks)) /\
  Executor.run identity merge true [t1; t2; t3]
  = Executor.Failed {| Executor.task := 2; Executor.cause := e |}.
Proof.
  intros E1 E2 E3. split; [|split; [|split]].
  - unfold Executor.run. cbn [Executor.dispatch]. rewrite E1, E2, E3. reflexivity.
  - intros n rest acc failures. cbn [Executor.dispatch]. rewrite E2. reflexivity.
  - intros tasks. unfold Executor.run.
    now rewrite ExecutorFacts.dispatch_best_effort.
  - unfold Executor.run. cbn [Executor.dispatch]. rewrite E1, E2. reflexivity.
Qed.

Lemma best_effort_isolates_failure_witness :
  Executor.run 0%Z Z.add false [number_task 1; number_task 2; number_task 3]
  = Executor.Done 4%Z
      [{| Executor.task := 2; Executor.cause := ValueError "task failed" |}].
Proof.
  exact (proj1 (best_effort_isolates_failure 0%Z Z.add
                  (number_task 1) (number_task 2) (number_task 3)
                  1%Z 3%Z (ValueError "task failed") eq_refl eq_refl eq_refl)).
Defined.

(** C10.  [self + other] on the store: whatever the outcome, every array and
    object that existed before the call is unchanged, so both operands keep
    their binning and their cells.  When the call returns, it returns a new
    object whose cell array is a new array; the new object refers to the
    binning array of [self].  On two histograms with identical binning the
    call does return, and the cells of the new object are the sums, cell by
    cell, of the cells of [self] and of [other]; on differing binning it
    raises and the store is as before. *)
Theorem add_leaves_operands (hp : Heap.heap) (self other : Heap.addr) :
  Heap.valid hp self -> Heap.valid hp other ->
  forall r hp', Heap.__add__ self other hp = (r, hp') ->
    Heap.preserved hp hp' /\
    Heap.view hp' self = Heap.view hp self /\
    Heap.view hp' other = Heap.view hp other /\
    match r with
    | Ret out =>
        length (Heap.objects hp) <= out /\
        length (Heap.arrays hp)
          <= Heap.attr_sumw (nth out (Heap.objects hp') Heap.no_object) /\
        Heap.attr_binning (nth out (Heap.objects hp') Heap.no_object)
          = Heap.attr_binning (nth self (Heap.objects hp) Heap.no_object) /\
        Heap.valid hp' out /\
        __add__ (Heap.view hp self) (Heap.view hp other) = Ret (Heap.view hp' out)
    | Raise e =>
        __add__ (Heap.view hp self) (Heap.view hp other) = Raise e
    end /\
    (wf (Heap.view hp self) -> wf (Heap.view hp other) ->
     np_array_equal (_binning (Heap.view hp other)) (_binning (Heap.view hp self)) = true ->
     exists out,
       r = Ret out /\
       _binning (Heap.view hp' out) = _binning (Heap.view hp self) /\
       _sumw (Heap.view hp' out)
       = zip_with PrimFloat.add (_sumw (Heap.view hp self)) (_sumw (Heap.view hp other))) /\
    (np_array_equal (_binning (Heap.view hp other)) (_binning (Heap.view hp self)) = false ->
     r = Raise IncompatibleBinning /\ hp' = hp).
Proof.
  intros V1 V2 r hp' E.
  rewrite (HeapFacts.add_run hp self other V1 V2) in E. cbv zeta in E.
  assert (Sum :
    (wf (Heap.view hp self) -> wf (Heap.view hp other) ->
     np_array_equal (_binning (Heap.view hp other)) (_binning (Heap.view hp self)) = true ->
     exists out,
       r = Ret out /\
       _binning (Heap.view hp' out) = _binning (Heap.view hp self) /\
       _sumw (Heap.view hp' out)
       = zip_with PrimFloat.add (_sumw (Heap.view hp self)) (_sumw (Heap.view hp other))) /\
    (np_array_equal (_binning (Heap.view hp other)) (_binning (Heap.view hp self)) = false ->
     r = Raise IncompatibleBinning /\ hp' = hp)).
  { split.
    - intros W1 W2 B. rewrite B in E. cbn [negb] in E.
      pose proof (np_array_equal_length _ _ B) as LB.
      unfold wf in W1, W2.
      replace (length (_binning (Heap.view hp self)))
        with (S (length (_sumw (Heap.view hp self)))) in E by lia.
      rewrite np_zeros_ok in E.
      unfold add_f64 in E. rewrite broadcast_same in E by lia.
      injection E as <- <-.
      exists (length (Heap.objects hp)). split; [reflexivity|].
      destruct V1 as (Vo & Vb & Vs).
      unfold Heap.view at 1 3. cbn [Heap.objects Heap.arrays _binning _sumw].
      rewrite (app_nth2 (Heap.objects hp)), Nat.sub_diag by lia.
      cbn [nth Heap.attr_sumw Heap.attr_binning].
      rewrite app_nth1 by assumption.
      rewrite app_nth2 by lia.
      replace (S (length (Heap.arrays hp)) - length (Heap.arrays hp)) with 1 by lia.
      split; reflexivity.
    - intros B. rewrite B in E. cbn [negb] in E. injection E as <- <-.
      split; reflexivity. }
  assert (Frame :
    Heap.preserved hp hp' /\
    Heap.view hp' self = Heap.view hp self /\
    Heap.view hp' other = Heap.view hp other /\
    match r with
    | Ret out =>
        length (Heap.objects hp) <= out /\
        length (Heap.arrays hp)
          <= Heap.attr_sumw (nth out (Heap.objects hp') Heap.no_object) /\
        Heap.attr_binning (nth out (Heap.objects hp') Heap.no_object)
          = Heap.attr_binning (nth self (Heap.objects hp) Heap.no_object) /\
        Heap.valid hp' out /\
        __add__ (Heap.view hp self) (Heap.view hp other) = Ret (Heap.view hp' out)
    | Raise e =>
        __add__ (Heap.view hp self) (Heap.view hp other) = Raise e
    end).
  { clear Sum. unfold __add__, __init__.
    destruct (negb (np_array_equal (_binning (Heap.view hp other))
                      (_binning (Heap.view hp self)))).
    { injection E as <- <-.
      split; [apply HeapFacts.preserved_refl|]. repeat split. }
    destruct (np_zeros (Z.of_nat (length (_binning (Heap.view hp self))) - 1))
      as [z|e].
    2:{ injection E as <- <-.
        split; [apply HeapFacts.preserved_refl|]. repeat split. }
    cbn [bind _binning].
    destruct (add_f64 (_sumw (Heap.view hp self)) (_sumw (Heap.view hp other)))
      as [s|e]; injection E as <- <-.
    - pose proof (HeapFacts.preserved_grow hp [z; s]
                    [{| Heap.attr_binning :=
                          Heap.attr_binning (nth self (Heap.objects hp) Heap.no_object);
                        Heap.attr_sumw := S (length (Heap.arrays hp)) |}]) as P.
      split; [exact P|].
      split; [apply (HeapFacts.preserved_view _ _ _ P V1)|].
      split; [apply (HeapFacts.preserved_view _ _ _ P V2)|].
      cbn [Heap.objects Heap.arrays].
      rewrite app_nth2, Nat.sub_diag by lia. cbn [nth Heap.attr_sumw Heap.attr_binning].
      destruct V1 as (Vo & Vb & Vs).
      split; [lia|]. split; [lia|]. split; [reflexivity|]. split.
      + unfold Heap.valid. cbn [Heap.objects Heap.arrays].
        rewrite !length_app, app_nth2, Nat.sub_diag by lia.
        cbn [nth length Heap.attr_sumw Heap.attr_binning]. lia.
      + cbn [bind]. unfold Heap.view at 2. cbn [Heap.objects Heap.arrays].
        rewrite (app_nth2 (Heap.objects hp)), Nat.sub_diag by lia.
        cbn [nth Heap.attr_sumw Heap.attr_binning].
        rewrite app_nth1 by assumption.
        rewrite app_nth2 by lia.
        replace (S (length (Heap.arrays hp)) - length (Heap.arrays hp)) with 1 by lia.
        reflexivity.
    - pose proof (HeapFacts.preserved_grow hp [z]
                    [{| Heap.attr_binning :=
                          Heap.attr_binning (nth self (Heap.objects hp) Heap.no_object);
                        Heap.attr_sumw := length (Heap.arrays hp) |}]) as P.
      split; [exact P|].
      split; [apply (HeapFacts.preserved_view _ _ _ P V1)|].
      split; [apply (HeapFacts.preserved_view _ _ _ P V2)|].
      reflexivity. }
  destruct Frame as (F1 & F2 & F3 & F4).
  split; [exact F1|]. split; [exact F2|]. split; [exact F3|]. split; [exact F4|].
  exact Sum.
Qed.

Lemma add_leaves_operands_witness :
  Heap.valid two_histograms 0 /\ Heap.valid two_histograms 1 /\
  Heap.view (snd (Heap.__add__ 0 1 two_histograms)) 0 = Heap.view two_histograms 0 /\
  Heap.view (snd (Heap.__add__ 0 1 two_histograms)) 1 = Heap.view two_histograms 1 /\
  Heap.view (snd (Heap.__add__ 0 1 two_histograms)) 2
  = {| _binning := four_edges; _sumw := [1; 3; 1]%float |}.
Proof.
  assert (V0 : Heap.valid two_histograms 0) by (unfold Heap.valid; cbn; lia).
  assert (V1 : Heap.valid two_histograms 1) by (unfold Heap.valid; cbn; lia).
  destruct (add_leaves_operands two_histograms 0 1 V0 V1
              (fst (Heap.__add__ 0 1 two_histograms)) (snd (Heap.__add__ 0 1 two_histograms))
              (surjective_pairing _)) as (_ & A & B & _ & S & _).
  destruct (S eq_refl eq_refl eq_refl) as (out & Er & Eb & Es).
  assert (Eo : out = 2) by (vm_compute in Er; now injection Er).
  subst out.
  split; [exact V0|]. split; [exact V1|]. split; [exact A|]. split; [exact B|].
  destruct (Heap.view (snd (Heap.__add__ 0 1 two_histograms)) 2) as [b s].
  cbn [_binning _sumw] in Eb, Es. rewrite Eb, Es. reflexivity.
Defined.

(** [fill] on the store writes one array, the cells of [self]; every object
    and every other array is as before.  On a histogram whose cells match
    its binning the call returns exactly when [np.histogram] does, and then
    each cell holds what it held plus the entry of [np.histogram]'s result
    for its bin; without weights and over a valid binning that entry is the
    number of values in the bin.  When the call raises, nothing was
    written. *)
Theorem fill_updates_own_cells (hp : Heap.heap) (self : Heap.addr)
    (values : list float) (weights : option (list float)) :
  Heap.valid hp self ->
  Heap.attr_binning (nth self (Heap.objects hp) Heap.no_object)
    <> Heap.attr_sumw (nth self (Heap.objects hp) Heap.no_object) ->
  forall r hp', Heap.fill self values weights hp = (r, hp') ->
    Heap.objects hp' = Heap.objects hp /\
    (forall a, a <> Heap.attr_sumw (nth self (Heap.objects hp) Heap.no_object) ->
               nth_error (Heap.arrays hp') a = nth_error (Heap.arrays hp) a) /\
    match r with
    | Ret _ => fill (Heap.view hp self) values weights = Ret (Heap.view hp' self)
    | Raise e => fill (Heap.view hp self) values weights = Raise e /\ hp' = hp
    end /\
    (wf (Heap.view hp self) ->
     match np_histogram values (_binning (Heap.view hp self)) weights with
     | Ret hb =>
         r = Ret tt /\
         _binning (Heap.view hp' self) = _binning (Heap.view hp self) /\
         _sumw (Heap.view hp' self)
         = zip_with PrimFloat.add (_sumw (Heap.view hp self)) (as_float64 (fst hb))
     | Raise e => r = Raise e /\ hp' = hp
     end) /\
    (wf (Heap.view hp self) -> valid_edges (_binning (Heap.view hp self)) = true ->
     weights = None ->
     r = Ret tt /\
     _sumw (Heap.view hp' self)
     = zip_with PrimFloat.add (_sumw (Heap.view hp self))
         (map (fun bin => of_count (count_if bin values))
            (doc_bins (_binning (Heap.view hp self))))).
Proof.
  intros (Vo & Vb & Vs) D r hp' E. rewrite HeapFacts.fill_run in E.
  assert (Frame :
    Heap.objects hp' = Heap.objects hp /\
    (forall a, a <> Heap.attr_sumw (nth self (Heap.objects hp) Heap.no_object) ->
               nth_error (Heap.arrays hp') a = nth_error (Heap.arrays hp) a) /\
    match r with
    | Ret _ => fill (Heap.view hp self) values weights = Ret (Heap.view hp' self)
    | Raise e => fill (Heap.view hp self) values weights = Raise e /\ hp' = hp
    end).
  { destruct (fill (Heap.view hp self) values weights) as [h|e] eqn:F;
      injection E as <- <-.
    - cbn [Heap.objects Heap.arrays]. split; [reflexivity|]. split.
      + intros a Ha. apply HeapFacts.set_nth_other. congruence.
      + destruct (fill_inv _ _ _ _ F) as [Eb _].
        unfold Heap.view at 1. cbn [Heap.objects Heap.arrays].
        rewrite (HeapFacts.set_nth_same _ _ _ _ Vs).
        rewrite (HeapFacts.nth_error_nth_eq _ _ _ _
                   (HeapFacts.set_nth_other _ _ _ _ (not_eq_sym D))).
        destruct h as [b s]. cbn in Eb |- *. now rewrite Eb.
    - repeat split. }
  assert (Cells :
    wf (Heap.view hp self) ->
    match np_histogram values (_binning (Heap.view hp self)) weights with
    | Ret hb =>
        r = Ret tt /\
        _binning (Heap.view hp' self) = _binning (Heap.view hp self) /\
        _sumw (Heap.view hp' self)
        = zip_with PrimFloat.add (_sumw (Heap.view hp self)) (as_float64 (fst hb))
    | Raise e => r = Raise e /\ hp' = hp
    end).
  { intros W.
    destruct (np_histogram values (_binning (Heap.view hp self)) weights) as [hb|e] eqn:H.
    - rewrite (ScriptFacts.fill_after_histogram _ _ _ _ W H) in E.
      injection E as <- <-. split; [reflexivity|].
      unfold Heap.view at 1 3. cbn [Heap.objects Heap.arrays _binning _sumw].
      rewrite (HeapFacts.set_nth_same _ _ _ _ Vs).
      rewrite (HeapFacts.nth_error_nth_eq _ _ _ _
                 (HeapFacts.set_nth_other _ _ _ _ (not_eq_sym D))).
      split; reflexivity.
    - unfold fill in E. rewrite H in E. cbn [bind] in E. injection E as <- <-.
      split; reflexivity. }
  destruct Frame as (F1 & F2 & F3).
  split; [exact F1|]. split; [exact F2|]. split; [exact F3|]. split; [exact Cells|].
  intros W V ->. specialize (Cells W).
  destruct (ScriptFacts.valid_edges_parts _ V) as [_ Dec].
  rewrite (np_histogram_counts _ _ Dec) in Cells.
  destruct Cells as (Er & _ & Es). split; [exact Er|].
  rewrite Es. cbn [fst as_float64].
  now rewrite (hist_counts_doc _ _ V), map_map.
Qed.

Lemma fill_updates_own_cells_witness :
  Heap.valid two_histograms 0 /\
  _sumw (Heap.view two_histograms 0) = [1; 2; 0]%float /\
  _sumw (Heap.view (snd (Heap.fill 0 scenario_values None two_histograms)) 0)
  = [2; 4; 0]%float /\
  Heap.view (snd (Heap.fill 0 scenario_values None two_histograms)) 1
  = Heap.view two_histograms 1.
Proof.
  assert (V0 : Heap.valid two_histograms 0) by (unfold Heap.valid; cbn; lia).
  assert (D : 0 <> 1) by discriminate.
  destruct (fill_updates_own_cells two_histograms 0 scenario_values None V0 D
              (Ret tt) (snd (Heap.fill 0 scenario_values None two_histograms))
              eq_refl) as (_ & _ & _ & _ & U).
  destruct (U eq_refl eq_refl eq_refl) as (_ & Es).
  split; [exact V0|]. split; [reflexivity|]. split; [|reflexivity].
  rewrite Es. reflexivity.
Defined.

(** The sum shares no cells with its operands: filling the histogram that
    [self + other] returned leaves [self] and [other] as they were before
    the sum. *)
Theorem sum_is_independent (hp : Heap.heap) (self other : Heap.addr)
    (values : list float) (weights : option (list float)) :
  Heap.valid hp self -> Heap.valid hp other ->
  forall out hp1 r hp2,
    Heap.__add__ self other hp = (Ret out, hp1) ->
    Heap.fill out values weights hp1 = (r, hp2) ->
    Heap.view hp2 self = Heap.view hp self /\
    Heap.view hp2 other = Heap.view hp other.
Proof.
  intros V1 V2 out hp1 r hp2 A F.
  destruct (HeapFacts.add_fresh hp self other out hp1 V1 V2 A) as [P Fresh].
  rewrite HeapFacts.fill_run in F.
  assert (P2 : Heap.preserved hp hp2).
  { destruct (fill (Heap.view hp1 out) values weights) as [h|e];
      injection F as <- <-; [|exact P].
    destruct P as [PA PO]. split; cbn [Heap.arrays Heap.objects]; [|exact PO].
    intros a Ha. rewrite HeapFacts.set_nth_other by lia. apply PA, Ha. }
  split; apply (HeapFacts.preserved_view hp hp2); assumption.
Qed.

Lemma sum_is_independent_witness :
  Heap.valid two_histograms 0 /\ Heap.valid two_histograms 1 /\
  Heap.view (snd (Heap.fill 2 scenario_values None (snd (Heap.__add__ 0 1 two_histograms)))) 0
  = Heap.view two_histograms 0.
Proof.
  assert (V0 : Heap.valid two_histograms 0) by (unfold Heap.valid; cbn; lia).
  assert (V1 : Heap.valid two_histograms 1) by (unfold Heap.valid; cbn; lia).
  split; [exact V0|]. split; [exact V1|].
  exact (proj1 (sum_is_independent two_histograms 0 1 scenario_values None V0 V1
                  2 (snd (Heap.__add__ 0 1 two_histograms))
                  (fst (Heap.fill 2 scenario_values None (snd (Heap.__add__ 0 1 two_histograms))))
                  (snd (Heap.fill 2 scenario_values None (snd (Heap.__add__ 0 1 two_histograms))))
                  eq_refl (surjective_pairing _))).
Defined.

End Claims.

(** ** Part V.  Further properties of the code *)

Module Further.

Import Float64 Float64Facts Numpy NumpyFacts Notebook Properties Examples HistogramFacts NotebookFacts.
Import Linspace Scripts MoreProperties ScriptFacts StoreFacts.

(** Cell 5.  The histograms of two samples over one valid binning, added
    with [add_histos], are the histogram of the two samples together, as
    [np.histogram] returns it for the concatenated sample: the same [int64]
    counts over the same binning. *)
Theorem sum_of_histograms (binning vals vals2 : list float) :
  valid_edges binning = true ->
  (Z.of_nat (length (vals ++ vals2)) < 2 ^ 63)%Z ->
  cell5 binning vals vals2 = np_histogram (vals ++ vals2) binning None /\
  cell5 binning vals vals2
  = Ret (Int64 (zip_with Z.add (hist_counts vals binning) (hist_counts vals2 binning)),
         binning).
Proof.
  intros V L. rewrite (cell5_counts _ _ _ V L).
  destruct (valid_edges_parts _ V) as [_ D].
  rewrite np_histogram_counts by assumption. split; [reflexivity|].
  now rewrite hist_counts_app.
Qed.

Lemma sum_of_histograms_witness :
  exists binning,
    np_linspace 0 1 50 = Ret binning /\
    cell5 binning [0.5; 0.25]%float [0.75; 2; 0.5]%float
    = np_histogram ([0.5; 0.25] ++ [0.75; 2; 0.5])%float binning None.
Proof.
  eexists. split; [vm_compute; reflexivity|].
  apply (sum_of_histograms _ [0.5; 0.25]%float [0.75; 2; 0.5]%float).
  - vm_compute; reflexivity.
  - cbn; lia.
Defined.

(** A binning with a NaN edge passes the check of [np.histogram], which only
    rejects a decreasing pair, so histograms over it are built and filled;
    but NaN is not [==] to itself, and such histograms can never be merged:
    not with one another, not with themselves, by [__add__] or by
    [add_histos]. *)
Theorem nan_edge_blocks_merge (binning vals vals2 : list float) :
  forallb is_num binning = false -> any_decreasing binning = false ->
  (exists h1, process binning vals = Ret h1 /\ _binning h1 = binning) /\
  (forall g1 g2, _binning g1 = binning -> _binning g2 = binning ->
                 __add__ g1 g2 = Raise IncompatibleBinning) /\
  (forall s1 s2, add_histos (s1, binning) (s2, binning) = Raise IncompatibleBinning) /\
  cell5 binning vals vals2 = Raise IncompatibleBinning.
Proof.
  intros N D.
  assert (NE : binning <> []) by (intros ->; discriminate).
  assert (S : np_array_equal binning binning = false)
    by now rewrite np_array_equal_self.
  split; [eexists; split; [now apply process_returns | reflexivity]|].
  split; [intros g1 g2 B1 B2; apply add_fails; now rewrite B1, B2|].
  assert (A : forall s1 s2,
             add_histos (s1, binning) (s2, binning) = Raise IncompatibleBinning).
  { intros s1 s2. unfold add_histos. now rewrite np_all_eq_array_equal, S. }
  split; [exact A|].
  unfold cell5. rewrite !np_histogram_counts by assumption. cbn [bind]. apply A.
Qed.

Lemma nan_edge_blocks_merge_witness :
  forallb is_num [0; nan; 1]%float = false /\
  any_decreasing [0; nan; 1]%float = false /\
  (exists h1, process [0; nan; 1]%float [0.5%float] = Ret h1 /\
              _binning h1 = [0; nan; 1]%float) /\
  cell5 [0; nan; 1]%float [0.5%float] [2%float] = Raise IncompatibleBinning.
Proof.
  split; [reflexivity|]. split; [reflexivity|].
  destruct (nan_edge_blocks_merge [0; nan; 1]%float [0.5%float] [2%float])
    as (H1 & _ & _ & H4); [reflexivity | reflexivity |].
  split; assumption.
Defined.

(** The constructor takes any binning with at least one edge and checks
    nothing else; without an edge, [np.zeros] raises.  The checks are those
    of [np.histogram] at each [fill].  On a histogram whose cells match its
    binning, [fill] raises exactly in two cases: weights whose shape is not
    that of the values, and, if the weights fit, a binning with a decreasing
    pair of edges.  In every other case it returns, with the binning and the
    shape unchanged: the addition into the cells never fails. *)
Theorem fill_raises_exactly (binning values : list float)
    (weights : option (list float)) :
  (binning = [] ->
   __init__ binning = Raise (ValueError "negative dimensions are not allowed")) /\
  (binning <> [] ->
   __init__ binning
   = Ret {| _binning := binning;
            _sumw := repeat PrimFloat.zero (length binning - 1) |}) /\
  forall h, wf h -> _binning h = binning ->
    (weights_fit values weights = false ->
     fill h values weights
     = Raise (ValueError "weights should have the same shape as a.")) /\
    (weights_fit values weights = true -> any_decreasing binning = true ->
     fill h values weights = Raise bins_not_monotonic) /\
    (weights_fit values weights = true -> any_decreasing binning = false ->
     exists h', fill h values weights = Ret h' /\ _binning h' = binning /\ wf h').
Proof.
  split; [intros ->; reflexivity|]. split.
  { intros NE. destruct binning as [|e t]; [congruence|]. rewrite init_cons. cbn [length].
    now replace (S (length t) - 1) with (length t) by lia. }
  intros h W B. repeat split.
  - intros F. unfold fill, np_histogram. rewrite B.
    destruct weights as [w|]; [|discriminate]. cbn [weights_fit] in F.
    now rewrite F.
  - intros F D. unfold fill, np_histogram. rewrite B, D.
    destruct weights as [w|]; [|reflexivity]. cbn [weights_fit] in F.
    now rewrite F.
  - intros F D.
    assert (R : exists r, np_histogram values (_binning h) weights = Ret r).
    { unfold np_histogram. rewrite B, D.
      destruct weights as [w|]; [|eexists; reflexivity]. cbn [weights_fit] in F.
      rewrite F. eexists; reflexivity. }
    destruct R as [r R]. rewrite (fill_after_histogram _ _ _ _ W R).
    eexists. split; [reflexivity|]. split; [exact B|].
    unfold wf in *. cbn [_sumw _binning].
    rewrite zip_with_length, as_float64_length, (histogram_length _ _ _ _ R). lia.
Qed.

Lemma fill_raises_exactly_witness :
  __init__ [2; 1]%float = Ret {| _binning := [2; 1]%float; _sumw := [0%float] |} /\
  fill {| _binning := [2; 1]%float; _sumw := [0%float] |} [1.5%float] None
  = Raise bins_not_monotonic /\
  fill {| _binning := [2; 1]%float; _sumw := [0%float] |} [1.5%float] (Some [])
  = Raise (ValueError "weights should have the same shape as a.").
Proof.
  split; [apply (fill_raises_exactly [2; 1]%float [] None); discriminate|].
  split.
  - apply (fill_raises_exactly [2; 1]%float [1.5%float] None); reflexivity || discriminate.
  - apply (fill_raises_exactly [2; 1]%float [1.5%float] (Some [])); reflexivity || discriminate.
Defined.

(** Nothing is lost or counted twice between the edges: over a valid binning
    with at least one bin, the counts that [np.histogram] returns add up to
    the number of values that lie between the first and the last edge, both
    included.  So do the cells of a histogram filled once with them. *)
Theorem histogram_total (edges values : list float) :
  valid_edges edges = true -> 2 <= length edges ->
  exists cs,
    np_histogram values edges None = Ret (Int64 cs, edges) /\
    total cs = count_if (in_range edges) values /\
    (0 <= total cs <= Z.of_nat (length values))%Z /\
    ((Z.of_nat (length values) < 2 ^ 53)%Z ->
     process edges values = Ret {| _binning := edges; _sumw := map of_count cs |}).
Proof.
  intros V L. destruct (valid_edges_parts _ V) as [_ D].
  destruct edges as [|lo [|hi t]]; cbn [length] in L; try lia.
  exists (hist_counts values (lo :: hi :: t)).
  split; [now apply np_histogram_counts|].
  rewrite (hist_counts_total _ _ _ _ V).
  split; [reflexivity|]. split; [apply count_if_range|].
  intros B. apply process_counts; [discriminate | assumption | assumption].
Qed.

Lemma histogram_total_witness :
  valid_edges four_edges = true /\ 2 <= length four_edges /\
  exists cs,
    np_histogram scenario_values four_edges None = Ret (Int64 cs, four_edges) /\
    total cs = 3%Z.
Proof.
  split; [reflexivity|]. split; [cbn; lia|].
  destruct (histogram_total four_edges scenario_values) as (cs & H & T & _);
    [reflexivity | cbn; lia |].
  exists cs. split; [exact H|]. rewrite T. reflexivity.
Defined.

(** A fill with no values changes no cell: over a binning that
    [np.histogram] accepts, it returns and every cell keeps its value, with
    weights absent or empty. *)
Theorem fill_nothing (h : myTH1) (weights : option (list float)) :
  wf h -> any_decreasing (_binning h) = false ->
  weights = None \/ weights = Some [] ->
  exists h',
    fill h [] weights = Ret h' /\ _binning h' = _binning h /\
    Forall2 same_value (_sumw h') (_sumw h).
Proof.
  intros W D S. destruct (histogram_of_nothing _ _ D S) as (r & R & Z).
  rewrite (fill_after_histogram _ _ _ _ W R), Z.
  eexists. split; [reflexivity|]. split; [reflexivity|]. cbn [_sumw].
  apply zip_add_zeros. unfold wf in W. lia.
Qed.

Lemma fill_nothing_witness :
  wf (counted [1; 2; 0]%Z) /\ any_decreasing four_edges = false /\
  exists h',
    fill (counted [1; 2; 0]%Z) [] (Some []) = Ret h' /\ _binning h' = four_edges /\
    Forall2 same_value (_sumw h') (map of_count [1; 2; 0]%Z).
Proof.
  split; [reflexivity|]. split; [reflexivity|].
  apply (fill_nothing (counted [1; 2; 0]%Z) (Some [])); [reflexivity | reflexivity | now right].
Defined.

(** Two fills in a row leave what one fill of both batches leaves: over a
    valid binning, and with fewer than 2^53 values in all, filling [a] and
    then [b] into a fresh histogram gives the histogram of [a ++ b]. *)
Theorem fill_twice (binning a b : list float) :
  binning <> [] -> valid_edges binning = true ->
  (Z.of_nat (length (a ++ b)) < 2 ^ 53)%Z ->
  (h0 <- __init__ binning ;; h1 <- fill h0 a None ;; fill h1 b None)
  = process binning (a ++ b) /\
  process binning (a ++ b)
  = Ret {| _binning := binning; _sumw := map of_count (hist_counts (a ++ b) binning) |}.
Proof.
  intros NE V L.
  rewrite (process_counts _ _ NE V L). split; [|reflexivity].
  rewrite (init_counts _ NE). cbn [bind].
  rewrite (fill_counts binning [] a NE V) by (cbn [app]; rewrite length_app in L; lia).
  cbn [bind app]. now apply fill_counts.
Qed.

Lemma fill_twice_witness :
  four_edges <> [] /\ valid_edges four_edges = true /\
  (h0 <- __init__ four_edges ;; h1 <- fill h0 [0.5; 3.5]%float None ;;
   fill h1 [1.5; 1.5; -1]%float None)
  = process four_edges ([0.5; 3.5] ++ [1.5; 1.5; -1])%float.
Proof.
  split; [discriminate|]. split; [reflexivity|].
  apply (fill_twice four_edges [0.5; 3.5]%float [1.5; 1.5; -1]%float);
    [discriminate | reflexivity | cbn; lia].
Defined.



(** A histogram that [np.histogram] returned, or that [add_histos] added
    from such histograms, has one count for each bin: one less than it has
    edges.  The step plot of cell 31 is therefore given as many heights as
    left edges, whatever the sample and the binning. *)
Theorem one_count_per_bin :
  (forall g : histo, built g -> size (fst g) = length (removelast (snd g))) /\
  (forall binning vals x y, cell31 binning vals = Ret (x, y) -> length x = size y).
Proof.
  assert (S : forall g : histo, built g -> size (fst g) = length (removelast (snd g))).
  { intros g B. rewrite (built_shape g B).
    destruct (snd g) as [|e t] using rev_ind; [reflexivity|].
    rewrite removelast_last, length_app. cbn [length]. lia. }
  split; [exact S|].
  intros binning vals x y E. unfold cell31 in E.
  destruct (np_histogram vals binning None) as [[h1vals h1bins]|] eqn:H; [|discriminate].
  cbn [bind] in E. inversion E; subst.
  symmetry. apply (S (y, h1bins)). exact (built_histogram _ _ _ _ H).
Qed.

Lemma one_count_per_bin_witness :
  size (Int64 [1; 2; 0]%Z) = length (removelast four_edges) /\
  cell31 four_edges scenario_values = Ret ([0; 1; 2]%float, Int64 [1; 2; 0]%Z).
Proof.
  split; [|reflexivity].
  apply (proj1 one_count_per_bin (Int64 [1; 2; 0]%Z, four_edges)).
  apply (built_histogram scenario_values four_edges None). reflexivity.
Defined.

(** Cell 8, run on any store with two samples of fewer than 2^53 values in
    all.  It prints the 49 counts of the two samples together over the
    binning [np.linspace(0, 1, 50)]: the counts that cell 5 gets from
    [add_histos], as float64.  It changes nothing that was in the store.
    Afterwards [h1] holds the counts of the first sample and [h2] those of
    the second, [h] holds what was printed; the three objects refer to one
    binning array, and each has a cell array of its own. *)
Theorem cell8_prints_sum (hp : Heap.heap) (vals vals2 : list float) :
  (Z.of_nat (length (vals ++ vals2)) < 2 ^ 53)%Z ->
  exists binning names hp',
    np_linspace 0 1 50 = Ret binning /\
    cell8 vals vals2 hp = (Ret names, hp') /\
    printed names = map of_count (hist_counts (vals ++ vals2) binning) /\
    length (printed names) = 49 /\
    (exists cs, cell5 binning vals vals2 = Ret (Int64 cs, binning) /\
                printed names = map of_count cs) /\
    Heap.preserved hp hp' /\
    Heap.view hp' (h1 names)
    = {| _binning := binning; _sumw := map of_count (hist_counts vals binning) |} /\
    Heap.view hp' (h2 names)
    = {| _binning := binning; _sumw := map of_count (hist_counts vals2 binning) |} /\
    Heap.view hp' (Scripts.h names)
    = {| _binning := binning; _sumw := printed names |} /\
    let o := fun x => nth x (Heap.objects hp') Heap.no_object in
    Heap.attr_binning (o (h2 names)) = Heap.attr_binning (o (h1 names)) /\
    Heap.attr_binning (o (Scripts.h names)) = Heap.attr_binning (o (h1 names)) /\
    NoDup [Heap.attr_sumw (o (h1 names)); Heap.attr_sumw (o (h2 names));
           Heap.attr_sumw (o (Scripts.h names))].
Proof.
  intros L. destruct linspace_binning as (b & Eb & Lb & V).
  assert (NE : b <> []) by (intros ->; discriminate).
  exists b. do 2 eexists.
  split; [exact Eb|].
  split; [apply (cell8_run hp vals vals2 b Eb NE V L)|].
  cbn [printed h1 h2 Scripts.h].
  split; [reflexivity|].
  split; [now rewrite length_map, hist_counts_length, Lb|].
  split.
  { eexists. split; [|reflexivity]. apply cell5_counts; [assumption|].
    assert (2 ^ 53 < 2 ^ 63)%Z by (apply Z.pow_lt_mono_r; lia). lia. }
  split; [apply HeapFacts.preserved_grow|].
  split; [now rewrite (view_step _ _ _ _ 0 0 1) by reflexivity|].
  split; [now rewrite (view_step _ _ _ _ 1 0 2) by reflexivity|].
  split; [now rewrite (view_step _ _ _ _ 2 0 4) by reflexivity|].
  unfold grown. cbn [Heap.objects]. rewrite !app_nth2_plus.
  cbn [nth Heap.attr_binning Heap.attr_sumw].
  split; [reflexivity|]. split; [reflexivity|].
  repeat constructor; cbn [In]; lia.
Qed.

Lemma cell8_prints_sum_witness :
  (Z.of_nat (length ([0.5; 0.25] ++ [0.75; 2; 0.5])%float) < 2 ^ 53)%Z /\
  exists binning names hp',
    np_linspace 0 1 50 = Ret binning /\
    cell8 [0.5; 0.25]%float [0.75; 2; 0.5]%float Heap.empty = (Ret names, hp') /\
    printed names
    = map of_count (hist_counts ([0.5; 0.25] ++ [0.75; 2; 0.5])%float binning).
Proof.
  split; [cbn; lia|].
  destruct (cell8_prints_sum Heap.empty [0.5; 0.25]%float [0.75; 2; 0.5]%float)
    as (binning & names & hp' & H1 & H2 & H3 & _); [cbn; lia|].
  exists binning, names, hp'. repeat split; assumption.
Defined.

(** [nanoArray] hands to [JaggedArray.zip] one column for each requested
    name, holding the array of the branch [prefix + name], and with [has_p4]
    a column "p4" built from the branches pt, eta, phi and mass; no name
    comes twice and there is no other column.  A requested column named
    "p4" takes the place of the Lorentz vectors.  When a requested branch
    cannot be read, [nanoArray] raises and [zip] has no part in it. *)
Theorem nanoArray_columns {Exn Array Table : Type}
    (tree : string -> Exn + Array)
    (from_ptetaphim : Array -> Array -> Array -> Array -> Exn + Array)
    (prefix : string) (column_names : list string) (has_p4 : bool) :
  (forall (arr : string -> Array) (p4 : Array),
      (forall k, In k column_names -> tree (prefix ++ k)%string = inr (arr k)) ->
      (has_p4 = true ->
       (forall k, In k ["pt"; "eta"; "phi"; "mass"]%string ->
                  tree (prefix ++ k)%string = inr (arr k)) /\
       from_ptetaphim (arr "pt"%string) (arr "eta"%string) (arr "phi"%string)
         (arr "mass"%string)
       = inr p4) ->
      exists columns,
        (forall zip : SampleGame.dict -> Exn + Table,
            SampleGame.nanoArray tree from_ptetaphim zip prefix column_names has_p4
            = zip columns) /\
        NoDup (map fst columns) /\
        forall k, SampleGame.getitem k columns
                  = if in_dec string_dec k column_names then Some (arr k)
                    else if has_p4 && String.eqb k "p4" then Some p4
                    else None) /\
  (forall k e,
      In k column_names -> tree (prefix ++ k)%string = inl e ->
      exists e', forall zip : SampleGame.dict -> Exn + Table,
          SampleGame.nanoArray tree from_ptetaphim zip prefix column_names has_p4
          = inl e').
Proof.
  split.
  - intros arr p4 R P.
    destruct (SampleGameFacts.comprehension_reads tree prefix arr column_names [] R)
      as (d & E & N & G); [constructor|].
    destruct has_p4.
    + destruct (P eq_refl) as [Q F].
      exists (SampleGame.update [("p4"%string, p4)] d).
      split; [|split].
      * intros zip. unfold SampleGame.nanoArray.
        rewrite !Q by (cbn [In]; tauto). cbn [SampleGame.bindE].
        rewrite F. cbn [SampleGame.bindE SampleGame.setitem]. now rewrite E.
      * apply SampleGameFacts.nodup_update. repeat constructor. intros [].
      * intros k. rewrite SampleGameFacts.getitem_update by assumption.
        rewrite G. cbn [SampleGame.getitem andb].
        destruct (in_dec string_dec k column_names); reflexivity.
    + exists (SampleGame.update [] d).
      split; [|split].
      * intros zip. unfold SampleGame.nanoArray. cbn [SampleGame.bindE]. now rewrite E.
      * apply SampleGameFacts.nodup_update. constructor.
      * intros k. rewrite SampleGameFacts.getitem_update by assumption.
        rewrite G. cbn [SampleGame.getitem andb].
        destruct (in_dec string_dec k column_names); reflexivity.
  - intros k e I E.
    destruct (SampleGameFacts.comprehension_raises tree prefix column_names k e [] I E)
      as [e' C].
    unfold SampleGame.nanoArray. rewrite C.
    destruct has_p4; [|exists e'; reflexivity].
    destruct (tree (prefix ++ "pt")%string) as [x|pt]; [exists x; reflexivity|].
    destruct (tree (prefix ++ "eta")%string) as [x|eta]; [exists x; reflexivity|].
    destruct (tree (prefix ++ "phi")%string) as [x|phi]; [exists x; reflexivity|].
    destruct (tree (prefix ++ "mass")%string) as [x|mass]; [exists x; reflexivity|].
    cbn [SampleGame.bindE].
    destruct (from_ptetaphim pt eta phi mass) as [x|p4]; [exists x; reflexivity|].
    exists e'. reflexivity.
Qed.

Lemma nanoArray_columns_witness :
  exists columns,
    SampleGame.nanoArray (Exn := unit) (fun name => inr name)
      (fun pt eta phi mass => inr "p4"%string) inr
      "Jet_" ["btagCSVV2"; "muonIdx1"]%string true
    = inr columns /\
    SampleGame.getitem "muonIdx1" columns = Some "Jet_muonIdx1"%string /\
    SampleGame.getitem "p4" columns = Some "p4"%string /\
    SampleGame.getitem "pt" columns = None.
Proof.
  destruct (nanoArray_columns (Exn := unit) (Table := @SampleGame.dict string)
              (fun name => inr name) (fun pt eta phi mass => inr "p4"%string)
              "Jet_" ["btagCSVV2"; "muonIdx1"]%string true)
    as [H _].
  destruct (H (fun k => ("Jet_" ++ k)%string) "p4"%string) as (columns & Z & _ & G).
  - intros k _. reflexivity.
  - intros _. split; [intros k _; reflexivity | reflexivity].
  - exists columns. split; [apply (Z inr)|]. rewrite !G. repeat split.
Defined.

End Further.

(** *** The selections of the processors *)

Module Analysis.

Import Float64 Float64Facts Numpy NumpyFacts HistogramFacts MoreProperties.
Import Awkward AwkwardFacts Processors ProcessorFacts Samples.

(** [MyProcessor.process] on the muons of a chunk.  What it adds to "sumw"
    is the number of all events of the chunk, selected or not.  What it
    fills into "mass" is one mass for each event that has exactly two muons
    whose charges multiply to -1, the mass of these two, in the order of the
    events, and nothing for any other event: never more masses than
    events. *)
Theorem MyProcessor_selects {Muon : Type} (charge : Muon -> Z)
    (pair_mass : Muon * Muon -> float) (muons : jagged Muon) :
  sumw (MyProcessor_process charge pair_mass muons) = Z.of_nat (length muons) /\
  mass (MyProcessor_process charge pair_mass muons)
  = flat_map (dimuon_mass charge pair_mass) muons /\
  (Z.of_nat (length (mass (MyProcessor_process charge pair_mass muons)))
   <= sumw (MyProcessor_process charge pair_mass muons))%Z.
Proof.
  assert (E : mass (MyProcessor_process charge pair_mass muons)
              = flat_map (dimuon_mass charge pair_mass) muons).
  { unfold MyProcessor_process. cbn [mass]. rewrite cut_selected, getitem_mask_map.
    unfold flatten, elementwise, distincts.
    induction muons as [|ev muons IH]; [reflexivity|].
    cbn [filter flat_map]. rewrite <- IH, <- selected_mass.
    destruct (selected charge ev); reflexivity. }
  split; [reflexivity|]. split; [exact E|].
  rewrite E. unfold MyProcessor_process. cbn [sumw]. unfold size.
  apply Nat2Z.inj_le. clear E.
  induction muons as [|ev muons IH]; [reflexivity|].
  cbn [flat_map length]. rewrite length_app.
  assert (length (dimuon_mass charge pair_mass ev) <= 1).
  { unfold dimuon_mass. destruct ev as [|m0 [|m1 [|m2 t]]]; cbn [length]; try lia.
    destruct (charge m0 * charge m1 =? -1)%Z; cbn [length]; lia. }
  lia.
Qed.

Lemma MyProcessor_selects_witness :
  sumw (MyProcessor_process muon_charge pt_sum five_events) = 5%Z /\
  mass (MyProcessor_process muon_charge pt_sum five_events) = [65%float].
Proof.
  destruct (MyProcessor_selects muon_charge pt_sum five_events) as (S & M & _).
  rewrite S, M. split; reflexivity.
Defined.

(** The cutflow of [FancyDimuonProcessor.process] on the muons of a chunk
    has its six keys in the order of the cuts, starts with the number of
    events, and never increases from one cut to the next.  [pt_lead] and
    [pt_trail] hold two entries for each event that the last cut counts. *)
Theorem cutflow_decreases {Muon : Type} (pt : Muon -> float) (charge softId : Muon -> Z)
    (pair_mass : Muon * Muon -> float) (muons : jagged Muon) :
  let out := FancyDimuonProcessor_process pt charge softId pair_mass muons in
  let c := cutflow out in
  map fst c = cutflow_keys /\
  item "all events" c = Z.of_nat (length muons) /\
  (0 <= item "== two dimuons" c <= item "opposite charge" c)%Z /\
  (item "opposite charge" c <= item ">= two dimuons" c)%Z /\
  (item ">= two dimuons" c <= item "two muons" c)%Z /\
  (item "two muons" c <= item "soft id" c)%Z /\
  (item "soft id" c <= item "all events" c)%Z /\
  Z.of_nat (length (pt_lead out)) = (2 * item "== two dimuons" c)%Z /\
  Z.of_nat (length (pt_trail out)) = (2 * item "== two dimuons" c)%Z.
Proof.
  unfold FancyDimuonProcessor_process. cbv zeta. cbn [cutflow pt_lead pt_trail].
  rewrite lead_rows, trail_rows, !length_map.
  cbn [iadd_item String.eqb Ascii.eqb Bool.eqb].
  cbn [item String.eqb Ascii.eqb Bool.eqb map fst].
  rewrite !Z.add_0_l.
  rewrite !getitem_jagged_elementwise, !any_elementwise, !counts_test.
  rewrite !getitem_mask_map, !sum_map.
  unfold size.
  split; [reflexivity|]. split; [reflexivity|].
  set (soft := fun m => (0 <? softId m)%Z).
  set (opp := fun p : Muon * Muon => (wrap32 (charge (fst p) * charge (snd p)) =? -1)%Z).
  set (heavy := fun p : Muon * Muon => PrimFloat.ltb 35 (pair_mass p)).
  assert (T : forall X : jagged (Muon * Muon),
             Z.of_nat (length (flatten (filter (fun ev => (Z.of_nat (length ev) =? 2)%Z) X)))
             = (2 * Z.of_nat (length (filter (fun ev => (Z.of_nat (length ev) =? 2)%Z) X)))%Z).
  { intros X. unfold flatten. rewrite concat_pairs. lia. }
  rewrite T.
  split; [split; [lia|]|]; [|split; [|split; [|split; [|split; [|split; reflexivity]]]]];
    apply Nat2Z.inj_le.
  - rewrite map_map, filter_map_swap, length_map.
    apply filter_length_mono. intros ev H. apply filter_some.
    apply Z.eqb_eq in H. pose proof (filter_length_le heavy (filter opp ev)). lia.
  - apply filter_length_le.
  - etransitivity; [apply filter_length_le|]. unfold distincts. now rewrite length_map.
  - rewrite filter_map_swap, length_map.
    apply filter_length_mono. intros ev H. apply filter_some.
    apply Z.leb_le in H. lia.
  - apply filter_length_le.
Qed.

Lemma cutflow_decreases_witness :
  cutflow (FancyDimuonProcessor_process muon_pt muon_charge muon_softId pt_sum five_events)
  = [("all events", 5); ("soft id", 4); ("two muons", 3); (">= two dimuons", 2);
     ("opposite charge", 2); ("== two dimuons", 1)]%string%Z /\
  (item "soft id"
     (cutflow (FancyDimuonProcessor_process muon_pt muon_charge muon_softId pt_sum
                 five_events))
   <= item "all events"
        (cutflow (FancyDimuonProcessor_process muon_pt muon_charge muon_softId pt_sum
                    five_events)))%Z.
Proof.
  split; [reflexivity|].
  apply (cutflow_decreases muon_pt muon_charge muon_softId pt_sum five_events).
Defined.

(** The leading muon of a pair is the one of larger pt.  [pt_lead] and
    [pt_trail] of [FancyDimuonProcessor.process] have one entry for each
    selected pair of the chunk, in the order of the pairs: for the pair
    [(m0, m1)] the leading entry is the pt of [m0] and the trailing one the
    pt of [m1] when the pt of [m0] is the larger, and the other way round
    otherwise.  When both pts are numbers the trailing entry is never above
    the leading one. *)
Theorem lead_not_below_trail {Muon : Type} (pt : Muon -> float)
    (charge softId : Muon -> Z) (pair_mass : Muon * Muon -> float)
    (muons : jagged Muon) :
  let out := FancyDimuonProcessor_process pt charge softId pair_mass muons in
  let pairs := selected_dimuons charge softId pair_mass muons in
  length (pt_lead out) = length pairs /\
  length (pt_trail out) = length pairs /\
  (forall i m0 m1,
      nth_error pairs i = Some (m0, m1) ->
      exists l t,
        nth_error (pt_lead out) i = Some l /\
        nth_error (pt_trail out) i = Some t /\
        (if PrimFloat.ltb (pt m1) (pt m0)
         then l = pt m0 /\ t = pt m1
         else l = pt m1 /\ t = pt m0) /\
        (is_num (pt m0) = true -> is_num (pt m1) = true -> PrimFloat.leb t l = true)) /\
  (forall i l t,
      nth_error (pt_lead out) i = Some l -> nth_error (pt_trail out) i = Some t ->
      exists m0 m1,
        nth_error pairs i = Some (m0, m1) /\
        ((l = pt m0 /\ t = pt m1) \/ (l = pt m1 /\ t = pt m0)) /\
        (is_num l = true -> is_num t = true -> PrimFloat.leb t l = true)).
Proof.
  unfold FancyDimuonProcessor_process. cbv zeta. cbn [pt_lead pt_trail].
  rewrite lead_rows, trail_rows, !length_map.
  rewrite !getitem_jagged_elementwise, !counts_test, !getitem_mask_map.
  unfold distincts. rewrite selection_pipeline.
  split; [reflexivity|]. split; [reflexivity|]. split.
  - intros i m0 m1 E. rewrite !nth_error_map, E. cbn [option_map fst snd].
    do 2 eexists. split; [reflexivity|]. split; [reflexivity|].
    destruct (PrimFloat.ltb (pt m1) (pt m0)) eqn:C.
    + split; [split; reflexivity|]. intros _ _. now apply ltb_leb.
    + split; [split; reflexivity|]. intros N0 N1.
      rewrite <- (not_ltb _ _ N1 N0), C. reflexivity.
  - intros i l t. rewrite !nth_error_map.
    destruct (nth_error (selected_dimuons charge softId pair_mass muons) i)
      as [[m0 m1]|]; [|discriminate].
    cbn [option_map fst snd]. intros L T. inversion L; inversion T; subst; clear L T.
    exists m0, m1. split; [reflexivity|].
    destruct (PrimFloat.ltb (pt m1) (pt m0)) eqn:C.
    + split; [left; split; reflexivity|]. intros _ _. now apply ltb_leb.
    + split; [right; split; reflexivity|]. intros Nl Nt.
      rewrite <- (not_ltb _ _ Nl Nt), C. reflexivity.
Qed.

Lemma lead_not_below_trail_witness :
  selected_dimuons muon_charge muon_softId pt_sum five_events
  = [((40%float, 1, 1), (50%float, -1, 1)); ((50%float, -1, 1), (1%float, 1, 1))]%Z /\
  exists l t,
    nth_error
      (pt_lead (FancyDimuonProcessor_process muon_pt muon_charge muon_softId pt_sum
                  five_events)) 1
    = Some l /\
    nth_error
      (pt_trail (FancyDimuonProcessor_process muon_pt muon_charge muon_softId pt_sum
                   five_events)) 1
    = Some t /\
    l = 50%float /\ t = 1%float.
Proof.
  split; [reflexivity|].
  destruct (lead_not_below_trail muon_pt muon_charge muon_softId pt_sum five_events)
    as (_ & _ & H & _).
  destruct (H 1 (50%float, -1, 1)%Z (1%float, 1, 1)%Z eq_refl) as (l & t & L & T & C & _).
  exists l, t. split; [exact L|]. split; [exact T|]. exact C.
Defined.

End Analysis.
